(** * One-way folder synchronisation ([sync_folders.py])

    A shallow embedding of the synchronisation engine of [sync_folders.py]
    and the properties of it that its specification states.

    Modelling decisions, all taken from the Python source:

    - The source tree, the replica tree and the log location are three
      separate stores (they are assumed not to overlap on disk).  A tree is
      a finite map from relative path strings (as [os.path.relpath] returns
      them) to nodes; the value [None] of a store means that the path given
      on the command line does not exist.
    - A Python [set] is modelled by the list of its elements in iteration
      order.  CPython does not promise any order, so the appliers are
      verified for every order of their arguments.
    - Python exceptions: only [OSError] (and its subclasses) matters here.
      A computation is a function from the state to an outcome (a value, or
      a raised [OSError]) and the state reached; the state survives a raise.
    - A call into the operating system fails when the trees make it fail
      (a missing path, a file where a directory is needed, ...) or when an
      oracle says so, which stands for permissions, devices and other
      processes.  A call that fails leaves the trees as they were: the
      model does not follow a recursive removal or a copy that fails half
      way and leaves a part of its work behind.  Of the trees after a call
      that failed, the theorems say only what holds then too, or they
      assume that no copy is cut short.
    - Modification times are integers compared exactly, as the code
      compares the values of [os.path.getmtime].
    - The timestamp that [log_message] prints in front of a line is left
      out of a log line; a line is its level and its text.
    - [os.path.sep] is the POSIX separator. *)

From Stdlib Require Import ZArith String Ascii List Permutation Sorted Lia.
From stdpp Require Import base option list gmap strings.

Open Scope string_scope.
Open Scope list_scope.

(** ** Strings and paths *)

Module Path.

(** [os.path.sep] *)
Definition sep : ascii := "/"%char.

(** [x.count(os.path.sep)] *)
Fixpoint count_sep (x : string) : nat :=
  match x with
  | EmptyString => 0
  | String c rest => (if Ascii.eqb c sep then 1 else 0) + count_sep rest
  end.

(** [s.startswith(p)] *)
Fixpoint startswith (p s : string) : bool :=
  match p, s with
  | EmptyString, _ => true
  | String a p', String b s' => Ascii.eqb a b && startswith p' s'
  | String _ _, EmptyString => false
  end.

(** [sub in s] on Python strings: [sub] occurs in [s] as a substring. *)
Fixpoint contains (sub s : string) : bool :=
  startswith sub s ||
  match s with
  | EmptyString => false
  | String _ s' => contains sub s'
  end.

(** [s.endswith("/")] *)
Fixpoint ends_with_sep (s : string) : bool :=
  match s with
  | EmptyString => false
  | String c EmptyString => Ascii.eqb c sep
  | String _ rest => ends_with_sep rest
  end.

(** [os.path.join(a, b)] of [posixpath], for two components. *)
Definition join (a b : string) : string :=
  if startswith "/" b then b
  else if String.eqb a "" || ends_with_sep a then (a ++ b)%string
  else (a ++ "/" ++ b)%string.

(** [p] lies strictly below the directory [d]: [d + "/"] is a prefix of [p]. *)
Definition is_under (d p : string) : bool := startswith (d ++ "/")%string p.

(** [p] is [d] itself or lies below it: what removing or copying the
    directory [d] recursively reaches. *)
Definition within (d p : string) : bool := String.eqb d p || is_under d p.

(** [os.path.basename(p)]: what follows the last separator. *)
Fixpoint basename (p : string) : string :=
  match p with
  | EmptyString => ""
  | String c rest => if (0 <? count_sep p)%nat then basename rest else p
  end.

(** [os.path.dirname(p)] for a relative path: what precedes the last
    separator, and the empty string when there is none. *)
Fixpoint dirname (p : string) : string :=
  match p with
  | EmptyString => ""
  | String c rest => if (0 <? count_sep rest)%nat then String c (dirname rest) else ""
  end.

(** The proper ancestors of a relative path, outermost first: the
    directories that [os.makedirs] walks through. *)
Fixpoint ancestors (p : string) : list string :=
  match p with
  | EmptyString => []
  | String c rest =>
      (if Ascii.eqb c sep then [""] else []) ++ map (String c) (ancestors rest)
  end.

End Path.

(** ** Python sets as lists *)

(** [sorted(xs, key=lambda x: x.count(os.path.sep))].  Python's sort is
    stable: elements with equal keys keep the order they had in [xs]. *)
Fixpoint insert_by_depth (x : string) (sorted : list string) : list string :=
  match sorted with
  | [] => [x]
  | y :: rest =>
      if (Path.count_sep x <=? Path.count_sep y)%nat then x :: y :: rest
      else y :: insert_by_depth x rest
  end.

Definition sorted_by_depth (xs : list string) : list string :=
  foldr insert_by_depth [] xs.

(** [a - b], [a.intersection(b)] and [a | b] on sets. *)
Definition set_difference (a b : list string) : list string := list_difference a b.
Definition set_intersection (a b : list string) : list string := list_intersection a b.
Definition set_union (a b : list string) : list string := list_union a b.

(** [s.add(x)] *)
Definition set_add (x : string) (s : list string) : list string :=
  if bool_decide (x ∈ s) then s else x :: s.

(** ** The file system and the log *)

(** A directory entry: a regular file with its modification time and
    contents, or a directory. *)
Inductive node : Type :=
  | File (mtime : Z) (data : string)
  | Dir.

#[global] Instance node_eq_dec : EqDecision node.
Proof. solve_decision. Defined.

(** [true] for a file, [false] for a directory. *)
Definition kind (n : node) : bool :=
  match n with File _ _ => true | Dir => false end.

(** The constants [INFO] ... [UPDATED] of the module. *)
Inductive msg_type : Type := INFO | OKAY | ERROR | CREATED | DELETED | UPDATED.

#[global] Instance msg_type_eq_dec : EqDecision msg_type.
Proof. solve_decision. Defined.

(** A line of output: [msg_type] and [msg_text] of [log_message]. *)
Definition line : Type := msg_type * string.

(** The state of the machine the engine runs on.
    - [source], [replica]: the tree below the source and the replica path,
      [None] when that path does not exist;
    - [log_file]: [None] when the folder of the log file does not exist,
      [Some None] when the folder exists and the file does not, and
      [Some (Some ls)] for a log file holding the lines [ls];
    - [stdout]: what has been printed. *)
Record world : Type := World {
  source : option (gmap string node);
  replica : option (gmap string node);
  log_file : option (option (list line));
  stdout : list line
}.

Definition set_replica (t : gmap string node) (w : world) : world :=
  World (source w) (Some t) (log_file w) (stdout w).
Definition set_log_file (ls : list line) (w : world) : world :=
  World (source w) (replica w) (Some (Some ls)) (stdout w).
Definition print (l : line) (w : world) : world :=
  World (source w) (replica w) (log_file w) (stdout w ++ [l]).

Inductive root : Type := Src | Rep.

Definition store (r : root) (w : world) : option (gmap string node) :=
  match r with Src => source w | Rep => replica w end.

(** The four paths whose existence [sync_folders] checks. *)
Inductive location : Type := LogFolder | LogFile | SourceRoot | ReplicaRoot.

(** The calls into the operating system that can fail on an item. *)
Inductive syscall : Type := Rmtree | Remove | Copytree | Copy2 | Getmtime.

(** What the model does not determine: on which paths a call fails for a
    reason outside the trees (permissions, a device error, another process),
    the modification time the system reports for a directory, and the
    lengths of a sleep that the system refuses as too large for its clock. *)
Record os_oracle : Type := Oracle {
  fails : syscall -> string -> bool;
  dir_mtime : string -> Z;
  sleep_refused : Z -> bool
}.

(** ** Computations: state and [OSError] *)

Inductive outcome (A : Type) : Type :=
  | Done (a : A)
  | Raised.
Arguments Done {A} a.
Arguments Raised {A}.

Definition M (S A : Type) : Type := S -> outcome A * S.

Definition ret {S A} (a : A) : M S A := fun s => (Done a, s).

Definition bind {S A B} (m : M S A) (k : A -> M S B) : M S B :=
  fun s => match m s with
           | (Done a, s') => k a s'
           | (Raised, s') => (Raised, s')
           end.

(** [try: body except OSError: handler] *)
Definition try_except {S A} (body handler : M S A) : M S A :=
  fun s => match body s with
           | (Done a, s') => (Done a, s')
           | (Raised, s') => handler s'
           end.

#[global] Instance M_ret {S} : MRet (M S) := fun A => @ret S A.
#[global] Instance M_bind {S} : MBind (M S) := fun A B k m => bind m k.

(** [for x in xs: body] *)
Fixpoint for_each {S X} (xs : list X) (body : X -> M S unit) : M S unit :=
  match xs with
  | [] => ret tt
  | x :: rest => body x ;; for_each rest body
  end.

(** A function with one local mutable variable of type [L]: the variable
    lives next to the world while the body runs, so that what the body did
    to it before an exception is still there in the handler. *)
Definition with_local {L A} (init : L) (m : M (L * world) A) : M world A :=
  fun w => let '(r, (_, w')) := m (init, w) in (r, w').

Definition lift {L A} (m : M world A) : M (L * world) A :=
  fun s => let '(r, w') := m s.2 in (r, (s.1, w')).

Definition get_local {L} : M (L * world) L := fun s => (Done s.1, s).

Definition modify_local {L} (f : L -> L) : M (L * world) unit :=
  fun s => (Done tt, (f s.1, s.2)).

(** ** The operating system calls the engine makes *)

(** A call takes the path string that the code passes to it ([path],
    [src], [dst]: the root joined with a relative path), which is what the
    oracle sees, and the relative path [rel] itself, at which the model
    looks into the tree.  The engine removes from the replica only and
    copies from the source into the replica only, so [rmtree] and
    [os_remove] act on the replica tree, and [copy2] and [copytree] read
    the source tree and write the replica tree.  That the source tree is
    left alone is thereby part of the model; what is proved of the code is
    at which paths it asks for its writes. *)

Section Engine.

Variable os : os_oracle.

(** [os.path.exists] on one of the four checked paths.  The folder of the
    log file is [os.path.dirname(log_file_path)]; [main] builds
    [log_file_path] by joining the path of the log folder and a file name,
    so the folder is the log folder. *)
Definition os_path_exists (l : location) : M world bool :=
  fun w => (Done match l with
                 | LogFolder => bool_decide (is_Some (log_file w))
                 | LogFile => match log_file w with Some (Some _) => true | _ => false end
                 | SourceRoot => bool_decide (is_Some (source w))
                 | ReplicaRoot => bool_decide (is_Some (replica w))
                 end, w).

(** [os.walk(base_path, topdown=False)] with the [os.path.relpath] of every
    entry: the relative paths of the files and of the folders of a tree.
    Walking a path that does not exist yields nothing. *)
Definition walk (r : root) : M world (list (string * node)) :=
  fun w => (Done match store r w with
                 | Some t => map_to_list t
                 | None => []
                 end, w).

(** [shutil.rmtree(path)]: [path] must be a directory; it goes with all
    that is below it. *)
Definition rmtree (path rel : string) : M world unit :=
  fun w =>
    if fails os Rmtree path then (Raised, w) else
    match replica w with
    | Some t =>
        match t !! rel with
        | Some Dir => (Done tt, set_replica (filter (fun kv => Path.within rel kv.1 = false) t) w)
        | _ => (Raised, w)
        end
    | None => (Raised, w)
    end.

(** [os.remove(path)]: [path] must be a file. *)
Definition os_remove (path rel : string) : M world unit :=
  fun w =>
    if fails os Remove path then (Raised, w) else
    match replica w with
    | Some t =>
        match t !! rel with
        | Some (File _ _) => (Done tt, set_replica (delete rel t) w)
        | _ => (Raised, w)
        end
    | None => (Raised, w)
    end.

(** The parent directory of [rel] exists in the tree [t] (the root of an
    existing tree does). *)
Definition parent_is_dir (t : gmap string node) (rel : string) : bool :=
  String.eqb (Path.dirname rel) "" || bool_decide (t !! Path.dirname rel = Some Dir).

(** [shutil.copy2(src, dst)]: [src] must be a file; contents and
    modification time are copied.  When [dst] is a directory the file is
    copied into it under the base name of [src]. *)
Definition copy2 (src dst rel : string) : M world unit :=
  fun w =>
    if fails os Copy2 dst then (Raised, w) else
    match source w, replica w with
    | Some s, Some d =>
        match s !! rel with
        | Some (File m c) =>
            match d !! rel with
            | Some Dir =>
                let inner := Path.join rel (Path.basename rel) in
                match d !! inner with
                | Some Dir => (Raised, w)
                | _ => (Done tt, set_replica (<[inner := File m c]> d) w)
                end
            | Some (File _ _) => (Done tt, set_replica (<[rel := File m c]> d) w)
            | None =>
                if parent_is_dir d rel then (Done tt, set_replica (<[rel := File m c]> d) w)
                else (Raised, w)
            end
        | _ => (Raised, w)
        end
    | _, _ => (Raised, w)
    end.

(** [os.makedirs] on the way to a new directory: every ancestor that is
    missing is created, and an ancestor that is a file is an error. *)
Fixpoint makedirs (t : gmap string node) (dirs : list string) : option (gmap string node) :=
  match dirs with
  | [] => Some t
  | d :: rest =>
      match t !! d with
      | Some (File _ _) => None
      | Some Dir => makedirs t rest
      | None => makedirs (<[d := Dir]> t) rest
      end
  end.

(** [shutil.copytree(src, dst)]: [src] must be a directory and [dst] must
    not exist; the whole subtree is copied, files as by [copy2]. *)
Definition copytree (src dst rel : string) : M world unit :=
  fun w =>
    if fails os Copytree dst then (Raised, w) else
    match source w, replica w with
    | Some s, Some d =>
        match s !! rel with
        | Some Dir =>
            if bool_decide (is_Some (d !! rel)) then (Raised, w)
            else match makedirs d (Path.ancestors rel) with
                 | Some d' =>
                     (Done tt, set_replica (filter (fun kv => Path.within rel kv.1 = true) s ∪ d') w)
                 | None => (Raised, w)
                 end
        | _ => (Raised, w)
        end
    | _, _ => (Raised, w)
    end.

(** [os.path.getmtime(path)] *)
Definition getmtime (r : root) (path rel : string) : M world Z :=
  fun w =>
    if fails os Getmtime path then (Raised, w) else
    match store r w with
    | Some t =>
        match t !! rel with
        | Some (File m _) => (Done m, w)
        | Some Dir => (Done (dir_mtime os path), w)
        | None => (Raised, w)
        end
    | None => (Raised, w)
    end.

(** ** The engine *)

(** [log_message(msg_text, msg_type, file_path)]: the line is printed, and
    with a [file_path] it is appended to the log file, which [open(.., "a")]
    creates when it is missing; [open] raises when the folder is missing. *)
Definition log_message (msg_text : string) (ty : msg_type) (file_path : option string)
  : M world unit :=
  fun w =>
    let msg : line := (ty, msg_text) in
    let w := print msg w in
    match file_path with
    | None => (Done tt, w)
    | Some _ =>
        match log_file w with
        | None => (Raised, w)
        | Some None => (Done tt, set_log_file [msg] w)
        | Some (Some ls) => (Done tt, set_log_file (ls ++ [msg]) w)
        end
    end.

(** [True] for an entry that [os.walk] lists among the [filenames]. *)
Definition is_file (e : string * node) : bool :=
  match e.2 with File _ _ => true | Dir => false end.

(** [get_all_files_and_folders(base_path)] *)
Definition get_all_files_and_folders (base : root) : M world (list string * list string) :=
  entries ← walk base;
  let all_files := (filter (fun e => is_file e = true) entries).*1 in
  let all_folders := (filter (fun e => is_file e = false) entries).*1 in
  mret (all_files, all_folders).

(** The loop that follows a recursive removal or copy of [folder]: every
    item that has [folder] in its name is added to the set of handled items
    and logged (lines 174-178 and 213-217). *)
Definition cascade (ty : msg_type) (folder : string) (items : list string)
    (path log_file_path : string) : M (list string * world) unit :=
  for_each items (fun item =>
    if Path.contains folder item then
      let item_path := Path.join path item in
      modify_local (set_add item);;
      lift (log_message item_path ty (Some log_file_path))
    else mret tt).

(** [delete_files(all_folders, all_files, path, log_file_path)], on the
    replica tree. *)
Definition delete_files (all_folders all_files : list string)
    (path log_file_path : string) : M world unit :=
  with_local ([] : list string) (
    for_each (sorted_by_depth all_folders) (fun folder_to_delete =>
      deleted_items ← get_local;
      if bool_decide (folder_to_delete ∈ deleted_items) then mret tt else
      let folder_path := Path.join path folder_to_delete in
      try_except
        (lift (rmtree folder_path folder_to_delete);;
         cascade DELETED folder_to_delete (set_union all_folders all_files) path log_file_path)
        (lift (log_message
                 (folder_path ++ " could not be deleted. Trying again next synchronization")%string
                 ERROR (Some log_file_path))));;
    for_each all_files (fun file_to_delete =>
      deleted_items ← get_local;
      if bool_decide (file_to_delete ∈ deleted_items) then mret tt else
      let file_path := Path.join path file_to_delete in
      try_except
        (lift (os_remove file_path file_to_delete);;
         lift (log_message file_path DELETED (Some log_file_path)))
        (lift (log_message
                 (file_path ++ " could not be deleted. Trying again next synchronization")%string
                 ERROR (Some log_file_path))))).

(** [create_files(all_folders, all_files, source_path, destination_path,
    log_file_path)], from the source tree into the replica tree. *)
Definition create_files (all_folders all_files : list string)
    (source_path destination_path log_file_path : string) : M world unit :=
  with_local ([] : list string) (
    for_each (sorted_by_depth all_folders) (fun folder_to_create =>
      created_items ← get_local;
      if bool_decide (folder_to_create ∈ created_items) then mret tt else
      let source_folder_path := Path.join source_path folder_to_create in
      let destination_folder_path := Path.join destination_path folder_to_create in
      try_except
        (lift (copytree source_folder_path destination_folder_path folder_to_create);;
         cascade CREATED folder_to_create (set_union all_folders all_files)
           destination_path log_file_path)
        (lift (log_message
                 (destination_folder_path ++ " could not be created. Trying again next synchronization")%string
                 ERROR (Some log_file_path))));;
    for_each all_files (fun file_to_create =>
      created_items ← get_local;
      if bool_decide (file_to_create ∈ created_items) then mret tt else
      let source_file_path := Path.join source_path file_to_create in
      let destination_file_path := Path.join destination_path file_to_create in
      try_except
        (lift (copy2 source_file_path destination_file_path file_to_create);;
         lift (log_message destination_file_path CREATED (Some log_file_path)))
        (lift (log_message
                 (destination_file_path ++ " could not be created. Trying again next synchronization")%string
                 ERROR (Some log_file_path))))).

(** [update_files(all_files, source_path, destination_path, log_file_path)] *)
Definition update_files (all_files : list string)
    (source_path destination_path log_file_path : string) : M world unit :=
  for_each all_files (fun file_to_update =>
    let source_file_path := Path.join source_path file_to_update in
    let destination_file_path := Path.join destination_path file_to_update in
    modified_date_source ← getmtime Src source_file_path file_to_update;
    modified_date_destination ← getmtime Rep destination_file_path file_to_update;
    if bool_decide (modified_date_destination ≠ modified_date_source) then
      try_except
        (copy2 source_file_path destination_file_path file_to_update;;
         log_message destination_file_path UPDATED (Some log_file_path))
        (log_message
           (destination_file_path ++ " could not be updated. Trying again next synchronization")%string
           ERROR (Some log_file_path))
    else mret tt).

(** The five sets computed on lines 281-285. *)
Record diff : Type := Diff {
  deleted_files : list string;
  deleted_folders : list string;
  created_files : list string;
  created_folders : list string;
  common_files : list string
}.

Definition compute_diff (source_files source_folders replica_files replica_folders : list string)
  : diff :=
  {| deleted_files := set_difference replica_files source_files;
     deleted_folders := set_difference replica_folders source_folders;
     created_files := set_difference source_files replica_files;
     created_folders := set_difference source_folders replica_folders;
     common_files := set_intersection source_files replica_files |}.

(** [sync_folders(source_path, replica_path, log_file_path)] *)
Definition sync_folders (source_path replica_path log_file_path : string) : M world bool :=
  log_folder_exists ← os_path_exists LogFolder;
  log_file_exists ← os_path_exists LogFile;
  source_exists ← os_path_exists SourceRoot;
  replica_exists ← os_path_exists ReplicaRoot;
  if negb (log_folder_exists && log_file_exists && source_exists && replica_exists) then
    mret false
  else
    '(source_files, source_folders) ← get_all_files_and_folders Src;
    '(replica_files, replica_folders) ← get_all_files_and_folders Rep;
    let d := compute_diff source_files source_folders replica_files replica_folders in
    delete_files (deleted_folders d) (deleted_files d) replica_path log_file_path;;
    create_files (created_folders d) (created_files d) source_path replica_path log_file_path;;
    update_files (common_files d) source_path replica_path log_file_path;;
    mret true.

End Engine.

Arguments log_message : simpl never.
Arguments rmtree : simpl never.
Arguments os_remove : simpl never.
Arguments copy2 : simpl never.
Arguments copytree : simpl never.
Arguments getmtime : simpl never.

(** ** The rounds of the loops, and the appliers of a cycle *)

Section Steps.

Variable os : os_oracle.

(** One round of the folder loop and of the file loop of [delete_files]
    and of [create_files]. *)
Definition delete_folder_step (all_folders all_files : list string) (path lp : string)
    (folder_to_delete : string) : M (list string * world) unit :=
  deleted_items ← get_local;
  if bool_decide (folder_to_delete ∈ deleted_items) then mret tt else
  try_except
    (lift (rmtree os (Path.join path folder_to_delete) folder_to_delete);;
     cascade DELETED folder_to_delete (set_union all_folders all_files) path lp)
    (lift (log_message
             (Path.join path folder_to_delete
                ++ " could not be deleted. Trying again next synchronization")%string
             ERROR (Some lp))).

Definition delete_file_step (path lp : string) (file_to_delete : string)
  : M (list string * world) unit :=
  deleted_items ← get_local;
  if bool_decide (file_to_delete ∈ deleted_items) then mret tt else
  try_except
    (lift (os_remove os (Path.join path file_to_delete) file_to_delete);;
     lift (log_message (Path.join path file_to_delete) DELETED (Some lp)))
    (lift (log_message
             (Path.join path file_to_delete
                ++ " could not be deleted. Trying again next synchronization")%string
             ERROR (Some lp))).

Definition create_folder_step (all_folders all_files : list string) (sp dp lp : string)
    (folder_to_create : string) : M (list string * world) unit :=
  created_items ← get_local;
  if bool_decide (folder_to_create ∈ created_items) then mret tt else
  try_except
    (lift (copytree os (Path.join sp folder_to_create) (Path.join dp folder_to_create)
             folder_to_create);;
     cascade CREATED folder_to_create (set_union all_folders all_files) dp lp)
    (lift (log_message
             (Path.join dp folder_to_create
                ++ " could not be created. Trying again next synchronization")%string
             ERROR (Some lp))).

Definition create_file_step (sp dp lp : string) (file_to_create : string)
  : M (list string * world) unit :=
  created_items ← get_local;
  if bool_decide (file_to_create ∈ created_items) then mret tt else
  try_except
    (lift (copy2 os (Path.join sp file_to_create) (Path.join dp file_to_create)
             file_to_create);;
     lift (log_message (Path.join dp file_to_create) CREATED (Some lp)))
    (lift (log_message
             (Path.join dp file_to_create
                ++ " could not be created. Trying again next synchronization")%string
             ERROR (Some lp))).

(** One round of the loop of [update_files]. *)
Definition update_step (sp dp lp : string) (f : string) : M world unit :=
  modified_date_source ← getmtime os Src (Path.join sp f) f;
  modified_date_destination ← getmtime os Rep (Path.join dp f) f;
  if bool_decide (modified_date_destination ≠ modified_date_source) then
    try_except
      (copy2 os (Path.join sp f) (Path.join dp f) f;;
       log_message (Path.join dp f) UPDATED (Some lp))
      (log_message
         (Path.join dp f ++ " could not be updated. Trying again next synchronization")%string
         ERROR (Some lp))
  else mret tt.

(** The three appliers of a cycle, on the diff [d]. *)
Definition deletion (replica_path log_file_path : string) (d : diff) : M world unit :=
  delete_files os (deleted_folders d) (deleted_files d) replica_path log_file_path.
Definition creation (source_path replica_path log_file_path : string) (d : diff) : M world unit :=
  create_files os (created_folders d) (created_files d) source_path replica_path log_file_path.
Definition update (source_path replica_path log_file_path : string) (d : diff) : M world unit :=
  update_files os (common_files d) source_path replica_path log_file_path.

(** The files of a tree whose modification time can be read. *)
Definition readable (sp dp : string) (s d : gmap string node) (f : string) : Prop :=
  (exists m c, s !! f = Some (File m c)) /\ (exists m c, d !! f = Some (File m c)) /\
  fails os Getmtime (Path.join sp f) = false /\ fails os Getmtime (Path.join dp f) = false.

End Steps.

(** ** Vocabulary for the properties *)

(** The snapshot of a tree, as [get_all_files_and_folders] returns it. *)
Definition files_of (t : gmap string node) : list string :=
  (filter (fun e => is_file e = true) (map_to_list t)).*1.

Definition folders_of (t : gmap string node) : list string :=
  (filter (fun e => is_file e = false) (map_to_list t)).*1.

Definition snapshot (o : option (gmap string node)) : list string * list string :=
  match o with
  | Some t => (files_of t, folders_of t)
  | None => ([], [])
  end.

(** The diff that a cycle started in [w] computes. *)
Definition cycle_diff (w : world) : diff :=
  compute_diff (snapshot (source w)).1 (snapshot (source w)).2
               (snapshot (replica w)).1 (snapshot (replica w)).2.

(** The four monitored paths exist. *)
Definition monitored_paths_exist (w : world) : Prop :=
  is_Some (log_file w) /\ (exists ls, log_file w = Some (Some ls)) /\
  is_Some (source w) /\ is_Some (replica w).

(** A map is the image of a directory tree when every ancestor of every
    entry is a directory of the map. *)
Definition well_formed (t : gmap string node) : Prop :=
  map_Forall (fun p _ => Forall (fun a => t !! a = Some Dir) (Path.ancestors p)) t.

(** The shape of a tree: its paths and, for each, whether it is a file.
    Two trees of the same shape differ at most in modification times and
    contents. *)
Definition shape (o : option (gmap string node)) : option (gmap string bool) :=
  match o with
  | Some t => Some (kind <$> t)
  | None => None
  end.

(** The lines a computation printed: what [stdout] gained. *)
Definition printed (w w' : world) (ls : list line) : Prop :=
  stdout w' = stdout w ++ ls.

(** What the specification says of the Update Applier, for a file [f] of
    the source tree [s] and the replica tree [d]: it is copied again when
    the two modification times differ; this prints one [UPDATED] line, or
    one [ERROR] line when the copy fails. *)
Definition needs_update (s d : gmap string node) (f : string) : bool :=
  match s !! f, d !! f with
  | Some (File ms _), Some (File md _) => bool_decide (md <> ms)
  | _, _ => false
  end.

Definition update_lines (os : os_oracle) (dp : string) (s d : gmap string node) (f : string)
  : list line :=
  if needs_update s d f then
    if fails os Copy2 (Path.join dp f)
    then [(ERROR, (Path.join dp f ++ " could not be updated. Trying again next synchronization")%string)]
    else [(UPDATED, Path.join dp f)]
  else [].

Definition updated_entry (os : os_oracle) (dp : string) (s d : gmap string node) (f : string)
  : option node :=
  if needs_update s d f && negb (fails os Copy2 (Path.join dp f)) then s !! f else d !! f.

(** The log file after the lines [ls] were logged, from what it was
    [before]: opening in append mode keeps what the file held and creates
    the file when it is missing. *)
Definition log_after (before : option (option (list line))) (ls : list line)
  : option (option (list line)) :=
  match before with
  | None => None
  | Some None => match ls with [] => Some None | _ => Some (Some ls) end
  | Some (Some old) => Some (Some (old ++ ls))
  end.

(** ** Concrete worlds *)

(** An operating system on which no call fails for an outside reason. *)
Definition no_faults : os_oracle :=
  Oracle (fun _ _ => false) (fun _ => 0%Z) (fun _ => false).

(** Nothing can be removed: every [rmtree] and [os.remove] is refused. *)
Definition read_only : os_oracle :=
  Oracle (fun c _ => match c with Rmtree | Remove => true | _ => false end) (fun _ => 0%Z)
         (fun _ => false).

(** Reading the modification time of [replica/c.txt] fails. *)
Definition stat_fails : os_oracle :=
  Oracle (fun c p => match c with
                     | Getmtime => String.eqb p "replica/c.txt"
                     | _ => false
                     end) (fun _ => 0%Z) (fun _ => false).

(** No file can be written: every [copy2] is refused. *)
Definition copy_refused : os_oracle :=
  Oracle (fun c _ => match c with Copy2 => true | _ => false end) (fun _ => 0%Z)
         (fun _ => false).

Definition tree (entries : list (string * node)) : option (gmap string node) :=
  Some (list_to_map entries).

(** The replica holds [folder1], which the source does not have, next to
    [folder10/x], a file of a folder that the source has. *)
Definition world_sibling : world :=
  World (tree [("folder10", Dir)])
        (tree [("folder1", Dir); ("folder10", Dir); ("folder10/x", File 5 "data")])
        (Some (Some [])) [].

(** The same names on the source side: [folder1] and [folder10/x] are new. *)
Definition world_sibling_new : world :=
  World (tree [("folder1", Dir); ("folder10", Dir); ("folder10/x", File 5 "data")])
        (tree [("folder10", Dir)])
        (Some (Some [])) [].

(** The replica holds the folder [d/a1] with the file [d/a1/x], and the
    folder [a]; the source has none of the three. *)
Definition world_nested : world :=
  World (tree [("d", Dir)])
        (tree [("a", Dir); ("d", Dir); ("d/a1", Dir); ("d/a1/x", File 5 "data")])
        (Some (Some [])) [].

(** Both trees hold [c.txt], with different modification times; the
    replica also holds a folder that the source does not have. *)
Definition world_common : world :=
  World (tree [("c.txt", File 7 "new")])
        (tree [("c.txt", File 6 "old"); ("old", Dir)])
        (Some (Some [])) [].

(** [world_common] with other times and contents. *)
Definition world_common_retimed : world :=
  World (tree [("c.txt", File 1 "one")])
        (tree [("c.txt", File 1 "two"); ("old", Dir)])
        (Some (Some [])) [].

(** [world_common] after the log file was deleted. *)
Definition world_no_log : world :=
  World (source world_common) (replica world_common) (Some None) [].

(** ** Vocabulary of the proofs *)

(** [wp m Q E s]: run from [s], [m] either returns a value and a state in
    [Q], or raises in a state in [E].  Computations are total functions, so
    this is a statement of total correctness. *)
Definition wp {S A} (m : M S A) (Q : A -> S -> Prop) (E : S -> Prop) (s : S) : Prop :=
  match m s with
  | (Done a, s') => Q a s'
  | (Raised, s') => E s'
  end.

(** The order of [sorted_by_depth]: no more separators. *)
Definition shallower (a b : string) : Prop := Path.count_sep a <= Path.count_sep b.

(** Invariants of the world that the engine's output cannot break: printing
    a line of one of the levels in [allowed], and writing the log file. *)
Definition stable_print (allowed : msg_type -> Prop) (I : world -> Prop) : Prop :=
  forall w ty text, allowed ty -> I w -> I (print (ty, text) w).

Definition stable_log (I : world -> Prop) : Prop :=
  forall w ls, I w -> I (set_log_file ls w).

(** ... and logging a line of one of these levels, as [log_message] does
    it: printing and writing go together. *)
Definition stable_logging (allowed : msg_type -> Prop) (I : world -> Prop) : Prop :=
  forall w ty text path, allowed ty -> log_file w <> None -> I w ->
    I (log_message text ty (Some path) w).2.

(** [good I w]: the folder of the log file exists and [I] holds. *)
Definition good (I : world -> Prop) (w : world) : Prop := log_file w <> None /\ I w.

(** The levels of the lines that each applier logs. *)
Definition deletion_level (ty : msg_type) : Prop := ty = DELETED \/ ty = ERROR.
Definition creation_level (ty : msg_type) : Prop := ty = CREATED \/ ty = ERROR.
Definition update_level (ty : msg_type) : Prop := ty = UPDATED \/ ty = ERROR.

(** Invariants that speak of the two trees only are stable under output. *)
Definition on_trees (P : option (gmap string node) -> option (gmap string node) -> Prop)
  (w : world) : Prop := P (source w) (replica w).

(** The files that both trees have at the start of a cycle are still in
    both trees when the Update Applier looks at them. *)
Definition common_present (d : diff) (s : gmap string node) : world -> Prop :=
  on_trees (fun so ro =>
    so = Some s /\ exists t, ro = Some t /\
    forall c, c ∈ common_files d -> is_Some (s !! c) /\ is_Some (t !! c)).

(** The lines printed since [w] all have a level in [allowed]. *)
Definition printed_only (allowed : msg_type -> Prop) (w w' : world) : Prop :=
  exists ls, printed w w' ls /\ Forall (fun l : line => allowed l.1) ls.

(** The log file holds what it held at [w], then the lines printed since. *)
Definition log_tracks (w w' : world) : Prop :=
  exists ls, printed w w' ls /\ log_file w' = log_after (log_file w) ls.

(** How many [UPDATED] lines name the file [f]. *)
Definition updated_lines_for (dp f : string) (ls : list line) : nat :=
  length (filter (fun l : line => l = (UPDATED, Path.join dp f)) ls).

(** ** Further vocabulary *)

(** Invariants that no output of the engine can break, whatever its level. *)
Definition output_stable (I : world -> Prop) : Prop :=
  stable_print (fun _ => True) I /\ stable_log I.

(** What the replica holds came from somewhere: it was there before, or
    it is a directory, or it is an entry of the source. *)
Definition accounted (s : option (gmap string node)) (t t' : gmap string node) : Prop :=
  forall p n, t' !! p = Some n ->
    t !! p = Some n \/ n = Dir \/ exists s0 g, s = Some s0 /\ s0 !! g = Some n.

(** The invariant of creation and update. *)
Definition only_added (w : world) (t : gmap string node) : world -> Prop :=
  on_trees (fun so ro =>
    so = source w /\ exists t', ro = Some t' /\
      (forall p, is_Some (t !! p) -> is_Some (t' !! p)) /\ accounted (source w) t t').

(** Two trees are in step when they hold the same paths with the same
    kinds, and their files have the same modification times (the contents
    may differ). *)
Definition in_step (s t : gmap string node) : Prop :=
  forall p, match s !! p, t !! p with
            | Some (File m _), Some (File m' _) => m = m'
            | Some Dir, Some Dir => True
            | None, None => True
            | _, _ => False
            end.

(** The levels of the lines that a cycle logs. *)
Definition cycle_level (ty : msg_type) : Prop :=
  ty = DELETED \/ ty = CREATED \/ ty = UPDATED \/ ty = ERROR.

(** What was printed since [w] has one of these levels and is in the log
    file, after what the file held at [w]. *)
Definition logged_since (w w' : world) : Prop :=
  exists ls, printed w w' ls /\ log_file w' = log_after (log_file w) ls /\
    Forall (fun l : line => cycle_level l.1) ls.

(** No item has the path of a folder in its name without lying in that
    folder: the substring test of the cascade loops then marks what the
    recursive removal or copy reached, and nothing else. *)
Definition collision_free (folders items : list string) : bool :=
  forallb (fun F => forallb (fun x => implb (Path.contains F x) (Path.within F x)) items)
    folders.

(** An operating system on which no call fails for an outside reason. *)
Definition fault_free (os : os_oracle) : Prop := forall c p, fails os c p = false.

(** No copy is cut short: no [copytree] and no [copy2] fails for a reason
    outside the trees.  A copy that the trees make fail (a missing source, a
    target that exists, a file in the way) fails before it writes; a copy
    that fails for another reason can leave a part of its work in the
    replica, which the model, where every failing call leaves the trees as
    they were, does not follow. *)
Definition copies_complete (os : os_oracle) : Prop :=
  forall p, fails os Copytree p = false /\ fails os Copy2 p = false.

(** The system refuses every removal and every copy whose target is the
    path [rp] joined with a relative path: nothing can be written below
    [rp]. *)
Definition writes_refused_under (os : os_oracle) (rp : string) : Prop :=
  forall c x, c <> Getmtime -> fails os c (Path.join rp x) = true.

(** The level of the lines that a cycle prints then. *)
Definition error_level (ty : msg_type) : Prop := ty = ERROR.

(** Nothing can be written below [replica], nor at an absolute path, which
    [os.path.join] puts in the place of [replica]; every other call goes
    through. *)
Definition replica_frozen : os_oracle :=
  Oracle (fun c p => match c with
                     | Getmtime => false
                     | _ => Path.startswith "replica/" p || Path.startswith "/" p
                     end) (fun _ => 0%Z) (fun _ => false).

(** The entry of the replica at a path after a cycle in which nothing
    failed, from the entries of the source and of the replica before it: a
    file that both trees hold with the same modification time is kept as it
    is, and every other entry is the source's. *)
Definition synced_entry (s t : option node) : option node :=
  match s, t with
  | Some (File ms _), Some (File mt _) => if bool_decide (mt = ms) then t else s
  | _, _ => s
  end.

Definition synced (s t : gmap string node) : gmap string node := merge synced_entry s t.

(** ** Start-up and the main loop *)

(** Modelling decisions for [check_folder], [check_folders_and_log],
    [create_log_file] and [main]:

    - The three folders of the command line are the three stores of the
      world; a call on a folder takes the folder's kind, at which the model
      looks into the world, next to the path string that the code passes.
      The kind is the [folder_type] that [main] and [create_log_file] pass
      to [check_folders_and_log] ('Log', 'Source', 'Replica').
    - [check_folder] asks whether the path exists and can be read and
      written, not whether it is a folder.  The world holds trees only, so
      a path that exists counts as a folder; that the path of the log
      folder can be that of a regular file shows where it matters, in
      [open], which the oracle can make fail.
    - What the user types at a prompt, whether [os.makedirs] fails, what
      [os.access] answers, whether the log file can be opened and the time
      stamp in the name of the log file are given by an oracle.  The prompt
      that [input] writes is not a log line and is left out of [stdout].
    - Text is ASCII: [strip] removes the ASCII white space that [str.strip]
      removes, and [lower] maps the letters A-Z.
    - [get_command_line_arguments] is [argparse]; its result is the
      argument [a] of [main].
    - The loop of [main] does not end by itself, so [main] takes the number
      of rounds to run; it returns [true] when the program returned and
      [false] when it is still running after these rounds.  Nothing else
      touches the folders while the program sleeps: a round starts in the
      world that the round before it left.
    - In [main] no [try] catches an error, so there [Raised] stands for any
      exception that ends the program; [KeyboardInterrupt], which can
      arrive at any point, is left out. *)

Module Text.

(** [c.isspace()] on ASCII: tab, line feed, vertical tab, form feed,
    carriage return, the four separators 28-31, and the space. *)
Definition is_space (c : ascii) : bool :=
  let n := nat_of_ascii c in
  ((9 <=? n) && (n <=? 13) || (28 <=? n) && (n <=? 31) || (n =? 32))%nat.

Fixpoint lstrip (s : string) : string :=
  match s with
  | EmptyString => EmptyString
  | String c rest => if is_space c then lstrip rest else s
  end.

Fixpoint rstrip (s : string) : string :=
  match s with
  | EmptyString => EmptyString
  | String c rest =>
      let rest' := rstrip rest in
      if is_space c && String.eqb rest' "" then EmptyString else String c rest'
  end.

(** [s.strip()] *)
Definition strip (s : string) : string := rstrip (lstrip s).

Definition lower_char (c : ascii) : ascii :=
  let n := nat_of_ascii c in
  if ((65 <=? n) && (n <=? 90))%nat then ascii_of_nat (n + 32) else c.

(** [s.lower()] *)
Fixpoint lower (s : string) : string :=
  match s with
  | EmptyString => EmptyString
  | String c rest => String (lower_char c) (lower rest)
  end.

End Text.

(** The [folder_type] of [check_folders_and_log]. *)
Inductive folder_type : Type := Log | Source | Replica.

Definition type_name (f : folder_type) : string :=
  match f with Log => "Log" | Source => "Source" | Replica => "Replica" end.

Definition location_of (f : folder_type) : location :=
  match f with Log => LogFolder | Source => SourceRoot | Replica => ReplicaRoot end.

(** The world after the folder was created, empty. *)
Definition create_folder (f : folder_type) (w : world) : world :=
  match f with
  | Log => World (source w) (replica w) (Some None) (stdout w)
  | Source => World (Some ∅) (replica w) (log_file w) (stdout w)
  | Replica => World (source w) (Some ∅) (log_file w) (stdout w)
  end.

(** What the start-up does not determine: the answer of the user to the
    prompt for a folder, whether creating a folder fails, whether a path
    can be read and written, whether the log file can be opened, and the
    time stamp in the name of the log file. *)
Record user_oracle : Type := User {
  response : string -> string;
  makedirs_fails : string -> bool;
  access : string -> bool;
  open_fails : string -> bool;
  timestamp : string
}.

(** The parsed command line. *)
Record args : Type := Args {
  source_folder : string;
  replica_folder : string;
  log_folder : string;
  sync_interval : Z
}.

Section Startup.

Variable os : os_oracle.
Variable user : user_oracle.

(** [input(prompt)], for the prompt that names [folder_path]. *)
Definition input (folder_path : string) : M world string :=
  fun w => (Done (response user folder_path), w).

(** [os.makedirs(folder_path)] of a folder of the command line. *)
Definition os_makedirs (f : folder_type) (folder_path : string) : M world unit :=
  fun w =>
    if makedirs_fails user folder_path then (Raised, w) else
    match os_path_exists (location_of f) w with
    | (Done false, _) => (Done tt, create_folder f w)
    | _ => (Raised, w)
    end.

(** [os.access(folder_path, os.R_OK | os.W_OK)] *)
Definition os_access (folder_path : string) : M world bool :=
  fun w => (Done (access user folder_path), w).

(** [open(log_file_path, 'w').close()]: the file is created, or emptied.
    [open] raises when the folder is missing, and when the system refuses
    to open the file, which the oracle says: the path that [check_folder]
    accepted exists and can be read and written, but it can be that of a
    regular file, under which no file can be opened. *)
Definition open_w (log_file_path : string) : M world unit :=
  fun w =>
    if open_fails user log_file_path then (Raised, w) else
    match log_file w with
    | None => (Raised, w)
    | Some _ => (Done tt, set_log_file [] w)
    end.

(** [time.sleep(secs)]: a negative length is a [ValueError], and a length
    too large for the clock of the system is an [OverflowError] or an
    [OSError]; which lengths are too large is up to the system. *)
Definition time_sleep (secs : Z) : M world unit :=
  fun w => if (secs <? 0)%Z || sleep_refused os secs then (Raised, w) else (Done tt, w).

(** [check_folder(folder_path)]: the pair [(error, folder_created)]. *)
Definition check_folder (f : folder_type) (folder_path : string)
  : M world (option string * bool) :=
  folder_exists ← os_path_exists (location_of f);
  if negb folder_exists then
    answer ← input folder_path;
    let response := Text.lower (Text.strip answer) in
    if String.eqb response "y" then
      try_except
        (os_makedirs f folder_path;; mret (None, true))
        (mret (Some ("Failed to create folder " ++ folder_path ++ ". Exiting...")%string,
               false))
    else
      mret (Some ("Folder " ++ folder_path
                    ++ " does not exist and user declined creation. Exiting...")%string,
            false)
  else
    allowed ← os_access folder_path;
    if negb allowed then
      mret (Some ("Folder " ++ folder_path
                    ++ " does not have read and writing permissions. Exiting...")%string,
            false)
    else mret (None, false).

(** [check_folders_and_log(folder_path, folder_type, log_file_path)] *)
Definition check_folders_and_log (f : folder_type) (folder_path : string)
    (log_file_path : option string) : M world bool :=
  '(error, folder_created) ← check_folder f folder_path;
  match error with
  | None =>
      (if folder_created : bool then
         log_message (type_name f ++ " folder was created: " ++ folder_path)%string
           CREATED log_file_path
       else mret tt);;
      log_message (type_name f ++ " folder exists and has necessary permissions: "
                     ++ folder_path)%string OKAY log_file_path;;
      mret true
  | Some error => log_message error ERROR log_file_path;; mret false
  end.

(** [create_log_file(log_folder_path)] *)
Definition create_log_file (log_folder_path : string) : M world (option string) :=
  ok ← check_folders_and_log Log log_folder_path None;
  if ok : bool then
    let log_filename := (timestamp user ++ "_sync_folders_log.txt")%string in
    let log_file_path := Path.join log_folder_path log_filename in
    open_w log_file_path;;
    log_message ("Log file was created: " ++ log_file_path)%string CREATED (Some log_file_path);;
    mret (Some log_file_path)
  else mret None.

(** One round of the loop of [main] (lines 318-323): [true] when the loop
    goes on. *)
Definition main_step (a : args) (log_file_path : string) : M world bool :=
  log_message "Started synchronization" INFO (Some log_file_path);;
  ok ← sync_folders os (source_folder a) (replica_folder a) log_file_path;
  if negb ok then
    log_message "Folders or log file were deleted. Exiting..." ERROR None;;
    mret false
  else
    log_message "Finished synchronization" INFO (Some log_file_path);;
    time_sleep (sync_interval a);;
    mret true.

(** [while(True)], for a number of rounds. *)
Fixpoint main_loop (rounds : nat) (a : args) (log_file_path : string) : M world bool :=
  match rounds with
  | 0 => mret false
  | S rounds' =>
      go_on ← main_step a log_file_path;
      if go_on : bool then main_loop rounds' a log_file_path else mret true
  end.

(** [main()] *)
Definition main (rounds : nat) (a : args) : M world bool :=
  log_file_path ← create_log_file (log_folder a);
  match log_file_path with
  | None => mret true
  | Some log_file_path =>
      ok ← check_folders_and_log Source (source_folder a) (Some log_file_path);
      if negb ok then mret true else
      ok ← check_folders_and_log Replica (replica_folder a) (Some log_file_path);
      if negb ok then mret true else
      log_message "All given folders exist and have necessary permissions." OKAY
        (Some log_file_path);;
      log_message ("Starting synchronization with intervals of "
                     ++ pretty.pretty (sync_interval a) ++ " seconds")%string INFO
        (Some log_file_path);;
      main_loop rounds a log_file_path
  end.

End Startup.

(** A folder passes the check of [check_folder]: it exists and can be read
    and written, or it does not exist, the user answers [y] and it can be
    created. *)
Definition says_yes (user : user_oracle) (folder_path : string) : bool :=
  String.eqb (Text.lower (Text.strip (response user folder_path))) "y".

Definition folder_exists (f : folder_type) (w : world) : bool :=
  match f with
  | Log => bool_decide (is_Some (log_file w))
  | Source => bool_decide (is_Some (source w))
  | Replica => bool_decide (is_Some (replica w))
  end.

Definition folder_passes (user : user_oracle) (f : folder_type) (folder_path : string)
    (w : world) : bool :=
  if folder_exists f w then access user folder_path
  else says_yes user folder_path && negb (makedirs_fails user folder_path).

(** A user who answers [ Y ] to every prompt, on a system where folders can
    be created and used. *)
Definition agreeing_user : user_oracle :=
  User (fun _ => " Y ") (fun _ => false) (fun _ => true) (fun _ => false)
       "2024-01-01_00-00-00".

(** A world in which none of the three folders exists. *)
Definition world_fresh : world := World None None None [].

(** The path given for the log folder is that of a regular file: it exists
    and can be read and written, and no file can be opened under it. *)
Definition path_taken : user_oracle :=
  User (fun _ => "") (fun _ => false) (fun _ => true) (fun _ => true)
       "2024-01-01_00-00-00".

Definition world_path_taken : world := World (tree []) (tree []) (Some None) [].

(** The lines that [check_folders_and_log] logs for a folder. *)
Definition check_lines (user : user_oracle) (f : folder_type) (folder_path : string)
    (w : world) : list line :=
  let okay := (OKAY, (type_name f ++ " folder exists and has necessary permissions: "
                        ++ folder_path)%string) in
  if folder_exists f w then
    if access user folder_path then [okay]
    else [(ERROR, ("Folder " ++ folder_path
                     ++ " does not have read and writing permissions. Exiting...")%string)]
  else if says_yes user folder_path then
    if makedirs_fails user folder_path then
      [(ERROR, ("Failed to create folder " ++ folder_path ++ ". Exiting...")%string)]
    else [(CREATED, (type_name f ++ " folder was created: " ++ folder_path)%string); okay]
  else [(ERROR, ("Folder " ++ folder_path
                   ++ " does not exist and user declined creation. Exiting...")%string)].

(** The world after the check of a folder: the folder was created when it
    was missing and passes. *)
Definition checked (user : user_oracle) (f : folder_type) (folder_path : string)
    (w : world) : world :=
  if negb (folder_exists f w) && folder_passes user f folder_path w
  then create_folder f w else w.

(** The world after the lines [ls] were logged with [log_message] and the
    given [file_path]. *)
Definition logged (file_path : option string) (ls : list line) (w : world) : world :=
  World (source w) (replica w)
    (match file_path with None => log_file w | Some _ => log_after (log_file w) ls end)
    (stdout w ++ ls).

(** The path of the log file that [create_log_file] makes. *)
Definition log_file_path_of (user : user_oracle) (log_folder_path : string) : string :=
  Path.join log_folder_path (timestamp user ++ "_sync_folders_log.txt")%string.

(** The first line of the log file. *)
Definition log_file_created (user : user_oracle) (log_folder_path : string) : line :=
  (CREATED, ("Log file was created: " ++ log_file_path_of user log_folder_path)%string).

(** Two entries of the same kind, and of the same modification time when
    they are files. *)
Definition same_stamp (n n' : node) : Prop :=
  match n, n' with
  | File m _, File m' _ => m = m'
  | Dir, Dir => True
  | _, _ => False
  end.

#[global] Instance same_stamp_dec n n' : Decision (same_stamp n n').
Proof. destruct n, n'; simpl; apply _. Defined.

(** Both trees have entries to delete, to create, to update and to keep. *)
Definition world_mixed : world :=
  World (tree [("a", Dir); ("a/f", File 3 "f"); ("b.txt", File 7 "new");
               ("keep", Dir); ("keep/k", File 1 "k")])
        (tree [("old", Dir); ("old/o", File 2 "o"); ("b.txt", File 6 "old");
               ("keep", Dir); ("keep/k", File 1 "other")])
        (Some (Some [])) [].

(** Two trees in step, with a file whose contents differ. *)
Definition world_in_step : world :=
  World (tree [("c.txt", File 7 "new"); ("d", Dir)])
        (tree [("c.txt", File 7 "other"); ("d", Dir)])
        (Some (Some [])) [].

(** The source folder was removed. *)
Definition world_no_source : world :=
  World None (tree [("c.txt", File 6 "old")]) (Some (Some [])) [].

Definition default_args : args := Args "./source_folder" "./replica_folder" "./log_folder" 10.

Definition hasty_args : args := Args "./source_folder" "./replica_folder" "./log_folder" (-1).

(** The log folder is given as [./notes.txt]. *)
Definition notes_args : args := Args "./source_folder" "./replica_folder" "./notes.txt" 10.

(** A string of white space only. *)
Definition blank (s : string) : Prop :=
  Forall (fun c => Text.is_space c = true) (list_ascii_of_string s).

(** ** Strings and paths *)

Example path_examples :
  Path.count_sep "a/b/c" = 2 /\ Path.contains "folder1" "folder10/x" = true /\
  Path.is_under "folder1" "folder10/x" = false /\ Path.join "./replica" "a/x" = "./replica/a/x" /\
  Path.join "rep/" "a" = "rep/a" /\ Path.basename "a/b/c" = "c" /\ Path.dirname "a/b/c" = "a/b" /\
  Path.dirname "a" = "" /\ Path.ancestors "a/b/c" = ["a"; "a/b"] /\ Path.contains "b/c" "a/b/c/d" = true
  /\ Path.contains "bd" "a/b/c/d" = false.
Proof. repeat split; reflexivity. Qed.

Lemma startswith_spec p s :
  Path.startswith p s = true <-> exists rest, s = (p ++ rest)%string.
Proof.
  revert s. induction p as [|a p IH]; intros s; simpl.
  - split; [by exists s | done].
  - destruct s as [|b s].
    + split; [done|]. by intros [rest ?].
    + rewrite andb_true_iff, Ascii.eqb_eq, IH. split.
      * intros [-> [rest ->]]. by exists rest.
      * intros [rest [= -> ->]]. split; [done|]. by exists rest.
Qed.

(** [Path.contains] is the substring test. *)
Lemma contains_spec sub s :
  Path.contains sub s = true <-> exists before after, s = (before ++ sub ++ after)%string.
Proof.
  split.
  - induction s as [|c s IH]; simpl; rewrite orb_true_iff.
    + intros [H|H]; [|done]. apply startswith_spec in H as [rest ->].
      by exists "", rest.
    + intros [H|H].
      * apply startswith_spec in H as [rest ->]. by exists "", rest.
      * destruct (IH H) as (before & after & ->). by exists (String c before), after.
  - intros (before & after & ->). induction before as [|c before IH].
    + assert (Path.startswith sub ("" ++ sub ++ after)%string = true) as H
        by (apply startswith_spec; by exists after).
      destruct ("" ++ sub ++ after)%string; simpl; by rewrite H.
    + change (String c before ++ sub ++ after)%string
        with (String c (before ++ sub ++ after))%string.
      cbn [Path.contains]. rewrite IH. apply orb_true_r.
Qed.

(** ** Sorting folders by depth *)

Lemma insert_by_depth_perm x l : insert_by_depth x l ≡ₚ x :: l.
Proof.
  induction l as [|y l IH]; simpl; [done|].
  destruct (Path.count_sep x <=? Path.count_sep y)%nat; [done|].
  rewrite IH. apply Permutation_swap.
Qed.

Lemma sorted_by_depth_perm xs : sorted_by_depth xs ≡ₚ xs.
Proof.
  induction xs as [|x xs IH]; simpl; [done|].
  unfold sorted_by_depth in *. simpl. by rewrite insert_by_depth_perm, IH.
Qed.

Lemma sorted_by_depth_elem x xs : x ∈ sorted_by_depth xs <-> x ∈ xs.
Proof. by rewrite sorted_by_depth_perm. Qed.

Lemma insert_by_depth_sorted x l :
  Sorted shallower l -> Sorted shallower (insert_by_depth x l).
Proof.
  induction l as [|y l IH]; intros Hl; simpl.
  - repeat constructor.
  - destruct (Path.count_sep x <=? Path.count_sep y)%nat eqn:Hxy.
    + constructor; [done|]. constructor. by apply Nat.leb_le.
    + apply Sorted_inv in Hl as [Hl Hy]. constructor; [by apply IH|].
      apply Nat.leb_gt in Hxy.
      destruct l as [|z l]; simpl.
      * constructor. unfold shallower. lia.
      * destruct (Path.count_sep x <=? Path.count_sep z)%nat.
        -- constructor. unfold shallower. lia.
        -- constructor. by apply HdRel_inv in Hy.
Qed.

Lemma sorted_by_depth_sorted xs : Sorted shallower (sorted_by_depth xs).
Proof.
  induction xs as [|x xs IH]; [constructor|].
  by apply insert_by_depth_sorted.
Qed.

Section Wp.

Context {S : Type}.

Lemma wp_ret {A} (a : A) (Q : A -> S -> Prop) E s : Q a s -> wp (mret a) Q E s.
Proof. done. Qed.

Lemma wp_bind {A B} (m : M S A) (k : A -> M S B) Q E s :
  wp m (fun a s' => wp (k a) Q E s') E s -> wp (m ≫= k) Q E s.
Proof.
  unfold wp, mbind, M_bind, bind. destruct (m s) as [[a|] s']; done.
Qed.

Lemma wp_try {A} (body handler : M S A) Q E s :
  wp body Q (fun s' => wp handler Q E s') s -> wp (try_except body handler) Q E s.
Proof.
  unfold wp, try_except. destruct (body s) as [[a|] s']; done.
Qed.

Lemma wp_mono {A} (m : M S A) (Q Q' : A -> S -> Prop) (E E' : S -> Prop) s :
  wp m Q E s -> (forall a s', Q a s' -> Q' a s') -> (forall s', E s' -> E' s') -> wp m Q' E' s.
Proof.
  unfold wp. destruct (m s) as [[a|] s']; auto.
Qed.

(** A loop keeps an invariant that every round keeps. *)
Lemma wp_for_each {X} (I : S -> Prop) (E : S -> Prop) (xs : list X) (body : X -> M S unit) s :
  I s ->
  (forall x s', x ∈ xs -> I s' -> wp (body x) (fun _ => I) E s') ->
  wp (for_each xs body) (fun _ => I) E s.
Proof.
  revert s. induction xs as [|x xs IH]; intros s Hs Hbody; simpl.
  - by apply wp_ret.
  - apply wp_bind. eapply wp_mono.
    + apply Hbody; [left | done].
    + intros u s' Hs'. apply IH; [done|]. intros y s'' Hy. apply Hbody. by right.
    + done.
Qed.

(** The same with an invariant that knows which rounds are over. *)
Lemma wp_for_each_seen {X} (I : list X -> S -> Prop) (E : S -> Prop)
    (xs : list X) (body : X -> M S unit) s :
  I [] s ->
  (forall seen x rest s', xs = (seen ++ x :: rest) -> I seen s' ->
     wp (body x) (fun _ => I (seen ++ [x])) E s') ->
  wp (for_each xs body) (fun _ => I xs) E s.
Proof.
  intros H0 Hbody.
  cut (forall seen rest s', xs = (seen ++ rest) -> I seen s' ->
         wp (for_each rest body) (fun _ => I xs) E s').
  { intros Hcut. by apply (Hcut [] xs). }
  intros seen rest. revert seen.
  induction rest as [|x rest IH]; intros seen s' Hxs Hseen; simpl.
  - apply wp_ret. rewrite app_nil_r in Hxs. by subst.
  - apply wp_bind. eapply wp_mono.
    + by eapply Hbody.
    + intros u s'' Hs''. apply (IH (seen ++ [x])); [|done].
      by rewrite <- app_assoc.
    + done.
Qed.

End Wp.

Lemma bind_Done {S A B} (m : M S A) (k : A -> M S B) s a s' :
  m s = (Done a, s') -> (m ≫= k) s = k a s'.
Proof. intros H. unfold mbind, M_bind, bind. by rewrite H. Qed.

Lemma bind_Raised {S A B} (m : M S A) (k : A -> M S B) s s' :
  m s = (Raised, s') -> (m ≫= k) s = (Raised, s').
Proof. intros H. unfold mbind, M_bind, bind. by rewrite H. Qed.

Lemma lift_eq {L A} (m : M world A) (l : L) w r w' :
  m w = (r, w') -> lift m (l, w) = (r, (l, w')).
Proof. intros H. unfold lift. simpl. by rewrite H. Qed.

Lemma wp_lift {L A} (m : M world A) (Q : A -> L * world -> Prop) E (l : L) w :
  wp m (fun a w' => Q a (l, w')) (fun w' => E (l, w')) w -> wp (lift m) Q E (l, w).
Proof.
  unfold wp, lift; simpl. destruct (m w) as [[a|] w']; done.
Qed.

Lemma wp_with_local {L A} (init : L) (m : M (L * world) A) (Q : A -> world -> Prop) E w :
  wp m (fun a s => Q a s.2) (fun s => E s.2) (init, w) -> wp (with_local init m) Q E w.
Proof.
  unfold wp, with_local. destruct (m (init, w)) as [[a|] [l w']]; done.
Qed.

Lemma wp_get_local {L} (Q : L -> L * world -> Prop) E s :
  Q s.1 s -> wp get_local Q E s.
Proof. done. Qed.

Lemma wp_modify_local {L} (f : L -> L) (Q : unit -> L * world -> Prop) E s :
  Q tt (f s.1, s.2) -> wp (modify_local f) Q E s.
Proof. done. Qed.

(** ** What the operating system calls do to the world *)

Section Primitives.

Variable os : os_oracle.

Lemma stable_logging_intro allowed I :
  stable_print allowed I -> stable_log I -> stable_logging allowed I.
Proof.
  intros Hp Hl w ty text path Hty Hlog Hw. unfold log_message.
  pose proof (Hp w ty text Hty Hw) as Hw'.
  simpl. destruct (log_file w) as [[ls|]|]; [| |done]; by apply Hl.
Qed.

Lemma rmtree_cases path rel w :
  rmtree os path rel w = (Raised, w) \/
  exists t, replica w = Some t /\ t !! rel = Some Dir /\
    rmtree os path rel w =
      (Done tt, set_replica (filter (fun kv => Path.within rel kv.1 = false) t) w).
Proof.
  unfold rmtree. destruct (fails os Rmtree path); [by left|].
  destruct (replica w) as [t|]; [|by left].
  destruct (t !! rel) as [[m d|]|] eqn:Ht; [by left| |by left].
  right. by exists t.
Qed.

Lemma os_remove_cases path rel w :
  os_remove os path rel w = (Raised, w) \/
  exists t m d, replica w = Some t /\ t !! rel = Some (File m d) /\
    os_remove os path rel w = (Done tt, set_replica (delete rel t) w).
Proof.
  unfold os_remove. destruct (fails os Remove path); [by left|].
  destruct (replica w) as [t|]; [|by left].
  destruct (t !! rel) as [[m d|]|] eqn:Ht; [|by left|by left].
  right. by exists t, m, d.
Qed.

(** A successful [copy2] writes one file of the source tree at one path. *)
Lemma copy2_cases src dst rel w :
  copy2 os src dst rel w = (Raised, w) \/
  exists s d m c target, source w = Some s /\ replica w = Some d /\
    s !! rel = Some (File m c) /\ fails os Copy2 dst = false /\
    (target = rel /\ d !! rel <> Some Dir \/
     target = Path.join rel (Path.basename rel) /\ d !! rel = Some Dir) /\
    d !! target <> Some Dir /\
    copy2 os src dst rel w = (Done tt, set_replica (<[target := File m c]> d) w).
Proof.
  unfold copy2. destruct (fails os Copy2 dst); [by left|].
  destruct (source w) as [s|]; [|by left].
  destruct (replica w) as [d|]; [|by left].
  destruct (s !! rel) as [[m c|]|] eqn:Hs; [|by left|by left].
  destruct (d !! rel) as [[m' c'|]|] eqn:Hd.
  - right. exists s, d, m, c, rel. rewrite Hd.
    split_and!; try done. by left.
  - destruct (d !! Path.join rel (Path.basename rel)) as [[m' c'|]|] eqn:Hi.
    + right. exists s, d, m, c, (Path.join rel (Path.basename rel)).
      rewrite Hi. split_and!; try done. by right.
    + by left.
    + right. exists s, d, m, c, (Path.join rel (Path.basename rel)).
      rewrite Hi. split_and!; try done. by right.
  - destruct (parent_is_dir d rel); [|by left].
    right. exists s, d, m, c, rel. rewrite Hd.
    split_and!; try done. by left.
Qed.

Lemma copytree_cases src dst rel w :
  copytree os src dst rel w = (Raised, w) \/
  exists s d d', source w = Some s /\ replica w = Some d /\
    s !! rel = Some Dir /\ d !! rel = None /\
    makedirs d (Path.ancestors rel) = Some d' /\
    copytree os src dst rel w =
      (Done tt, set_replica (filter (fun kv => Path.within rel kv.1 = true) s ∪ d') w).
Proof.
  unfold copytree. destruct (fails os Copytree dst); [by left|].
  destruct (source w) as [s|]; [|by left].
  destruct (replica w) as [d|]; [|by left].
  destruct (s !! rel) as [[m c|]|] eqn:Hs; [by left| |by left].
  case_bool_decide as Hex; [by left|].
  destruct (makedirs d (Path.ancestors rel)) as [d'|] eqn:Hmk; [|by left].
  right. exists s, d, d'. repeat split; auto.
  destruct (d !! rel) eqn:Hd; [|done]. exfalso. apply Hex. by eexists.
Qed.

Lemma rmtree_wp path rel (Q : unit -> world -> Prop) (E : world -> Prop) w :
  E w ->
  (forall t, replica w = Some t -> t !! rel = Some Dir ->
     Q tt (set_replica (filter (fun kv => Path.within rel kv.1 = false) t) w)) ->
  wp (rmtree os path rel) Q E w.
Proof.
  intros HE HQ. unfold wp.
  destruct (rmtree_cases path rel w) as [->|(t & Hr & Ht & ->)]; auto.
Qed.

Lemma os_remove_wp path rel (Q : unit -> world -> Prop) (E : world -> Prop) w :
  E w ->
  (forall t m d, replica w = Some t -> t !! rel = Some (File m d) ->
     Q tt (set_replica (delete rel t) w)) ->
  wp (os_remove os path rel) Q E w.
Proof.
  intros HE HQ. unfold wp.
  destruct (os_remove_cases path rel w) as [->|(t & m & d & Hr & Ht & ->)]; eauto.
Qed.

Lemma copy2_wp src dst rel (Q : unit -> world -> Prop) (E : world -> Prop) w :
  E w ->
  (forall s d m c target, source w = Some s -> replica w = Some d ->
     s !! rel = Some (File m c) -> fails os Copy2 dst = false ->
     (target = rel /\ d !! rel <> Some Dir \/
      target = Path.join rel (Path.basename rel) /\ d !! rel = Some Dir) ->
     d !! target <> Some Dir ->
     Q tt (set_replica (<[target := File m c]> d) w)) ->
  wp (copy2 os src dst rel) Q E w.
Proof.
  intros HE HQ. unfold wp.
  destruct (copy2_cases src dst rel w)
    as [->|(s & d & m & c & target & Hs & Hd & Hrel & Hf & Ht & Hn & ->)]; eauto.
Qed.

Lemma copytree_wp src dst rel (Q : unit -> world -> Prop) (E : world -> Prop) w :
  E w ->
  (forall s d d', source w = Some s -> replica w = Some d ->
     s !! rel = Some Dir -> d !! rel = None ->
     makedirs d (Path.ancestors rel) = Some d' ->
     Q tt (set_replica (filter (fun kv => Path.within rel kv.1 = true) s ∪ d') w)) ->
  wp (copytree os src dst rel) Q E w.
Proof.
  intros HE HQ. unfold wp.
  destruct (copytree_cases src dst rel w)
    as [->|(s & d & d' & Hs & Hd & Hrel & Hn & Hmk & ->)]; eauto.
Qed.

(** *** The appliers keep what their steps keep, and return *)

Lemma log_message_good (allowed : msg_type -> Prop) (I : world -> Prop) text ty path w :
  stable_logging allowed I -> allowed ty -> good I w ->
  wp (log_message text ty (Some path)) (fun _ => good I) (fun _ => False) w.
Proof.
  intros Hst Hty [Hlog Hw]. unfold wp, good.
  specialize (Hst w ty text path Hty Hlog Hw).
  unfold log_message in *. simpl in *.
  destruct (log_file w) as [[ls|]|]; [| |done]; by split.
Qed.

Lemma cascade_good (allowed : msg_type -> Prop) (I : world -> Prop)
    ty folder items path lp (s : list string * world) :
  stable_logging allowed I -> allowed ty -> good I s.2 ->
  wp (cascade ty folder items path lp) (fun _ s' => good I s'.2) (fun _ => False) s.
Proof.
  intros Hp Hty Hs. unfold cascade.
  apply (wp_for_each (fun s' => good I s'.2)); [done|].
  intros item [l w] _ Hw. destruct (Path.contains folder item); [|by apply wp_ret].
  apply wp_bind, wp_modify_local, wp_lift; simpl.
  eapply wp_mono; [by eapply log_message_good| |]; done.
Qed.

Lemma delete_files_good (I : world -> Prop) folders files path lp w :
  stable_logging deletion_level I ->
  (forall w t F, F ∈ folders -> replica w = Some t -> t !! F = Some Dir -> I w ->
     I (set_replica (filter (fun kv => Path.within F kv.1 = false) t) w)) ->
  (forall w t g m d, g ∈ files -> replica w = Some t -> t !! g = Some (File m d) -> I w ->
     I (set_replica (delete g t) w)) ->
  good I w ->
  wp (delete_files os folders files path lp) (fun _ => good I) (fun _ => False) w.
Proof.
  intros Hp Hrm Hdel Hw. unfold delete_files.
  apply wp_with_local, wp_bind.
  eapply wp_mono; [apply (wp_for_each (fun s => good I s.2) (fun _ => False)); [done|]| |done].
  - intros F [l w1] HF Hw1. apply wp_bind, wp_get_local; simpl.
    case_bool_decide; [by apply wp_ret|].
    apply wp_try, wp_bind, wp_lift, rmtree_wp.
    + apply wp_lift. eapply wp_mono; [eapply log_message_good; eauto; by right| |]; done.
    + intros t Ht HtF.
      eapply wp_mono; [eapply (cascade_good deletion_level I); eauto| |].
      * by left.
      * destruct Hw1 as [Hlog HI]. split; [done|]. simpl in *.
        apply Hrm; try done. by apply sorted_by_depth_elem.
      * done.
      * done.
  - intros u s Hs. simpl.
    apply (wp_for_each (fun s => good I s.2) (fun _ => False)); [done|].
    intros g [l w1] Hg Hw1. apply wp_bind, wp_get_local; simpl.
    case_bool_decide; [by apply wp_ret|].
    apply wp_try, wp_bind, wp_lift, os_remove_wp.
    + apply wp_lift. eapply wp_mono; [eapply log_message_good; eauto; by right| |]; done.
    + intros t m d Ht Htg. apply wp_lift.
      eapply wp_mono; [eapply (log_message_good deletion_level I); eauto| |].
      * by left.
      * destruct Hw1 as [Hlog HI]. split; [done|]. simpl in *. by eapply Hdel.
      * done.
      * done.
Qed.

Lemma create_files_good (I : world -> Prop) folders files sp dp lp w :
  stable_logging creation_level I ->
  (forall w s d d' F, F ∈ folders -> source w = Some s -> replica w = Some d ->
     s !! F = Some Dir -> d !! F = None -> makedirs d (Path.ancestors F) = Some d' -> I w ->
     I (set_replica (filter (fun kv => Path.within F kv.1 = true) s ∪ d') w)) ->
  (forall w s d m c target g, g ∈ files -> source w = Some s -> replica w = Some d ->
     s !! g = Some (File m c) -> fails os Copy2 (Path.join dp g) = false ->
     (target = g /\ d !! g <> Some Dir \/
      target = Path.join g (Path.basename g) /\ d !! g = Some Dir) ->
     d !! target <> Some Dir -> I w ->
     I (set_replica (<[target := File m c]> d) w)) ->
  good I w ->
  wp (create_files os folders files sp dp lp) (fun _ => good I) (fun _ => False) w.
Proof.
  intros Hp Htree Hcopy Hw. unfold create_files.
  apply wp_with_local, wp_bind.
  eapply wp_mono; [apply (wp_for_each (fun s => good I s.2) (fun _ => False)); [done|]| |done].
  - intros F [l w1] HF Hw1. apply wp_bind, wp_get_local; simpl.
    case_bool_decide; [by apply wp_ret|].
    apply wp_try, wp_bind, wp_lift, copytree_wp.
    + apply wp_lift. eapply wp_mono; [eapply log_message_good; eauto; by right| |]; done.
    + intros s d d' Hs Hd HsF HdF Hmk.
      eapply wp_mono; [eapply (cascade_good creation_level I); eauto| |].
      * by left.
      * destruct Hw1 as [Hlog HI]. split; [done|]. simpl in *.
        eapply Htree; try done. by apply sorted_by_depth_elem.
      * done.
      * done.
  - intros u st Hst. simpl.
    apply (wp_for_each (fun s => good I s.2) (fun _ => False)); [done|].
    intros g [l w1] Hg Hw1. apply wp_bind, wp_get_local; simpl.
    case_bool_decide; [by apply wp_ret|].
    apply wp_try, wp_bind, wp_lift, copy2_wp.
    + apply wp_lift. eapply wp_mono; [eapply log_message_good; eauto; by right| |]; done.
    + intros s d m c target Hs' Hd Hsg Hf Ht Hn. apply wp_lift.
      eapply wp_mono; [eapply (log_message_good creation_level I); eauto| |].
      * by left.
      * destruct Hw1 as [Hlog HI]. split; [done|]. simpl in *. by eapply Hcopy.
      * done.
      * done.
Qed.

Lemma getmtime_cases r path rel w :
  getmtime os r path rel w = (Raised, w) \/
  exists t n, store r w = Some t /\ t !! rel = Some n /\
    getmtime os r path rel w =
      (Done match n with File m _ => m | Dir => dir_mtime os path end, w).
Proof.
  unfold getmtime. destruct (fails os Getmtime path); [by left|].
  destruct (store r w) as [t|]; [|by left].
  destruct (t !! rel) as [n|] eqn:Ht; [|by left].
  right. exists t, n. by destruct n.
Qed.

Lemma getmtime_returns r path rel w t :
  fails os Getmtime path = false -> store r w = Some t -> is_Some (t !! rel) ->
  exists v, getmtime os r path rel w = (Done v, w).
Proof.
  intros Hf Hs [n Hn]. unfold getmtime. rewrite Hf, Hs, Hn. destruct n; eauto.
Qed.

Lemma update_files_good (I : world -> Prop) files sp dp lp w :
  stable_logging update_level I ->
  (forall w s d m c target g, g ∈ files -> source w = Some s -> replica w = Some d ->
     s !! g = Some (File m c) -> fails os Copy2 (Path.join dp g) = false ->
     (target = g /\ d !! g <> Some Dir \/
      target = Path.join g (Path.basename g) /\ d !! g = Some Dir) ->
     d !! target <> Some Dir -> I w ->
     I (set_replica (<[target := File m c]> d) w)) ->
  (forall w g, g ∈ files -> I w ->
     exists s d, source w = Some s /\ replica w = Some d /\
       is_Some (s !! g) /\ is_Some (d !! g)) ->
  (forall g, g ∈ files ->
     fails os Getmtime (Path.join sp g) = false /\ fails os Getmtime (Path.join dp g) = false) ->
  good I w ->
  wp (update_files os files sp dp lp) (fun _ => good I) (fun _ => False) w.
Proof.
  intros Hp Hcopy Hex Hstat Hw. unfold update_files.
  apply (wp_for_each (good I) (fun _ => False)); [done|].
  intros g w1 Hg Hw1.
  destruct (Hex w1 g Hg (proj2 Hw1)) as (s & d & Hs & Hd & Hsg & Hdg).
  destruct (Hstat g Hg) as [Hf1 Hf2].
  destruct (getmtime_returns Src (Path.join sp g) g w1 s Hf1 Hs Hsg) as [v1 Hv1].
  destruct (getmtime_returns Rep (Path.join dp g) g w1 d Hf2 Hd Hdg) as [v2 Hv2].
  apply wp_bind. unfold wp at 1. rewrite Hv1.
  apply wp_bind. unfold wp at 1. rewrite Hv2.
  case_bool_decide; [|by apply wp_ret].
  apply wp_try, wp_bind, copy2_wp.
  - eapply wp_mono; [eapply log_message_good; eauto; by right| |]; done.
  - intros s' d' m c target Hs' Hd' Hsg' Hf Ht Hn.
    eapply wp_mono; [eapply (log_message_good update_level I); eauto| |].
    + by left.
    + destruct Hw1 as [Hlog HI]. split; [done|]. by eapply Hcopy.
    + done.
    + done.
Qed.

(** Whether it returns or raises, [update_files] keeps what its steps keep. *)
Lemma update_files_keeps (I : world -> Prop) files sp dp lp w :
  stable_logging update_level I ->
  (forall w s d m c target g, g ∈ files -> source w = Some s -> replica w = Some d ->
     s !! g = Some (File m c) -> d !! target <> Some Dir -> I w ->
     I (set_replica (<[target := File m c]> d) w)) ->
  good I w ->
  wp (update_files os files sp dp lp) (fun _ => good I) (good I) w.
Proof.
  intros Hp Hcopy Hw. unfold update_files.
  apply (wp_for_each (good I) (good I)); [done|].
  intros g w1 Hg Hw1.
  apply wp_bind. unfold wp at 1.
  destruct (getmtime_cases Src (Path.join sp g) g w1) as [->|(t1 & n1 & _ & _ & ->)]; [done|].
  apply wp_bind. unfold wp at 1.
  destruct (getmtime_cases Rep (Path.join dp g) g w1) as [->|(t2 & n2 & _ & _ & ->)]; [done|].
  case_bool_decide; [|by apply wp_ret].
  apply wp_try, wp_bind, copy2_wp.
  - eapply wp_mono; [eapply log_message_good; eauto; by right| |]; done.
  - intros s' d' m c target Hs' Hd' Hsg' Hf Ht Hn.
    eapply wp_mono; [eapply (log_message_good update_level I); eauto| |].
    + by left.
    + destruct Hw1 as [Hlog HI]. split; [done|]. by eapply Hcopy.
    + done.
    + done.
Qed.

Lemma delete_files_unfold all_folders all_files path lp :
  delete_files os all_folders all_files path lp =
  with_local [] (for_each (sorted_by_depth all_folders)
                   (delete_folder_step os all_folders all_files path lp);;
                 for_each all_files (delete_file_step os path lp)).
Proof. reflexivity. Qed.

Lemma create_files_unfold all_folders all_files sp dp lp :
  create_files os all_folders all_files sp dp lp =
  with_local [] (for_each (sorted_by_depth all_folders)
                   (create_folder_step os all_folders all_files sp dp lp);;
                 for_each all_files (create_file_step os sp dp lp)).
Proof. reflexivity. Qed.

End Primitives.

(** ** Snapshots and the diff *)

Lemma elem_of_files_of (t : gmap string node) p :
  p ∈ files_of t <-> exists m d, t !! p = Some (File m d).
Proof.
  unfold files_of. rewrite list_elem_of_fmap. split.
  - intros ([q n] & -> & Hin). apply list_elem_of_filter in Hin as [Hf Hin].
    apply elem_of_map_to_list in Hin. destruct n as [m d|]; [|done]. by exists m, d.
  - intros (m & d & Hp). exists (p, File m d). split; [done|].
    apply list_elem_of_filter. split; [done|]. by apply elem_of_map_to_list.
Qed.

Lemma elem_of_folders_of (t : gmap string node) p :
  p ∈ folders_of t <-> t !! p = Some Dir.
Proof.
  unfold folders_of. rewrite list_elem_of_fmap. split.
  - intros ([q n] & -> & Hin). apply list_elem_of_filter in Hin as [Hf Hin].
    apply elem_of_map_to_list in Hin. by destruct n as [m d|].
  - intros Hp. exists (p, Dir). split; [done|].
    apply list_elem_of_filter. split; [done|]. by apply elem_of_map_to_list.
Qed.

Lemma NoDup_fst_filter (P : string * node -> Prop) `{!forall e, Decision (P e)}
    (t : gmap string node) :
  NoDup (filter P (map_to_list t)).*1.
Proof.
  pose proof (NoDup_fst_map_to_list t) as Hnd.
  induction (map_to_list t) as [|e l IH]; simpl; [constructor|].
  inversion Hnd as [|? ? Hnotin Hnd']; subst.
  rewrite filter_cons. destruct (decide (P e)); [|by apply IH].
  simpl. constructor; [|by apply IH].
  intros Hin. apply Hnotin. apply list_elem_of_fmap in Hin as (e' & Heq & Hin).
  apply list_elem_of_filter in Hin as [_ Hin].
  apply list_elem_of_fmap. by exists e'.
Qed.

Lemma NoDup_files_of t : NoDup (files_of t).
Proof. apply NoDup_fst_filter. Qed.

Lemma NoDup_folders_of t : NoDup (folders_of t).
Proof. apply NoDup_fst_filter. Qed.

Lemma get_all_files_and_folders_eq r w :
  get_all_files_and_folders r w = (Done (snapshot (store r w)), w).
Proof.
  unfold get_all_files_and_folders, walk, snapshot, files_of, folders_of,
    mbind, M_bind, bind, mret, M_ret, ret.
  by destruct (store r w).
Qed.

Lemma filter_kind_fst (b : bool) (l : list (string * node)) :
  (filter (fun e => is_file e = b) l).*1 =
  (filter (fun e : string * bool => e.2 = b) (prod_map id kind <$> l)).*1.
Proof.
  induction l as [|[p n] l IH]; [done|].
  rewrite fmap_cons, !filter_cons. simpl.
  unfold is_file at 1. simpl. fold (kind n).
  destruct (decide (kind n = b)); [|apply IH].
  rewrite !fmap_cons. simpl. f_equal. apply IH.
Qed.

Lemma snapshot_shape o o' : shape o = shape o' -> snapshot o = snapshot o'.
Proof.
  destruct o as [t|], o' as [t'|]; simpl; try done.
  intros [= Heq]. unfold files_of, folders_of.
  rewrite !filter_kind_fst, <- !map_to_list_fmap. by rewrite Heq.
Qed.

(** C4. The Diff Computer is a pure function of the two snapshots: its five
    sets are the set differences and the intersection the specification
    names; taking a snapshot leaves the world as it is; and the diff of a
    cycle is the same for any two worlds whose trees have the same shape,
    whatever the modification times and contents of their files. *)
Theorem diff_computer_set_algebra :
  (forall sf sd rf rd x,
     let d := compute_diff sf sd rf rd in
     (x ∈ deleted_folders d <-> x ∈ rd /\ x ∉ sd) /\
     (x ∈ deleted_files d <-> x ∈ rf /\ x ∉ sf) /\
     (x ∈ created_folders d <-> x ∈ sd /\ x ∉ rd) /\
     (x ∈ created_files d <-> x ∈ sf /\ x ∉ rf) /\
     (x ∈ common_files d <-> x ∈ sf /\ x ∈ rf)) /\
  (forall r w, get_all_files_and_folders r w = (Done (snapshot (store r w)), w)) /\
  (forall w w',
     shape (source w) = shape (source w') -> shape (replica w) = shape (replica w') ->
     cycle_diff w = cycle_diff w').
Proof.
  split_and!.
  - intros sf sd rf rd x d. unfold d, compute_diff, set_difference, set_intersection; simpl.
    rewrite !list_elem_of_difference, list_elem_of_intersection. done.
  - apply get_all_files_and_folders_eq.
  - intros w w' Hs Hr. unfold cycle_diff.
    by rewrite (snapshot_shape _ _ Hs), (snapshot_shape _ _ Hr).
Qed.

(** ** Paths *)

Lemma is_under_ancestors d p : Path.is_under d p = true <-> d ∈ Path.ancestors p.
Proof.
  unfold Path.is_under. revert d. induction p as [|c p IH]; intros d.
  - destruct d; simpl; split; try done; intros H; inversion H.
  - cbn [Path.ancestors]. rewrite elem_of_app, list_elem_of_fmap. destruct d as [|a d].
    + change (Path.startswith ("" ++ "/")%string (String c p))
        with (Ascii.eqb "/" c && true).
      unfold Path.sep. destruct (Ascii.eqb_spec c "/"%char) as [->|Hne].
      * split; [|done]. intros _. left. by left.
      * assert (Ascii.eqb "/" c = false) as -> by (apply Ascii.eqb_neq; congruence).
        split; [done|]. intros [H|(y & Hy & _)]; [inversion H | done].
    + change (Path.startswith (String a d ++ "/")%string (String c p))
        with (Ascii.eqb a c && Path.startswith (d ++ "/")%string p).
      split.
      * intros H. apply andb_true_iff in H as [Hac H].
        apply Ascii.eqb_eq in Hac as ->. right. exists d. split; [done|]. by apply IH.
      * intros [H|(y & Hy & Hin)].
        { destruct (Ascii.eqb c Path.sep); [|inversion H].
          apply list_elem_of_singleton in H. done. }
        injection Hy as -> ->. rewrite Ascii.eqb_refl. simpl. by apply IH.
Qed.

Lemma well_formed_ancestor (t : gmap string node) p n d :
  well_formed t -> t !! p = Some n -> Path.is_under d p = true -> t !! d = Some Dir.
Proof.
  intros Hwf Hp Hd. apply is_under_ancestors in Hd.
  specialize (Hwf p n Hp). simpl in Hwf.
  rewrite Forall_forall in Hwf. by apply Hwf.
Qed.

Lemma makedirs_is_Some (t t' : gmap string node) dirs c :
  makedirs t dirs = Some t' -> is_Some (t !! c) -> is_Some (t' !! c).
Proof.
  revert t. induction dirs as [|a dirs IH]; intros t Hmk Hc; simpl in Hmk.
  - by injection Hmk as <-.
  - destruct (t !! a) as [[m dat|]|] eqn:Ha; [done|by apply (IH t)|].
    apply (IH _ Hmk). apply lookup_insert_is_Some'. by right.
Qed.

(** Distinct relative paths are joined to distinct paths. *)
Lemma join_inj a b c :
  Path.startswith "/" b = false -> Path.startswith "/" c = false ->
  Path.join a b = Path.join a c -> b = c.
Proof.
  unfold Path.join. intros -> ->.
  destruct (String.eqb a "" || Path.ends_with_sep a); intros H.
  - by apply (inj (String.append a)) in H.
  - apply (inj (String.append a)) in H. by injection H.
Qed.

(** ** The cycle *)

Section Cycle.

Variable os : os_oracle.
Variables source_path replica_path log_file_path : string.

Local Abbreviation run_deletion := (deletion os replica_path log_file_path).
Local Abbreviation run_creation := (creation os source_path replica_path log_file_path).
Local Abbreviation run_update := (update os source_path replica_path log_file_path).

Let sync := sync_folders os source_path replica_path log_file_path.

Lemma monitored_paths_exist_dec w : Decision (monitored_paths_exist w).
Proof.
  unfold monitored_paths_exist.
  destruct (log_file w) as [[ls|]|], (source w) as [s|], (replica w) as [t|];
    try (right; intros (H1 & [ls' H2] & H3 & H4);
         (discriminate || by inversion H1 || by inversion H3 || by inversion H4)).
  left. split_and!; eauto.
Defined.

Lemma sync_folders_teardown w :
  ~ monitored_paths_exist w -> sync w = (Done false, w).
Proof.
  intros Hno. unfold sync, sync_folders, os_path_exists, mbind, M_bind, bind; simpl.
  destruct (log_file w) as [[ls|]|] eqn:Hl; simpl; try by rewrite ?andb_false_r.
  destruct (source w) as [s|] eqn:Hs; simpl; try by rewrite ?andb_false_r.
  destruct (replica w) as [t|] eqn:Ht; simpl; try by rewrite ?andb_false_r.
  exfalso. apply Hno. unfold monitored_paths_exist. rewrite Hl, Hs, Ht. split_and!; eauto.
Qed.

Lemma sync_folders_run w :
  monitored_paths_exist w ->
  sync w = (run_deletion (cycle_diff w);; run_creation (cycle_diff w);;
            run_update (cycle_diff w);; mret true) w.
Proof.
  intros (Hl1 & [ls Hl] & [s Hs] & [t Ht]).
  unfold sync, sync_folders, os_path_exists.
  unfold mbind at 1 2 3 4, M_bind at 1 2 3 4, bind at 1 2 3 4.
  rewrite Hl, Hs, Ht. simpl.
  unfold mbind at 1, M_bind at 1, bind at 1. rewrite get_all_files_and_folders_eq.
  unfold store. rewrite Hs. cbn [snapshot].
  unfold mbind at 1, M_bind at 1, bind at 1. rewrite get_all_files_and_folders_eq.
  unfold store. rewrite Ht. cbn [snapshot].
  unfold cycle_diff, deletion, creation, update. rewrite Hs, Ht. done.
Qed.

Lemma on_trees_print allowed P : stable_print allowed (on_trees P).
Proof. by intros w ty text _ H. Qed.

Lemma on_trees_log P : stable_log (on_trees P).
Proof. by intros w ls H. Qed.

Lemma on_trees_logging allowed P : stable_logging allowed (on_trees P).
Proof. apply stable_logging_intro; [apply on_trees_print | apply on_trees_log]. Qed.

(** No folder to delete is, or lies above, a file that both trees have. *)
Lemma common_not_within_deleted (s t : gmap string node) F c :
  well_formed s ->
  F ∈ set_difference (folders_of t) (folders_of s) ->
  c ∈ set_intersection (files_of s) (files_of t) ->
  Path.within F c = false.
Proof.
  intros Hwf HF Hc.
  apply list_elem_of_difference in HF as [HFt HFs].
  apply list_elem_of_intersection in Hc as [Hcs Hct].
  apply elem_of_folders_of in HFt. rewrite elem_of_folders_of in HFs.
  apply elem_of_files_of in Hcs as (m & d & Hcs).
  apply elem_of_files_of in Hct as (m' & d' & Hct).
  unfold Path.within. apply orb_false_iff. split.
  - apply String.eqb_neq. intros ->. congruence.
  - destruct (Path.is_under F c) eqn:Hu; [|done].
    exfalso. apply HFs. by eapply well_formed_ancestor.
Qed.

Lemma common_present_start w s :
  monitored_paths_exist w -> source w = Some s -> common_present (cycle_diff w) s w.
Proof.
  intros (_ & _ & _ & [t Ht]) Hs. unfold common_present, on_trees, cycle_diff.
  rewrite Hs, Ht; simpl. split; [done|]. exists t. split; [done|].
  intros c Hc. apply list_elem_of_intersection in Hc as [Hcs Hct].
  apply elem_of_files_of in Hcs as (m & d & Hcs).
  apply elem_of_files_of in Hct as (m' & d' & Hct).
  rewrite Hcs, Hct. eauto.
Qed.

Lemma cycle_returns w s :
  monitored_paths_exist w -> source w = Some s -> well_formed s ->
  (forall p, fails os Getmtime p = false) ->
  wp sync (fun b w' => b = true /\ good (common_present (cycle_diff w) s) w')
     (fun _ => False) w.
Proof.
  intros Hmon Hs Hwf Hstat.
  pose proof Hmon as (_ & _ & _ & [t0 Ht0]).
  unfold wp. rewrite (sync_folders_run w Hmon). fold (wp
    (run_deletion (cycle_diff w);; run_creation (cycle_diff w);; run_update (cycle_diff w);; mret true)
    (fun b w' => b = true /\ good (common_present (cycle_diff w) s) w') (fun _ => False) w).
  set (d := cycle_diff w).
  assert (good (common_present d s) w) as Hstart.
  { split; [|by apply common_present_start].
    destruct Hmon as ([x Hx] & _). by rewrite Hx. }
  apply wp_bind. eapply wp_mono; [eapply (delete_files_good os (common_present d s))| |done].
  - apply on_trees_logging.
  - intros w1 t F HF Ht HtF (Hs1 & t' & Ht' & Hc). split; [done|].
    simpl. eexists; split; [done|]. intros c Hcin.
    destruct (Hc c Hcin) as [Hcs Hct]. split; [done|].
    rewrite Ht in Ht'. injection Ht' as <-.
    destruct Hct as [n Hn]. exists n. apply map_lookup_filter_Some. split; [done|]. simpl.
    subst d. unfold cycle_diff in HF, Hcin. rewrite Hs, Ht0 in HF, Hcin. simpl in HF, Hcin.
    by eapply common_not_within_deleted.
  - intros w1 t g m dat Hg Ht Htg (Hs1 & t' & Ht' & Hc). split; [done|].
    simpl. eexists; split; [done|]. intros c Hcin.
    destruct (Hc c Hcin) as [Hcs Hct]. split; [done|].
    rewrite Ht in Ht'. injection Ht' as <-.
    rewrite lookup_delete_ne; [done|]. intros ->.
    subst d. unfold cycle_diff in Hg, Hcin. rewrite Hs, Ht0 in Hg, Hcin. simpl in Hg, Hcin.
    apply list_elem_of_difference in Hg as [_ Hg].
    apply list_elem_of_intersection in Hcin as [Hcin _]. done.
  - done.
  - intros u w1 Hw1. simpl.
    apply wp_bind. eapply wp_mono; [eapply (create_files_good os (common_present d s))| |done].
    + apply on_trees_logging.
    + intros w2 s2 t t' F HF Hs2 Ht HsF HtF Hmk (Hs1 & t2 & Ht2 & Hc). split; [done|].
      simpl. eexists; split; [done|]. intros c Hcin.
      destruct (Hc c Hcin) as [Hcs Hct]. split; [done|].
      rewrite Ht in Ht2. injection Ht2 as <-.
      apply lookup_union_is_Some. right. by eapply makedirs_is_Some.
    + intros w2 s2 t m dat target g Hg Hs2 Ht Hsg Hf Htar Hn (Hs1 & t2 & Ht2 & Hc).
      split; [done|]. simpl. eexists; split; [done|]. intros c Hcin.
      destruct (Hc c Hcin) as [Hcs Hct]. split; [done|].
      rewrite Ht in Ht2. injection Ht2 as <-.
      apply lookup_insert_is_Some'. by right.
    + done.
    + intros u2 w2 Hw2. simpl.
      apply wp_bind. eapply wp_mono; [eapply (update_files_good os (common_present d s))| |done].
      * apply on_trees_logging.
      * intros w3 s3 t m dat target g Hg Hs3 Ht Hsg Hf Htar Hn (Hs1 & t3 & Ht3 & Hc).
        split; [done|]. simpl. eexists; split; [done|]. intros c Hcin.
        destruct (Hc c Hcin) as [Hcs Hct]. split; [done|].
        rewrite Ht in Ht3. injection Ht3 as <-.
        apply lookup_insert_is_Some'. by right.
      * intros w3 g Hg (Hs1 & t3 & Ht3 & Hc). exists s, t3. split_and!; try done; by apply Hc.
      * intros g Hg. by split.
      * done.
      * intros u3 w3 Hw3. by apply wp_ret.
Qed.

(** What a computation that cannot raise returns. *)
Lemma wp_returns {S A} (m : M S A) (Q : A -> S -> Prop) s :
  wp m Q (fun _ => False) s -> exists a s', m s = (Done a, s') /\ Q a s'.
Proof.
  unfold wp. destruct (m s) as [[a|] s']; [|done]. intros HQ. by exists a, s'.
Qed.

Lemma printed_only_refl allowed w : printed_only allowed w w.
Proof. exists []. split; [unfold printed; by rewrite app_nil_r | constructor]. Qed.

Lemma printed_only_print allowed w : stable_print allowed (printed_only allowed w).
Proof.
  intros w' ty text Hty (ls & Hls & Hall). exists (ls ++ [(ty, text)]). split.
  - unfold printed in *. simpl. rewrite Hls. by rewrite app_assoc.
  - apply Forall_app. split; [done|]. by constructor.
Qed.

Lemma printed_only_log allowed w : stable_log (printed_only allowed w).
Proof. by intros w' ls H. Qed.

Lemma printed_only_logging allowed w : stable_logging allowed (printed_only allowed w).
Proof. apply stable_logging_intro; [apply printed_only_print | apply printed_only_log]. Qed.

Lemma printed_only_replica allowed w w' t :
  printed_only allowed w w' -> printed_only allowed w (set_replica t w').
Proof. done. Qed.

(** The three stages of a cycle: each applier returns, and prints lines of
    its own levels only. *)
Lemma deletion_stage d w :
  log_file w <> None ->
  exists w1, run_deletion d w = (Done tt, w1) /\ log_file w1 <> None /\
    printed_only deletion_level w w1.
Proof.
  intros Hlog.
  destruct (wp_returns (run_deletion d) (fun _ => good (printed_only deletion_level w)) w)
    as ([] & w1 & Heq & Hlog1 & Hpr).
  - apply delete_files_good.
    + apply printed_only_logging.
    + intros; by apply printed_only_replica.
    + intros; by apply printed_only_replica.
    + split; [done|apply printed_only_refl].
  - by exists w1.
Qed.

Lemma creation_stage d w :
  log_file w <> None ->
  exists w1, run_creation d w = (Done tt, w1) /\ log_file w1 <> None /\
    printed_only creation_level w w1.
Proof.
  intros Hlog.
  destruct (wp_returns (run_creation d) (fun _ => good (printed_only creation_level w)) w)
    as ([] & w1 & Heq & Hlog1 & Hpr).
  - apply create_files_good.
    + apply printed_only_logging.
    + intros; by apply printed_only_replica.
    + intros; by apply printed_only_replica.
    + split; [done|apply printed_only_refl].
  - by exists w1.
Qed.

Lemma bind_not_false {S A} (m : M S A) (k : A -> M S bool) s :
  (forall a s', (k a s').1 <> Done false) -> ((m ≫= k) s).1 <> Done false.
Proof.
  intros Hk. unfold mbind, M_bind, bind. destruct (m s) as [[a|] s']; [apply Hk|done].
Qed.

(** What holds of the result of a cycle.  It returns [False] exactly when
    one of the four monitored paths (the folder of the log file, the log
    file, the source, the replica) does not exist when it starts, and then
    the world is left as it was: no tree is touched and nothing is logged.
    Otherwise the Deletion and the Creation Applier run and return whatever
    item failed, the Update Applier runs, and when it returns the cycle
    returns [True]; it does return, whatever removal or copy failed, when
    reading the modification times does not fail and the source is a
    directory tree. *)
Theorem cycle_result w :
  ((sync w).1 = Done false <-> ~ monitored_paths_exist w) /\
  (~ monitored_paths_exist w -> sync w = (Done false, w)) /\
  (monitored_paths_exist w ->
     exists w1 w2, run_deletion (cycle_diff w) w = (Done tt, w1) /\
       run_creation (cycle_diff w) w1 = (Done tt, w2) /\
       sync w = (run_update (cycle_diff w);; mret true) w2 /\
       (forall w3, run_update (cycle_diff w) w2 = (Done tt, w3) -> sync w = (Done true, w3))) /\
  (monitored_paths_exist w ->
     (forall s, source w = Some s -> well_formed s) ->
     (forall p, fails os Getmtime p = false) ->
     (sync w).1 = Done true).
Proof.
  split_and!.
  - split.
    + intros Hf Hmon. rewrite (sync_folders_run w Hmon) in Hf.
      revert Hf. repeat (apply bind_not_false; intros ? ?). done.
    + intros Hno. by rewrite sync_folders_teardown.
  - apply sync_folders_teardown.
  - intros Hmon. pose proof Hmon as ([x Hx] & _).
    destruct (deletion_stage (cycle_diff w) w) as (w1 & Hd & Hl1 & _); [by rewrite Hx|].
    destruct (creation_stage (cycle_diff w) w1 Hl1) as (w2 & Hc & Hl2 & _).
    exists w1, w2. split_and!; try done.
    + rewrite (sync_folders_run w Hmon).
      unfold mbind at 1, M_bind at 1, bind at 1. rewrite Hd.
      unfold mbind at 1, M_bind at 1, bind at 1. by rewrite Hc.
    + intros w3 Hu. rewrite (sync_folders_run w Hmon).
      unfold mbind at 1, M_bind at 1, bind at 1. rewrite Hd.
      unfold mbind at 1, M_bind at 1, bind at 1. rewrite Hc.
      unfold mbind at 1, M_bind at 1, bind at 1. by rewrite Hu.
  - intros Hmon Hwf Hstat. pose proof Hmon as (_ & _ & [s Hs] & _).
    destruct (wp_returns _ _ _ (cycle_returns w s Hmon Hs (Hwf s Hs) Hstat))
      as (b & w' & Heq & -> & _).
    by rewrite Heq.
Qed.


End Cycle.

(** ** Cascade deduplication *)

Lemma elem_of_set_add x y (s : list string) : x ∈ set_add y s <-> x = y \/ x ∈ s.
Proof.
  unfold set_add. case_bool_decide as Hin.
  - split; [by right|]. by intros [->|].
  - apply elem_of_cons.
Qed.

Lemma log_message_eq text ty path w :
  log_file w <> None ->
  exists ls, log_message text ty (Some path) w =
    (Done tt, World (source w) (replica w) (Some (Some ls)) (stdout w ++ [(ty, text)])).
Proof.
  intros Hlog. unfold log_message, print, set_log_file; simpl.
  destruct (log_file w) as [[ls|]|]; [| |done]; eauto.
Qed.

Lemma cascade_marks ty folder items path lp handled w :
  log_file w <> None ->
  exists handled' w',
    cascade ty folder items path lp (handled, w) = (Done tt, (handled', w')) /\
    (forall x, x ∈ handled' <-> x ∈ handled \/ x ∈ items /\ Path.contains folder x = true) /\
    printed w w' ((fun i => (ty, Path.join path i)) <$>
                  filter (fun i => Path.contains folder i = true) items) /\
    source w' = source w /\ replica w' = replica w /\ log_file w' <> None.
Proof.
  revert handled w. induction items as [|i items IH]; intros handled w Hlog.
  - exists handled, w. split_and!; try done.
    + intros x. split; [by left|]. intros [H|[H _]]; [done|inversion H].
    + unfold printed. by rewrite app_nil_r.
  - unfold cascade. cbn [for_each]. fold (cascade ty folder items path lp).
    rewrite filter_cons. destruct (Path.contains folder i) eqn:Hc.
    + destruct (log_message_eq (Path.join path i) ty lp w Hlog) as [ls Hmsg].
      destruct (IH (set_add i handled)
                  (World (source w) (replica w) (Some (Some ls))
                     (stdout w ++ [(ty, Path.join path i)])))
        as (h' & w' & Heq & Hin & Hpr & Hs & Hr & Hl); [done|].
      exists h', w'. split_and!; try done.
      * erewrite bind_Done; [exact Heq|].
        erewrite bind_Done; [|reflexivity]. by apply lift_eq.
      * intros x. rewrite Hin, elem_of_set_add, elem_of_cons.
        intuition (subst; auto; congruence).
      * destruct (decide (true = true)); [|done].
        unfold printed in *. rewrite Hpr. simpl. by rewrite <- app_assoc.
    + destruct (IH handled w Hlog) as (h' & w' & Heq & Hin & Hpr & Hs & Hr & Hl).
      exists h', w'. split_and!; try done.
      intros x. rewrite Hin, elem_of_cons. intuition (subst; auto; congruence).
Qed.

Section Cascade.

Variable os : os_oracle.

Lemma try_except_Done {S A} (body handler : M S A) s a s' :
  body s = (Done a, s') -> try_except body handler s = (Done a, s').
Proof. intros H. unfold try_except. by rewrite H. Qed.

(** A folder whose removal succeeds: every item with the folder's path in
    its name is marked. *)
Lemma delete_folder_step_marks all_folders all_files path lp F handled w t :
  F ∉ handled -> fails os Rmtree (Path.join path F) = false ->
  replica w = Some t -> t !! F = Some Dir -> log_file w <> None ->
  exists handled' w',
    delete_folder_step os all_folders all_files path lp F (handled, w)
      = (Done tt, (handled', w')) /\
    (forall x, x ∈ handled' <->
       x ∈ handled \/ x ∈ set_union all_folders all_files /\ Path.contains F x = true) /\
    replica w' = Some (filter (fun kv => Path.within F kv.1 = false) t) /\
    printed w w' ((fun i => (DELETED, Path.join path i)) <$>
                  filter (fun i => Path.contains F i = true)
                    (set_union all_folders all_files)).
Proof.
  intros HF Hok Hr HtF Hlog.
  destruct (cascade_marks DELETED F (set_union all_folders all_files) path lp handled
              (set_replica (filter (fun kv => Path.within F kv.1 = false) t) w) Hlog)
    as (h' & w' & Heq & Hin & Hpr & _ & Hr' & _).
  exists h', w'. split_and!; try done.
  unfold delete_folder_step. erewrite bind_Done; [|reflexivity].
  cbn [fst]. rewrite bool_decide_eq_false_2 by done.
  apply try_except_Done. erewrite bind_Done; [exact Heq|].
  apply lift_eq. unfold rmtree. by rewrite Hok, Hr, HtF.
Qed.

(** A folder whose copy succeeds: the same marking. *)
Lemma create_folder_step_marks all_folders all_files sp dp lp F handled w s d d' :
  F ∉ handled -> fails os Copytree (Path.join dp F) = false ->
  source w = Some s -> s !! F = Some Dir ->
  replica w = Some d -> d !! F = None -> makedirs d (Path.ancestors F) = Some d' ->
  log_file w <> None ->
  exists handled' w',
    create_folder_step os all_folders all_files sp dp lp F (handled, w)
      = (Done tt, (handled', w')) /\
    (forall x, x ∈ handled' <->
       x ∈ handled \/ x ∈ set_union all_folders all_files /\ Path.contains F x = true) /\
    replica w' = Some (filter (fun kv => Path.within F kv.1 = true) s ∪ d') /\
    printed w w' ((fun i => (CREATED, Path.join dp i)) <$>
                  filter (fun i => Path.contains F i = true)
                    (set_union all_folders all_files)).
Proof.
  intros HF Hok Hs HsF Hr HdF Hmk Hlog.
  destruct (cascade_marks CREATED F (set_union all_folders all_files) dp lp handled
              (set_replica (filter (fun kv => Path.within F kv.1 = true) s ∪ d') w) Hlog)
    as (h' & w' & Heq & Hin & Hpr & _ & Hr' & _).
  exists h', w'. split_and!; try done.
  unfold create_folder_step. erewrite bind_Done; [|reflexivity].
  cbn [fst]. rewrite bool_decide_eq_false_2 by done.
  apply try_except_Done. erewrite bind_Done; [exact Heq|].
  apply lift_eq. unfold copytree. rewrite Hok, Hs, Hr, HsF, HdF, Hmk.
  rewrite bool_decide_eq_false_2; [done|]. by intros [? ?].
Qed.

(** A marked item is passed over by all four loops: nothing is done to
    it and nothing is logged. *)
Lemma marked_is_skipped all_folders all_files sp dp lp x handled w :
  x ∈ handled ->
  delete_folder_step os all_folders all_files dp lp x (handled, w) = (Done tt, (handled, w)) /\
  delete_file_step os dp lp x (handled, w) = (Done tt, (handled, w)) /\
  create_folder_step os all_folders all_files sp dp lp x (handled, w) = (Done tt, (handled, w)) /\
  create_file_step os sp dp lp x (handled, w) = (Done tt, (handled, w)).
Proof.
  intros Hx.
  unfold delete_folder_step, delete_file_step, create_folder_step, create_file_step.
  split_and!; (erewrite bind_Done; [|reflexivity]); cbn [fst];
    by rewrite bool_decide_eq_true_2.
Qed.

(** C3. In both appliers, the loop that follows the recursive removal or
    copy of a folder marks as handled, and logs, exactly the items that
    have the folder's relative path as a substring, and a marked item is
    then passed over by the loops.  So an item that does not lie in the
    folder can be marked: on [world_sibling], deleting [folder1] marks
    [folder10/x], which is logged as deleted, skipped by the file loop and
    still in the replica afterwards; on [world_sibling_new], creating
    [folder1] marks [folder10/x], which is logged as created, skipped by
    the file loop and not in the replica afterwards. *)
Theorem cascade_marks_by_substring :
  (forall sub s,
     Path.contains sub s = true <-> exists before after, s = (before ++ sub ++ after)%string) /\
  (forall all_folders all_files path lp F handled w t,
     F ∉ handled -> fails os Rmtree (Path.join path F) = false ->
     replica w = Some t -> t !! F = Some Dir -> log_file w <> None ->
     exists handled' w',
       delete_folder_step os all_folders all_files path lp F (handled, w)
         = (Done tt, (handled', w')) /\
       (forall x, x ∈ handled' <->
          x ∈ handled \/ x ∈ set_union all_folders all_files /\ Path.contains F x = true) /\
       printed w w' ((fun i => (DELETED, Path.join path i)) <$>
                     filter (fun i => Path.contains F i = true)
                       (set_union all_folders all_files))) /\
  (forall all_folders all_files sp dp lp F handled w s d d',
     F ∉ handled -> fails os Copytree (Path.join dp F) = false ->
     source w = Some s -> s !! F = Some Dir ->
     replica w = Some d -> d !! F = None -> makedirs d (Path.ancestors F) = Some d' ->
     log_file w <> None ->
     exists handled' w',
       create_folder_step os all_folders all_files sp dp lp F (handled, w)
         = (Done tt, (handled', w')) /\
       (forall x, x ∈ handled' <->
          x ∈ handled \/ x ∈ set_union all_folders all_files /\ Path.contains F x = true) /\
       printed w w' ((fun i => (CREATED, Path.join dp i)) <$>
                     filter (fun i => Path.contains F i = true)
                       (set_union all_folders all_files))) /\
  (forall sp dp lp x handled w,
     x ∈ handled ->
     delete_file_step os dp lp x (handled, w) = (Done tt, (handled, w)) /\
     create_file_step os sp dp lp x (handled, w) = (Done tt, (handled, w))) /\
  (Path.contains "folder1" "folder10/x" = true /\
   Path.within "folder1" "folder10/x" = false) /\
  (let r := delete_files no_faults ["folder1"] ["folder10/x"] "replica" "log/sync.txt"
              world_sibling in
   r.1 = Done tt /\
   replica r.2 = tree [("folder10", Dir); ("folder10/x", File 5 "data")] /\
   stdout r.2 = [(DELETED, "replica/folder1"); (DELETED, "replica/folder10/x")]) /\
  (let r := create_files no_faults ["folder1"] ["folder10/x"] "source" "replica" "log/sync.txt"
              world_sibling_new in
   r.1 = Done tt /\
   replica r.2 = tree [("folder1", Dir); ("folder10", Dir)] /\
   stdout r.2 = [(CREATED, "replica/folder1"); (CREATED, "replica/folder10/x")]).
Proof.
  split_and!.
  - apply contains_spec.
  - intros all_folders all_files path lp F handled w t HF Hok Hr HtF Hlog.
    destruct (delete_folder_step_marks all_folders all_files path lp F handled w t
                HF Hok Hr HtF Hlog) as (h' & w' & Heq & Hin & _ & Hpr).
    by exists h', w'.
  - intros all_folders all_files sp dp lp F handled w s d d' HF Hok Hs HsF Hr HdF Hmk Hlog.
    destruct (create_folder_step_marks all_folders all_files sp dp lp F handled w s d d'
                HF Hok Hs HsF Hr HdF Hmk Hlog) as (h' & w' & Heq & Hin & _ & Hpr).
    by exists h', w'.
  - intros sp dp lp x handled w Hx.
    destruct (marked_is_skipped [] [] sp dp lp x handled w Hx) as (_ & H1 & _ & H2).
    by split.
  - done.
  - done.
  - vm_compute. by split_and!.
  - vm_compute. by split_and!.
Qed.

End Cascade.

(** The other order of the same two folders logs [folder10] and
    [folder10/x] twice: once when [folder10] is removed, and once more when
    [folder1] is. *)
Example delete_files_logs_twice :
  let w := World (tree []) (tree [("folder1", Dir); ("folder10", Dir);
                                  ("folder10/x", File 5 "data")]) (Some (Some [])) [] in
  stdout (delete_files no_faults ["folder10"; "folder1"] ["folder10/x"]
            "replica" "log/sync.txt" w).2 =
  [(DELETED, "replica/folder10"); (DELETED, "replica/folder10/x");
   (DELETED, "replica/folder10"); (DELETED, "replica/folder1"); (DELETED, "replica/folder10/x")].
Proof. by vm_compute. Qed.

(** ** The Update Applier *)

Section Update.

Variable os : os_oracle.
Variables sp dp lp : string.

Lemma update_files_unfold files :
  update_files os files sp dp lp = for_each files (update_step os sp dp lp).
Proof. reflexivity. Qed.

Lemma update_step_eq f w s d :
  source w = Some s -> replica w = Some d -> log_file w <> None -> readable os sp dp s d f ->
  exists w', update_step os sp dp lp f w = (Done tt, w') /\
    source w' = Some s /\ log_file w' <> None /\
    stdout w' = stdout w ++ update_lines os dp s d f /\
    replica w' = Some (if needs_update s d f && negb (fails os Copy2 (Path.join dp f))
                       then <[f := default Dir (s !! f)]> d else d).
Proof.
  intros Hs Hd Hlog ((ms & cs & Hsf) & (md & cd & Hdf) & Hf1 & Hf2).
  unfold update_step, update_lines, needs_update. rewrite Hsf, Hdf.
  erewrite bind_Done; [|unfold getmtime; simpl; by rewrite Hf1, Hs, Hsf].
  erewrite bind_Done; [|unfold getmtime; simpl; by rewrite Hf2, Hd, Hdf].
  case_bool_decide as Hne; simpl.
  - unfold try_except.
    destruct (fails os Copy2 (Path.join dp f)) eqn:Hfc; simpl.
    + erewrite bind_Raised; [|unfold copy2; by rewrite Hfc].
      destruct (log_message_eq
        (Path.join dp f ++ " could not be updated. Trying again next synchronization")%string
        ERROR lp w Hlog) as [ls ->].
      eexists. split; [done|]. simpl. by rewrite Hs, Hd.
    + erewrite bind_Done; [|unfold copy2; by rewrite Hfc, Hs, Hd, Hsf, Hdf].
      destruct (log_message_eq (Path.join dp f) UPDATED lp
                  (set_replica (<[f:=File ms cs]> d) w) Hlog) as [ls ->].
      eexists. split; [done|]. simpl. by rewrite Hs.
  - exists w. rewrite app_nil_r. by split_and!.
Qed.

Lemma needs_update_ext (s d d' : gmap string node) f :
  d !! f = d' !! f -> needs_update s d f = needs_update s d' f.
Proof. unfold needs_update. by intros ->. Qed.

Lemma update_lines_ext (s d d' : gmap string node) f :
  d !! f = d' !! f -> update_lines os dp s d f = update_lines os dp s d' f.
Proof. unfold update_lines. intros H. by rewrite (needs_update_ext s d d' f H). Qed.

Lemma updated_entry_ext (s d d' : gmap string node) f :
  d !! f = d' !! f -> updated_entry os dp s d f = updated_entry os dp s d' f.
Proof. unfold updated_entry. intros H. by rewrite (needs_update_ext s d d' f H), H. Qed.

Lemma bind_ext_in {A B} (f g : A -> list B) (l : list A) :
  (forall x, x ∈ l -> f x = g x) -> l ≫= f = l ≫= g.
Proof.
  induction l as [|x l IH]; intros H; [done|].
  rewrite !bind_cons, (H x), IH; [done| |by left].
  intros y Hy. apply H. by right.
Qed.

(** The Update Applier, run on files that are in both trees and can be
    read: it returns, prints the lines of [update_lines] file by file, and
    leaves the replica with the entries of [updated_entry]. *)
Lemma update_files_eq s files : forall w d,
  source w = Some s -> replica w = Some d -> log_file w <> None ->
  NoDup files -> (forall f, f ∈ files -> readable os sp dp s d f) ->
  exists w' d', update_files os files sp dp lp w = (Done tt, w') /\
    source w' = Some s /\ replica w' = Some d' /\ log_file w' <> None /\
    printed w w' (files ≫= update_lines os dp s d) /\
    (forall p, d' !! p = if bool_decide (p ∈ files) then updated_entry os dp s d p
                         else d !! p).
Proof.
  rewrite update_files_unfold.
  induction files as [|f files IH]; intros w d Hs Hd Hlog Hnd Hread.
  - exists w, d. split_and!; try done.
    unfold printed. simpl. by rewrite app_nil_r.
  - apply NoDup_cons in Hnd as [Hf Hnd].
    destruct (update_step_eq f w s d Hs Hd Hlog) as (w1 & Hstep & Hs1 & Hl1 & Ho1 & Hd1).
    { apply Hread. by left. }
    set (d1 := if needs_update s d f && negb (fails os Copy2 (Path.join dp f))
               then <[f := default Dir (s !! f)]> d else d) in *.
    assert (forall g, g <> f -> d1 !! g = d !! g) as Hd1g.
    { intros g Hg. unfold d1. destruct (_ && _); [|done]. by rewrite lookup_insert_ne. }
    destruct (IH w1 d1 Hs1 Hd1 Hl1 Hnd) as (w' & d' & Hrun & Hs' & Hd' & Hl' & Hpr & Hlk).
    { intros g Hg. destruct (Hread g) as (Hsg & Hdg & Hf1 & Hf2); [by right|].
      unfold readable. rewrite Hd1g; [done|]. by intros ->. }
    exists w', d'. split_and!; try done.
    + cbn [for_each]. by erewrite bind_Done.
    + unfold printed in *. rewrite Hpr, Ho1, bind_cons, <- app_assoc. f_equal. f_equal.
      apply bind_ext_in. intros g Hg. apply update_lines_ext, Hd1g. by intros ->.
    + intros p. rewrite Hlk.
      destruct (decide (p = f)) as [->|Hpf].
      * rewrite bool_decide_eq_false_2 by done.
        rewrite bool_decide_eq_true_2 by (by left).
        unfold d1, updated_entry. destruct (_ && _); [|done].
        rewrite lookup_insert_eq.
        destruct (Hread f) as ((m & c & ->) & _); [by left|done].
      * destruct (decide (p ∈ files)) as [Hp|Hp].
        -- rewrite !bool_decide_eq_true_2; [|by right|done].
           by apply updated_entry_ext, Hd1g.
        -- rewrite !bool_decide_eq_false_2; [by apply Hd1g| |done].
           intros Hin. apply elem_of_cons in Hin as [?|?]; done.
Qed.

Lemma updated_lines_for_app f ls ls' :
  updated_lines_for dp f (ls ++ ls') = updated_lines_for dp f ls + updated_lines_for dp f ls'.
Proof. unfold updated_lines_for. by rewrite filter_app, length_app. Qed.

Lemma updated_lines_for_other s d f g :
  Path.startswith "/" f = false -> Path.startswith "/" g = false -> g <> f ->
  updated_lines_for dp f (update_lines os dp s d g) = 0.
Proof.
  intros Hf Hg Hne. unfold updated_lines_for, update_lines.
  destruct (needs_update s d g); [|done].
  destruct (fails os Copy2 (Path.join dp g)).
  - rewrite filter_cons. by destruct (decide _).
  - rewrite filter_cons. destruct (decide _) as [Heq|]; [|done].
    injection Heq as Heq. by apply join_inj in Heq.
Qed.

Lemma updated_lines_for_self s d f :
  updated_lines_for dp f (update_lines os dp s d f) =
  if needs_update s d f && negb (fails os Copy2 (Path.join dp f)) then 1 else 0.
Proof.
  unfold updated_lines_for, update_lines.
  destruct (needs_update s d f); [|done].
  destruct (fails os Copy2 (Path.join dp f)).
  - rewrite filter_cons. by destruct (decide _).
  - rewrite filter_cons. by destruct (decide _).
Qed.

Lemma updated_lines_for_files s d f files :
  NoDup files -> Path.startswith "/" f = false ->
  (forall g, g ∈ files -> Path.startswith "/" g = false) ->
  updated_lines_for dp f (files ≫= update_lines os dp s d) =
  if bool_decide (f ∈ files) && needs_update s d f && negb (fails os Copy2 (Path.join dp f))
  then 1 else 0.
Proof.
  intros Hnd Hf. induction files as [|g files IH]; intros Hrel; [done|].
  apply NoDup_cons in Hnd as [Hg Hnd].
  rewrite bind_cons, updated_lines_for_app, IH; [|done|intros; apply Hrel; by right].
  destruct (decide (g = f)) as [->|Hne].
  - rewrite updated_lines_for_self.
    rewrite (bool_decide_eq_false_2 (f ∈ files)) by done.
    rewrite (bool_decide_eq_true_2 (f ∈ f :: files)) by (by left).
    simpl. lia.
  - rewrite updated_lines_for_other; [|done|apply Hrel; by left|done].
    simpl. destruct (decide (f ∈ files)) as [Hin|Hin].
    + rewrite !bool_decide_eq_true_2; [done|by right|done].
    + rewrite !bool_decide_eq_false_2; [done| |done].
      intros H. apply elem_of_cons in H as [?|?]; congruence.
Qed.

(** C7, amended.  Selective update.  For a file that both trees hold,
    among files whose modification times can be read: the Update Applier
    copies it again exactly when the two modification times are not equal.
    When they are equal the replica's entry is left as it was and no
    [UPDATED] line names the file.  When they differ and [copy2] succeeds,
    the replica's entry becomes the source's (contents and modification
    time) and exactly one [UPDATED] line names the file; when [copy2]
    fails, no [UPDATED] line names the file and an [ERROR] line is printed
    in its place. *)
Theorem selective_update s d files w f ms cs md cd :
  source w = Some s -> replica w = Some d -> log_file w <> None ->
  NoDup files -> (forall g, g ∈ files -> readable os sp dp s d g) ->
  (forall g, g ∈ files -> Path.startswith "/" g = false) ->
  f ∈ files -> s !! f = Some (File ms cs) -> d !! f = Some (File md cd) ->
  exists w' d' ls,
    update_files os files sp dp lp w = (Done tt, w') /\
    replica w' = Some d' /\ printed w w' ls /\
    (md = ms -> d' !! f = Some (File md cd) /\ updated_lines_for dp f ls = 0) /\
    (md <> ms -> fails os Copy2 (Path.join dp f) = false ->
       d' !! f = Some (File ms cs) /\ updated_lines_for dp f ls = 1) /\
    (md <> ms -> fails os Copy2 (Path.join dp f) = true ->
       updated_lines_for dp f ls = 0 /\
       (ERROR, (Path.join dp f ++ " could not be updated. Trying again next synchronization")%string) ∈ ls).
Proof.
  intros Hs Hd Hlog Hnd Hread Hrel Hf Hsf Hdf.
  destruct (update_files_eq s files w d Hs Hd Hlog Hnd Hread)
    as (w' & d' & Hrun & _ & Hd' & _ & Hpr & Hlk).
  exists w', d', (files ≫= update_lines os dp s d). split_and!; try done.
  - intros ->. rewrite Hlk, updated_lines_for_files by auto.
    rewrite bool_decide_eq_true_2 by done.
    unfold updated_entry, needs_update. rewrite Hsf, Hdf.
    rewrite bool_decide_eq_false_2 by (intros H; by apply H). done.
  - intros Hne Hok. rewrite Hlk, updated_lines_for_files by auto.
    rewrite bool_decide_eq_true_2 by done.
    unfold updated_entry, needs_update. rewrite Hsf, Hdf, Hok.
    rewrite bool_decide_eq_true_2 by done. done.
  - intros Hne Hfail. rewrite updated_lines_for_files by auto.
    rewrite bool_decide_eq_true_2 by done.
    unfold needs_update. rewrite Hsf, Hdf, Hfail.
    rewrite bool_decide_eq_true_2 by done. simpl. split; [done|].
    apply list_elem_of_bind. exists f. split; [|done].
    unfold update_lines, needs_update. rewrite Hsf, Hdf, Hfail.
    rewrite bool_decide_eq_true_2 by done. by left.
Qed.

End Update.

(** ** The log file *)

Section Logging.

Variable os : os_oracle.
Variables source_path replica_path log_file_path : string.

Local Abbreviation run_deletion := (deletion os replica_path log_file_path).
Local Abbreviation run_creation := (creation os source_path replica_path log_file_path).
Local Abbreviation run_update := (update os source_path replica_path log_file_path).

Lemma log_tracks_refl w : log_tracks w w.
Proof.
  exists []. split; [unfold printed; by rewrite app_nil_r|].
  destruct (log_file w) as [[old|]|]; simpl; by rewrite ?app_nil_r.
Qed.

Lemma log_tracks_logging allowed w : stable_logging allowed (log_tracks w).
Proof.
  intros w' ty text path _ Hlog (ls & Hpr & Hfile).
  exists (ls ++ [(ty, text)]). unfold log_message, printed in *; simpl.
  destruct (log_file w') as [[old'|]|] eqn:Hw'; [| |done]; simpl.
  - split; [by rewrite Hpr, app_assoc|].
    destruct (log_file w) as [[old|]|]; simpl in *; [| |done].
    + injection Hfile as ->. by rewrite app_assoc.
    + destruct ls; [done|]. by injection Hfile as ->.
  - split; [by rewrite Hpr, app_assoc|].
    destruct (log_file w) as [[old|]|]; simpl in *; [done| |done].
    by destruct ls.
Qed.

Lemma log_tracks_replica w w' t : log_tracks w w' -> log_tracks w (set_replica t w').
Proof. done. Qed.

Lemma deletion_logs d w :
  log_file w <> None ->
  exists w1 ls, run_deletion d w = (Done tt, w1) /\
    printed w w1 ls /\ log_file w1 = log_after (log_file w) ls.
Proof.
  intros Hlog.
  destruct (wp_returns (run_deletion d)
              (fun _ => good (log_tracks w)) w) as ([] & w1 & Heq & _ & ls & Hpr & Hfile).
  - apply delete_files_good.
    + apply log_tracks_logging.
    + intros; by apply log_tracks_replica.
    + intros; by apply log_tracks_replica.
    + split; [done|apply log_tracks_refl].
  - by exists w1, ls.
Qed.

Lemma creation_logs d w :
  log_file w <> None ->
  exists w1 ls, run_creation d w = (Done tt, w1) /\
    printed w w1 ls /\ log_file w1 = log_after (log_file w) ls.
Proof.
  intros Hlog.
  destruct (wp_returns (run_creation d)
              (fun _ => good (log_tracks w)) w) as ([] & w1 & Heq & _ & ls & Hpr & Hfile).
  - apply create_files_good.
    + apply log_tracks_logging.
    + intros; by apply log_tracks_replica.
    + intros; by apply log_tracks_replica.
    + split; [done|apply log_tracks_refl].
  - by exists w1, ls.
Qed.

(** C10. [log_message] with a file path appends to the log file and
    creates it when it is missing.  So, in a world where the folder of the
    log file exists and the log file does not (it was deleted after the
    check at the start of the cycle), logging does not raise: the
    Deletion and the Creation Applier return, and the log file exists again
    as soon as a line was logged, holding the lines logged since.  The
    missing log file makes a cycle fail only at its start. *)
Theorem log_file_reappears :
  (forall text ty path w,
     log_file w <> None ->
     exists w', log_message text ty (Some path) w = (Done tt, w') /\
       log_file w' = log_after (log_file w) [(ty, text)] /\
       stdout w' = stdout w ++ [(ty, text)] /\
       source w' = source w /\ replica w' = replica w) /\
  (forall d w,
     log_file w = Some None ->
     exists w1 ls, run_deletion d w = (Done tt, w1) /\
       printed w w1 ls /\
       log_file w1 = match ls with [] => Some None | _ => Some (Some ls) end) /\
  (forall d w,
     log_file w = Some None ->
     exists w1 ls, run_creation d w = (Done tt, w1) /\
       printed w w1 ls /\
       log_file w1 = match ls with [] => Some None | _ => Some (Some ls) end) /\
  (forall w,
     log_file w = Some None ->
     sync_folders os source_path replica_path log_file_path w = (Done false, w)).
Proof.
  split_and!.
  - intros text ty path w Hlog. unfold log_message. simpl.
    destruct (log_file w) as [[old|]|]; [| |done]; eexists; by split_and!.
  - intros d w Hlog.
    destruct (deletion_logs d w) as (w1 & ls & Heq & Hpr & Hfile); [by rewrite Hlog|].
    exists w1, ls. by rewrite Hlog in Hfile.
  - intros d w Hlog.
    destruct (creation_logs d w) as (w1 & ls & Heq & Hpr & Hfile); [by rewrite Hlog|].
    exists w1, ls. by rewrite Hlog in Hfile.
  - intros w Hlog. apply sync_folders_teardown.
    intros (_ & [ls Hls] & _). congruence.
Qed.

End Logging.

(** ** Failures of single items *)

Section ItemFailures.

Variable os : os_oracle.



(** Not so for the modification times: a [getmtime] that fails ends the
    round, and with it [update_files], by the exception. *)
Lemma failed_getmtime_escapes sp dp lp f files w :
  getmtime os Src (Path.join sp f) f w = (Raised, w) \/
  (exists m, getmtime os Src (Path.join sp f) f w = (Done m, w)) /\
  getmtime os Rep (Path.join dp f) f w = (Raised, w) ->
  update_files os (f :: files) sp dp lp w = (Raised, w).
Proof.
  intros H. unfold update_files. cbn [for_each].
  erewrite bind_Raised; [done|].
  destruct H as [H|[[m Hm] H]].
  - by erewrite bind_Raised.
  - erewrite bind_Done; [|exact Hm]. by erewrite bind_Raised.
Qed.

End ItemFailures.

(** ** The order of a cycle *)

Section Order.

Variable os : os_oracle.
Variables source_path replica_path log_file_path : string.

Local Abbreviation run_deletion := (deletion os replica_path log_file_path).
Local Abbreviation run_creation := (creation os source_path replica_path log_file_path).
Local Abbreviation run_update := (update os source_path replica_path log_file_path).

Let sync := sync_folders os source_path replica_path log_file_path.






End Order.

(** ** The cycle on concrete worlds *)

Lemma monitored_paths_exist_world_common : monitored_paths_exist world_common.
Proof. unfold monitored_paths_exist. simpl. split_and!; eauto. Defined.

(** C1. Convergence fails on [world_sibling]: no call fails and the cycle
    returns [True] without an [ERROR] line, yet the replica still holds the
    file [folder10/x], which the source does not have.  Removing [folder1]
    marked [folder10/x] as deleted, because ["folder1"] occurs in its name,
    and logged it so, and the file loop then skipped it. *)
Theorem convergence_fails_on_sibling_name :
  let r := sync_folders no_faults "source" "replica" "log/sync.txt" world_sibling in
  r.1 = Done true /\
  stdout r.2 = [(DELETED, "replica/folder1"); (DELETED, "replica/folder10/x")] /\
  (snapshot (source r.2)).1 = [] /\
  (snapshot (replica r.2)).1 = ["folder10/x"] /\
  replica r.2 = tree [("folder10", Dir); ("folder10/x", File 5 "data")].
Proof. vm_compute. by split_and!. Qed.

(** C2. Deletion completeness fails on [world_nested]: the folder [d/a1]
    and its file [d/a1/x] are in the replica and not in the source, no call
    fails, and after the cycle both are still in the replica, each logged
    as deleted.  Removing the folder [a] marked both, because ["a"] occurs
    in their names. *)
Theorem deletion_incomplete_on_substring :
  let r := sync_folders no_faults "source" "replica" "log/sync.txt" world_nested in
  r.1 = Done true /\
  (exists t, replica r.2 = Some t /\
     t !! "d/a1" = Some Dir /\ t !! "d/a1/x" = Some (File 5 "data") /\ t !! "a" = None) /\
  stdout r.2 = [(DELETED, "replica/a"); (DELETED, "replica/d/a1"); (DELETED, "replica/d/a1/x")].
Proof.
  vm_compute. split_and!; try done. eexists. split; [done|]. by vm_compute.
Qed.

(** C8. Idempotence fails on [world_sibling]: the second of two cycles in
    a row, with the source untouched in between and no call failing,
    removes [folder10/x] and logs a [DELETED] line. *)
Theorem second_cycle_still_deletes :
  let r1 := sync_folders no_faults "source" "replica" "log/sync.txt" world_sibling in
  let r2 := sync_folders no_faults "source" "replica" "log/sync.txt" r1.2 in
  r1.1 = Done true /\ r2.1 = Done true /\
  source r1.2 = source world_sibling /\
  stdout r2.2 = stdout r1.2 ++ [(DELETED, "replica/folder10/x")] /\
  replica r2.2 = tree [("folder10", Dir)].
Proof. vm_compute. by split_and!. Qed.

(** C5. The result of a cycle is not always [False] or [True]: on
    [world_common] the four monitored paths exist, reading the modification
    time of [replica/c.txt] fails during the update of [c.txt], and
    [sync_folders] returns neither [True] nor [False], it raises.  (For all
    other failures of single items the cycle returns [True], see
    [cycle_result].) *)
Theorem cycle_raises_with_paths_in_place :
  let r := sync_folders stat_fails "source" "replica" "log/sync.txt" world_common in
  monitored_paths_exist world_common /\
  r.1 = Raised /\ r.1 <> Done true /\ r.1 <> Done false.
Proof.
  intros r. split; [apply monitored_paths_exist_world_common|].
  subst r. vm_compute. by split_and!.
Qed.

(** C6. An error leaves the cycle on [world_common] when reading the
    modification time of [replica/c.txt] fails: [update_files] calls
    [os.path.getmtime] outside its [try], so [sync_folders] raises; no
    [ERROR] line is logged for the file. *)
Theorem getmtime_error_escapes :
  let r := sync_folders stat_fails "source" "replica" "log/sync.txt" world_common in
  r.1 = Raised /\
  stdout r.2 = [(DELETED, "replica/old")] /\
  replica r.2 = tree [("c.txt", File 6 "old")].
Proof. vm_compute. by split_and!. Qed.

(** C7, as the specification states it, fails on [world_common] when the
    copy is refused: [c.txt] is in both trees with modification times that
    differ, the Update Applier returns, and what it printed holds no
    [UPDATED] line for the file, where the specification has exactly one;
    there is one [ERROR] line in its place. *)
Theorem selective_update_fails_on_refused_copy :
  let run := update_files copy_refused ["c.txt"] "source" "replica" "log/sync.txt"
               world_common in
  (exists s d, source world_common = Some s /\ replica world_common = Some d /\
     s !! "c.txt" = Some (File 7 "new") /\ d !! "c.txt" = Some (File 6 "old")) /\
  run.1 = Done tt /\
  stdout run.2 =
    [(ERROR, "replica/c.txt could not be updated. Trying again next synchronization")] /\
  updated_lines_for "replica" "c.txt" (stdout run.2) = 0.
Proof.
  split; [|by vm_compute].
  eexists _, _. split; [reflexivity|]. split; [reflexivity|]. by vm_compute.
Qed.

(** ** The theorems at concrete worlds *)

Lemma well_formed_decide (t : gmap string node) :
  bool_decide (well_formed t) = true -> well_formed t.
Proof. apply bool_decide_eq_true_1. Defined.

(** C3 at [folder1] and the items of [world_sibling]. *)
Lemma cascade_marks_by_substring_witness :
  exists handled' w',
    delete_folder_step no_faults ["folder1"] ["folder10/x"] "replica" "log/sync.txt"
      "folder1" ([], world_sibling) = (Done tt, (handled', w')) /\
    (forall x, x ∈ handled' <->
       x ∈ [] \/ x ∈ set_union ["folder1"] ["folder10/x"] /\ Path.contains "folder1" x = true) /\
    printed world_sibling w'
      ((fun i => (DELETED, Path.join "replica" i)) <$>
       filter (fun i => Path.contains "folder1" i = true)
         (set_union ["folder1"] ["folder10/x"])).
Proof.
  destruct (cascade_marks_by_substring no_faults) as (_ & H & _).
  apply (H ["folder1"] ["folder10/x"] "replica" "log/sync.txt" "folder1" [] world_sibling
           (list_to_map [("folder1", Dir); ("folder10", Dir); ("folder10/x", File 5 "data")])).
  - intros Hin. inversion Hin.
  - reflexivity.
  - reflexivity.
  - by vm_compute.
  - done.
Defined.

(** C4 at two worlds that differ in times and contents only. *)
Lemma diff_computer_set_algebra_witness :
  shape (source world_common) = shape (source world_common_retimed) /\
  shape (replica world_common) = shape (replica world_common_retimed) /\
  cycle_diff world_common = cycle_diff world_common_retimed.
Proof.
  split; [by vm_compute|]. split; [by vm_compute|].
  destruct diff_computer_set_algebra as (_ & _ & H).
  apply H; by vm_compute.
Defined.

(** On a world where the removal of the folder [old] is refused, the
    cycle logs the error and returns [True]. *)
Lemma cycle_result_read_only :
  monitored_paths_exist world_common /\
  (sync_folders read_only "source" "replica" "log/sync.txt" world_common).1 = Done true.
Proof.
  split; [apply monitored_paths_exist_world_common|].
  destruct (cycle_result read_only "source" "replica" "log/sync.txt" world_common)
    as (_ & _ & _ & H).
  apply H.
  - apply monitored_paths_exist_world_common.
  - intros s [= <-]. apply well_formed_decide. by vm_compute.
  - reflexivity.
Defined.

(** C7 on [c.txt] of [world_common], whose times differ. *)
Lemma selective_update_witness :
  exists w' d' ls,
    update_files no_faults ["c.txt"] "source" "replica" "log/sync.txt" world_common
      = (Done tt, w') /\
    replica w' = Some d' /\ printed world_common w' ls /\
    d' !! "c.txt" = Some (File 7 "new") /\ updated_lines_for "replica" "c.txt" ls = 1.
Proof.
  destruct (selective_update no_faults "source" "replica" "log/sync.txt"
              (list_to_map [("c.txt", File 7 "new")])
              (list_to_map [("c.txt", File 6 "old"); ("old", Dir)])
              ["c.txt"] world_common "c.txt" 7 "new" 6 "old")
    as (w' & d' & ls & Hrun & Hd' & Hpr & _ & Hdiff & _).
  - reflexivity.
  - reflexivity.
  - done.
  - apply NoDup_singleton.
  - intros g Hg. apply list_elem_of_singleton in Hg as ->.
    unfold readable. split_and!; [by exists 7%Z, "new" | by exists 6%Z, "old" | done | done].
  - intros g Hg. by apply list_elem_of_singleton in Hg as ->.
  - by left.
  - by vm_compute.
  - by vm_compute.
  - exists w', d', ls. destruct Hdiff as [Hd Hn]; [lia|reflexivity|]. by split_and!.
Defined.


(** C10 on [world_no_log]: the folder [old] is removed and the log file
    is there again. *)
Lemma log_file_reappears_witness :
  log_file world_no_log = Some None /\
  exists w1 ls,
    deletion no_faults "replica" "log/sync.txt" (cycle_diff world_no_log) world_no_log
      = (Done tt, w1) /\
    printed world_no_log w1 ls /\
    log_file w1 = match ls with [] => Some None | _ => Some (Some ls) end.
Proof.
  split; [reflexivity|].
  destruct (log_file_reappears no_faults "source" "replica" "log/sync.txt") as (_ & H & _).
  apply H. reflexivity.
Defined.

(** What [world_no_log] becomes: one line logged, one line in the new file. *)
Example log_file_reappears_run :
  let r := deletion no_faults "replica" "log/sync.txt" (cycle_diff world_no_log) world_no_log in
  r.1 = Done tt /\ log_file r.2 = Some (Some [(DELETED, "replica/old")]) /\
  (sync_folders no_faults "source" "replica" "log/sync.txt" world_no_log).1 = Done false.
Proof. vm_compute. by split_and!. Qed.

(** * More of the engine *)

(** ** What the appliers keep, whether they return or raise *)

Section Keeps.

Variable os : os_oracle.

Lemma log_message_keeps (I : world -> Prop) text ty fp w :
  output_stable I -> I w -> wp (log_message text ty fp) (fun _ => I) I w.
Proof.
  intros [Hp Hl] Hw. unfold wp, log_message.
  pose proof (Hp w ty text Logic.I Hw) as Hw'.
  destruct fp as [path|]; [|done].
  destruct (log_file (print (ty, text) w)) as [[ls|]|]; auto.
Qed.

Lemma cascade_keeps (I : world -> Prop) ty folder items path lp (s : list string * world) :
  output_stable I -> I s.2 ->
  wp (cascade ty folder items path lp) (fun _ s' => I s'.2) (fun s' => I s'.2) s.
Proof.
  intros Hst Hs. unfold cascade.
  apply (wp_for_each (fun s' => I s'.2)); [done|].
  intros item [l w] _ Hw. destruct (Path.contains folder item); [|by apply wp_ret].
  apply wp_bind, wp_modify_local, wp_lift; simpl.
  by apply log_message_keeps.
Qed.

Lemma delete_files_keeps (I : world -> Prop) folders files path lp w :
  output_stable I ->
  (forall w t F, F ∈ folders -> replica w = Some t -> t !! F = Some Dir -> I w ->
     I (set_replica (filter (fun kv => Path.within F kv.1 = false) t) w)) ->
  (forall w t g m d, g ∈ files -> replica w = Some t -> t !! g = Some (File m d) -> I w ->
     I (set_replica (delete g t) w)) ->
  I w ->
  wp (delete_files os folders files path lp) (fun _ => I) I w.
Proof.
  intros Hst Hrm Hdel Hw. unfold delete_files.
  apply wp_with_local, wp_bind.
  eapply wp_mono; [apply (wp_for_each (fun s => I s.2) (fun s => I s.2)); [done|]| |done].
  - intros F [l w1] HF Hw1. apply wp_bind, wp_get_local; simpl.
    case_bool_decide; [by apply wp_ret|].
    apply wp_try, wp_bind, wp_lift, rmtree_wp.
    + apply wp_lift. by apply log_message_keeps.
    + intros t Ht HtF.
      eapply wp_mono; [eapply (cascade_keeps I); [done|]| |].
      * simpl in *. apply Hrm; try done. by apply sorted_by_depth_elem.
      * done.
      * intros [l' w']  Hw'. apply wp_lift. by apply log_message_keeps.
  - intros u st Hst'. simpl.
    apply (wp_for_each (fun s => I s.2) (fun s => I s.2)); [done|].
    intros g [l w1] Hg Hw1. apply wp_bind, wp_get_local; simpl.
    case_bool_decide; [by apply wp_ret|].
    apply wp_try, wp_bind, wp_lift, os_remove_wp.
    + apply wp_lift. by apply log_message_keeps.
    + intros t m d Ht Htg. apply wp_lift.
      eapply wp_mono; [eapply (log_message_keeps I); [done|]| |].
      * simpl in *. by eapply Hdel.
      * done.
      * intros w' Hw'. apply wp_lift. by apply log_message_keeps.
Qed.

Lemma create_files_keeps (I : world -> Prop) folders files sp dp lp w :
  output_stable I ->
  (forall w s d d' F, F ∈ folders -> source w = Some s -> replica w = Some d ->
     s !! F = Some Dir -> d !! F = None -> makedirs d (Path.ancestors F) = Some d' -> I w ->
     I (set_replica (filter (fun kv => Path.within F kv.1 = true) s ∪ d') w)) ->
  (forall w s d m c target g, g ∈ files -> source w = Some s -> replica w = Some d ->
     s !! g = Some (File m c) ->
     (target = g /\ d !! g <> Some Dir \/
      target = Path.join g (Path.basename g) /\ d !! g = Some Dir) ->
     d !! target <> Some Dir -> I w ->
     I (set_replica (<[target := File m c]> d) w)) ->
  I w ->
  wp (create_files os folders files sp dp lp) (fun _ => I) I w.
Proof.
  intros Hst Htree Hcopy Hw. unfold create_files.
  apply wp_with_local, wp_bind.
  eapply wp_mono; [apply (wp_for_each (fun s => I s.2) (fun s => I s.2)); [done|]| |done].
  - intros F [l w1] HF Hw1. apply wp_bind, wp_get_local; simpl.
    case_bool_decide; [by apply wp_ret|].
    apply wp_try, wp_bind, wp_lift, copytree_wp.
    + apply wp_lift. by apply log_message_keeps.
    + intros s d d' Hs Hd HsF HdF Hmk.
      eapply wp_mono; [eapply (cascade_keeps I); [done|]| |].
      * simpl in *. eapply Htree; try done. by apply sorted_by_depth_elem.
      * done.
      * intros [l' w']  Hw'. apply wp_lift. by apply log_message_keeps.
  - intros u st Hst'. simpl.
    apply (wp_for_each (fun s => I s.2) (fun s => I s.2)); [done|].
    intros g [l w1] Hg Hw1. apply wp_bind, wp_get_local; simpl.
    case_bool_decide; [by apply wp_ret|].
    apply wp_try, wp_bind, wp_lift, copy2_wp.
    + apply wp_lift. by apply log_message_keeps.
    + intros s d m c target Hs' Hd Hsg Hf Ht Hn. apply wp_lift.
      eapply wp_mono; [eapply (log_message_keeps I); [done|]| |].
      * simpl in *. by eapply Hcopy.
      * done.
      * intros w' Hw'. apply wp_lift. by apply log_message_keeps.
Qed.

Lemma update_files_keeps_always (I : world -> Prop) files sp dp lp w :
  output_stable I ->
  (forall w s d m c target g, g ∈ files -> source w = Some s -> replica w = Some d ->
     s !! g = Some (File m c) ->
     (target = g /\ d !! g <> Some Dir \/
      target = Path.join g (Path.basename g) /\ d !! g = Some Dir) ->
     d !! target <> Some Dir -> I w ->
     I (set_replica (<[target := File m c]> d) w)) ->
  I w ->
  wp (update_files os files sp dp lp) (fun _ => I) I w.
Proof.
  intros Hst Hcopy Hw. unfold update_files.
  apply (wp_for_each I I); [done|].
  intros g w1 Hg Hw1.
  apply wp_bind. unfold wp at 1.
  destruct (getmtime_cases os Src (Path.join sp g) g w1) as [->|(t1 & n1 & _ & _ & ->)]; [done|].
  apply wp_bind. unfold wp at 1.
  destruct (getmtime_cases os Rep (Path.join dp g) g w1) as [->|(t2 & n2 & _ & _ & ->)]; [done|].
  case_bool_decide; [|by apply wp_ret].
  apply wp_try, wp_bind, copy2_wp.
  - by apply log_message_keeps.
  - intros s' d' m c target Hs' Hd' Hsg' Hf Ht Hn.
    eapply wp_mono; [eapply (log_message_keeps I); [done|]| |].
    + by eapply Hcopy.
    + done.
    + intros w' Hw'. by apply log_message_keeps.
Qed.

End Keeps.

Lemma output_stable_on_trees P : output_stable (on_trees P).
Proof. split; [apply on_trees_print | apply on_trees_log]. Qed.

(** From [wp] with the same condition on both exits to the final state. *)
Lemma wp_final {S A} (m : M S A) (I : S -> Prop) s :
  wp m (fun _ => I) I s -> I (m s).2.
Proof. unfold wp. by destruct (m s) as [[a|] s']. Qed.

(** ** One-way: where a cycle writes *)

Section OneWay.

Variable os : os_oracle.
Variable rp : string.
Hypothesis Href : writes_refused_under os rp.

Lemma refused_log_error (I : world -> Prop) text lp w :
  stable_logging error_level I -> good I w ->
  wp (log_message text ERROR (Some lp)) (fun _ => good I) (fun _ => False) w.
Proof. intros Hst Hw. by apply (log_message_good error_level I). Qed.

Lemma refused_deletion (I : world -> Prop) folders files lp w :
  stable_logging error_level I -> good I w ->
  wp (delete_files os folders files rp lp) (fun _ => good I) (fun _ => False) w.
Proof.
  intros Hst Hw. unfold delete_files. apply wp_with_local, wp_bind.
  eapply wp_mono; [apply (wp_for_each (fun s => good I s.2) (fun _ => False)); [done|]| |done].
  - intros F [l w1] _ Hw1. apply wp_bind, wp_get_local; simpl.
    case_bool_decide; [by apply wp_ret|].
    apply wp_try, wp_bind, wp_lift. unfold wp at 1.
    assert (rmtree os (Path.join rp F) F w1 = (Raised, w1)) as ->
      by (unfold rmtree; by rewrite Href).
    apply wp_lift. eapply wp_mono; [by apply refused_log_error| |]; done.
  - intros u st Hst'. simpl.
    apply (wp_for_each (fun s => good I s.2) (fun _ => False)); [done|].
    intros g [l w1] _ Hw1. apply wp_bind, wp_get_local; simpl.
    case_bool_decide; [by apply wp_ret|].
    apply wp_try, wp_bind, wp_lift. unfold wp at 1.
    assert (os_remove os (Path.join rp g) g w1 = (Raised, w1)) as ->
      by (unfold os_remove; by rewrite Href).
    apply wp_lift. eapply wp_mono; [by apply refused_log_error| |]; done.
Qed.

Lemma refused_creation (I : world -> Prop) folders files sp lp w :
  stable_logging error_level I -> good I w ->
  wp (create_files os folders files sp rp lp) (fun _ => good I) (fun _ => False) w.
Proof.
  intros Hst Hw. unfold create_files. apply wp_with_local, wp_bind.
  eapply wp_mono; [apply (wp_for_each (fun s => good I s.2) (fun _ => False)); [done|]| |done].
  - intros F [l w1] _ Hw1. apply wp_bind, wp_get_local; simpl.
    case_bool_decide; [by apply wp_ret|].
    apply wp_try, wp_bind, wp_lift. unfold wp at 1.
    assert (copytree os (Path.join sp F) (Path.join rp F) F w1 = (Raised, w1)) as ->
      by (unfold copytree; by rewrite Href).
    apply wp_lift. eapply wp_mono; [by apply refused_log_error| |]; done.
  - intros u st Hst'. simpl.
    apply (wp_for_each (fun s => good I s.2) (fun _ => False)); [done|].
    intros g [l w1] _ Hw1. apply wp_bind, wp_get_local; simpl.
    case_bool_decide; [by apply wp_ret|].
    apply wp_try, wp_bind, wp_lift. unfold wp at 1.
    assert (copy2 os (Path.join sp g) (Path.join rp g) g w1 = (Raised, w1)) as ->
      by (unfold copy2; by rewrite Href).
    apply wp_lift. eapply wp_mono; [by apply refused_log_error| |]; done.
Qed.

Lemma refused_update (I : world -> Prop) files sp lp w :
  stable_logging error_level I -> good I w ->
  wp (update_files os files sp rp lp) (fun _ => good I) (good I) w.
Proof.
  intros Hst Hw. unfold update_files.
  apply (wp_for_each (good I) (good I)); [done|].
  intros g w1 _ Hw1.
  apply wp_bind. unfold wp at 1.
  destruct (getmtime_cases os Src (Path.join sp g) g w1) as [->|(t1 & n1 & _ & _ & ->)]; [done|].
  apply wp_bind. unfold wp at 1.
  destruct (getmtime_cases os Rep (Path.join rp g) g w1) as [->|(t2 & n2 & _ & _ & ->)]; [done|].
  case_bool_decide; [|by apply wp_ret].
  apply wp_try, wp_bind. unfold wp at 1.
  assert (copy2 os (Path.join sp g) (Path.join rp g) g w1 = (Raised, w1)) as ->
    by (unfold copy2; by rewrite Href).
  eapply wp_mono; [by apply refused_log_error| |]; done.
Qed.

(** X1. A cycle asks for every write at a path below the replica path.
    Whatever the world, the other arguments and the other calls do: when
    the system refuses every removal and every copy whose target is the
    replica path joined with a relative path, no removal and no copy of the
    cycle goes through; every line that the cycle prints is an ERROR line,
    none says DELETED, CREATED or UPDATED. *)
Theorem cycle_writes_below_replica_path sp lp w :
  printed_only error_level w (sync_folders os sp rp lp w).2.
Proof.
  destruct (monitored_paths_exist_dec w) as [Hmon|Hno].
  - rewrite (sync_folders_run os sp rp lp w Hmon).
    assert (good (printed_only error_level w) w) as Hw.
    { split; [|apply printed_only_refl]. destruct Hmon as (_ & [ls Hl] & _). by rewrite Hl. }
    pose proof (printed_only_logging error_level w) as Hst.
    apply (wp_final _ (good (printed_only error_level w))), wp_bind.
    eapply wp_mono; [by apply refused_deletion| |done].
    intros u1 w1 Hw1. simpl. apply wp_bind.
    eapply wp_mono; [by apply refused_creation| |done].
    intros u2 w2 Hw2. simpl. apply wp_bind.
    eapply wp_mono; [by apply refused_update| |done].
    intros u3 w3 Hw3. by apply wp_ret.
  - rewrite (sync_folders_teardown os sp rp lp w Hno). apply printed_only_refl.
Qed.

End OneWay.

Lemma makedirs_lookup (t t' : gmap string node) dirs p n :
  makedirs t dirs = Some t' -> t' !! p = Some n -> t !! p = Some n \/ n = Dir.
Proof.
  revert t. induction dirs as [|a dirs IH]; intros t Hmk Hp; simpl in Hmk.
  - injection Hmk as <-. by left.
  - destruct (t !! a) as [[m dat|]|] eqn:Ha; [done|by apply IH|].
    destruct (IH _ Hmk Hp) as [H|H]; [|by right].
    destruct (decide (a = p)) as [->|Hne].
    + rewrite lookup_insert_eq in H. injection H as <-. by right.
    + rewrite lookup_insert_ne in H by done. by left.
Qed.

Section Monotone.

Variable os : os_oracle.

(** X2. The Deletion Applier only removes: whatever the oracle and its
    arguments, and whether it returns or raises, every entry of the replica
    afterwards is an entry it had before, unchanged. *)
Theorem delete_files_only_removes folders files path lp w t :
  replica w = Some t ->
  exists t', replica (delete_files os folders files path lp w).2 = Some t' /\ t' ⊆ t.
Proof.
  intros Ht.
  apply (wp_final _ (on_trees (fun _ ro => exists t', ro = Some t' /\ t' ⊆ t))).
  apply delete_files_keeps.
  - apply output_stable_on_trees.
  - intros w1 t1 F _ Ht1 _ (t' & Hr & Hsub). unfold on_trees in *. simpl.
    rewrite Ht1 in Hr. injection Hr as <-.
    eexists. split; [done|]. etrans; [apply map_filter_subseteq|done].
  - intros w1 t1 g m d _ Ht1 _ (t' & Hr & Hsub). unfold on_trees in *. simpl.
    rewrite Ht1 in Hr. injection Hr as <-.
    eexists. split; [done|]. etrans; [apply delete_subseteq|done].
  - by exists t.
Qed.

Lemma only_added_copytree w t w1 s d d' F :
  source w1 = Some s -> replica w1 = Some d -> makedirs d (Path.ancestors F) = Some d' ->
  only_added w t w1 ->
  only_added w t (set_replica (filter (fun kv => Path.within F kv.1 = true) s ∪ d') w1).
Proof.
  intros Hs Hd Hmk (Hso & t' & Hr & Hdom & Hacc). unfold only_added, on_trees in *. simpl.
  rewrite Hd in Hr. injection Hr as <-. split; [done|].
  eexists. split; [done|]. split.
  - intros p Hp. apply lookup_union_is_Some. right. eapply makedirs_is_Some; eauto.
  - intros p n Hp. apply lookup_union_Some_raw in Hp as [Hp|[_ Hp]].
    + apply map_lookup_filter_Some in Hp as [Hp _].
      right. right. exists s, p. by rewrite <- Hso, Hs.
    + destruct (makedirs_lookup _ _ _ _ _ Hmk Hp) as [H|H]; [by apply Hacc|].
      right. by left.
Qed.

Lemma only_added_copy2 w t w1 s d m c target g :
  source w1 = Some s -> replica w1 = Some d -> s !! g = Some (File m c) ->
  only_added w t w1 ->
  only_added w t (set_replica (<[target := File m c]> d) w1).
Proof.
  intros Hs Hd Hg (Hso & t' & Hr & Hdom & Hacc). unfold only_added, on_trees in *. simpl.
  rewrite Hd in Hr. injection Hr as <-. split; [done|].
  eexists. split; [done|]. split.
  - intros p Hp. apply lookup_insert_is_Some'. right. by apply Hdom.
  - intros p n Hp. destruct (decide (target = p)) as [->|Hne].
    + rewrite lookup_insert_eq in Hp. injection Hp as <-.
      right. right. exists s, g. by rewrite <- Hso, Hs.
    + rewrite lookup_insert_ne in Hp by done. by apply Hacc.
Qed.

Lemma only_added_start w t : replica w = Some t -> only_added w t w.
Proof.
  intros Ht. unfold only_added, on_trees. split; [done|].
  exists t. split_and!; try done. intros p n Hp. by left.
Qed.

(** X3. The Creation and the Update Applier only add and overwrite:
    whatever the oracle and their arguments, and whether they return or
    raise, no path of the replica is lost.  When no copy is cut short, that
    is when no [copytree] and no [copy2] fails for a reason outside the
    trees, every entry of the replica afterwards was there before, or is a
    directory, or is an entry of the source. *)
Theorem create_and_update_only_add w t :
  replica w = Some t ->
  (forall folders files sp dp lp,
     exists t', replica (create_files os folders files sp dp lp w).2 = Some t' /\
       (forall p, is_Some (t !! p) -> is_Some (t' !! p)) /\
       (copies_complete os -> accounted (source w) t t')) /\
  (forall files sp dp lp,
     exists t', replica (update_files os files sp dp lp w).2 = Some t' /\
       (forall p, is_Some (t !! p) -> is_Some (t' !! p)) /\
       (copies_complete os -> accounted (source w) t t')).
Proof.
  intros Ht. split.
  - intros folders files sp dp lp.
    assert (only_added w t (create_files os folders files sp dp lp w).2)
      as (_ & t' & Hr & Hdom & Hacc).
    { apply wp_final, create_files_keeps.
      - apply output_stable_on_trees.
      - intros. by eapply only_added_copytree.
      - intros. by eapply only_added_copy2.
      - by apply only_added_start. }
    exists t'. split; [exact Hr|]. split; [exact Hdom|]. intros _. exact Hacc.
  - intros files sp dp lp.
    assert (only_added w t (update_files os files sp dp lp w).2)
      as (_ & t' & Hr & Hdom & Hacc).
    { apply wp_final, update_files_keeps_always.
      - apply output_stable_on_trees.
      - intros. by eapply only_added_copy2.
      - by apply only_added_start. }
    exists t'. split; [exact Hr|]. split; [exact Hdom|]. intros _. exact Hacc.
Qed.

End Monotone.

(** ** The snapshot and the diff *)

(** X4. A snapshot lists every entry of the tree once: the files and the
    folders have no duplicates and share no path, a path is among the files
    exactly when the tree holds a file there and among the folders exactly
    when it holds a directory there; the snapshot of a path that does not
    exist is empty, without an error; and the world is left as it was. *)
Theorem snapshot_lists_every_entry_once r w :
  exists files folders,
    get_all_files_and_folders r w = (Done (files, folders), w) /\
    NoDup files /\ NoDup folders /\ (forall p, p ∈ files -> p ∉ folders) /\
    match store r w with
    | Some t => forall p, (p ∈ files <-> exists m d, t !! p = Some (File m d)) /\
                          (p ∈ folders <-> t !! p = Some Dir)
    | None => files = [] /\ folders = []
    end.
Proof.
  exists (snapshot (store r w)).1, (snapshot (store r w)).2.
  split; [rewrite get_all_files_and_folders_eq; by destruct (snapshot _)|].
  destruct (store r w) as [t|]; simpl.
  - split_and!.
    + apply NoDup_files_of.
    + apply NoDup_folders_of.
    + intros p Hf Hd. apply elem_of_files_of in Hf as (m & d & Hf).
      apply elem_of_folders_of in Hd. congruence.
    + intros p. split; [apply elem_of_files_of | apply elem_of_folders_of].
  - split_and!; try done; try constructor. intros p H. inversion H.
Qed.

(** X5. The diff sorts every path of the two snapshots: a file of the
    source is to create or common, never both; a file of the replica is to
    delete or common, never both; no path is to delete and to create as a
    file, nor as a folder.  But a path that is a folder in the replica and
    a file in the source (or the other way round) is both to delete and to
    create. *)
Theorem diff_sorts_the_snapshots w s t :
  source w = Some s -> replica w = Some t ->
  let d := cycle_diff w in
  forall x,
    ((exists m c, s !! x = Some (File m c)) <->
       x ∈ created_files d /\ x ∉ common_files d \/ x ∈ common_files d /\ x ∉ created_files d) /\
    ((exists m c, t !! x = Some (File m c)) <->
       x ∈ deleted_files d /\ x ∉ common_files d \/ x ∈ common_files d /\ x ∉ deleted_files d) /\
    ~ (x ∈ deleted_files d /\ x ∈ created_files d) /\
    ~ (x ∈ deleted_folders d /\ x ∈ created_folders d) /\
    (x ∈ deleted_folders d /\ x ∈ created_files d <->
       t !! x = Some Dir /\ exists m c, s !! x = Some (File m c)) /\
    (x ∈ deleted_files d /\ x ∈ created_folders d <->
       (exists m c, t !! x = Some (File m c)) /\ s !! x = Some Dir).
Proof.
  intros Hs Ht d x. unfold d, cycle_diff, compute_diff, set_difference, set_intersection.
  rewrite Hs, Ht. simpl.
  rewrite !list_elem_of_difference, !list_elem_of_intersection,
    !elem_of_files_of, !elem_of_folders_of.
  assert ((exists (m : Z) (c : string), s !! x = Some (File m c)) \/
          ~ (exists (m : Z) (c : string), s !! x = Some (File m c))) as HA.
  { destruct (s !! x) as [[m c|]|]; [left; eauto| |]; right; intros (? & ? & ?); congruence. }
  assert ((exists (m : Z) (c : string), t !! x = Some (File m c)) \/
          ~ (exists (m : Z) (c : string), t !! x = Some (File m c))) as HB.
  { destruct (t !! x) as [[m c|]|]; [left; eauto| |]; right; intros (? & ? & ?); congruence. }
  assert ((exists (m : Z) (c : string), s !! x = Some (File m c)) -> s !! x <> Some Dir) as HAC.
  { intros (? & ? & ->). congruence. }
  assert ((exists (m : Z) (c : string), t !! x = Some (File m c)) -> t !! x <> Some Dir) as HBD.
  { intros (? & ? & ->). congruence. }
  revert HA HB HAC HBD.
  generalize (exists (m : Z) (c : string), s !! x = Some (File m c)).
  generalize (exists (m : Z) (c : string), t !! x = Some (File m c)).
  generalize (s !! x = Some Dir). generalize (t !! x = Some Dir).
  unfold not. tauto.
Qed.

(** ** A cycle on trees that are in step *)

Lemma list_difference_nil (l k : list string) :
  (forall x, x ∈ l -> x ∈ k) -> list_difference l k = [].
Proof.
  induction l as [|a l IH]; intros H; simpl; [done|].
  destruct (decide_rel elem_of a k) as [_|Hn]; [|destruct Hn; apply H; by left].
  apply IH. intros x Hx. apply H. by right.
Qed.

Lemma in_step_files (s t : gmap string node) x :
  in_step s t -> (x ∈ files_of s <-> x ∈ files_of t).
Proof.
  intros H. specialize (H x). rewrite !elem_of_files_of.
  destruct (s !! x) as [[m c|]|], (t !! x) as [[m' c'|]|]; try done;
    split; intros (? & ? & ?); eauto; congruence.
Qed.

Lemma in_step_folders (s t : gmap string node) x :
  in_step s t -> (x ∈ folders_of s <-> x ∈ folders_of t).
Proof.
  intros H. specialize (H x). rewrite !elem_of_folders_of.
  by destruct (s !! x) as [[m c|]|], (t !! x) as [[m' c'|]|].
Qed.

Lemma update_files_in_step os files sp dp lp w s t :
  source w = Some s -> replica w = Some t -> in_step s t ->
  (forall f, f ∈ files -> f ∈ files_of s /\
     fails os Getmtime (Path.join sp f) = false /\ fails os Getmtime (Path.join dp f) = false) ->
  update_files os files sp dp lp w = (Done tt, w).
Proof.
  intros Hs Ht Hstep. rewrite update_files_unfold.
  induction files as [|f files IH]; intros Hf; [done|].
  cbn [for_each].
  destruct (Hf f) as (Hin & Hf1 & Hf2); [by left|].
  apply elem_of_files_of in Hin as (m & c & Hsf).
  pose proof (Hstep f) as Hk. rewrite Hsf in Hk.
  destruct (t !! f) as [[m' c'|]|] eqn:Htf; try done. subst m'.
  erewrite bind_Done; [apply IH; intros g Hg; apply Hf; by right|].
  unfold update_step.
  erewrite bind_Done; [|unfold getmtime; simpl; by rewrite Hf1, Hs, Hsf].
  erewrite bind_Done; [|unfold getmtime; simpl; by rewrite Hf2, Ht, Htf].
  by rewrite bool_decide_eq_false_2 by (intros H; by apply H).
Qed.

Lemma idle_cycle os sp rp lp w s t :
  source w = Some s -> replica w = Some t -> (exists ls, log_file w = Some (Some ls)) ->
  in_step s t ->
  (forall f, f ∈ files_of s ->
     fails os Getmtime (Path.join sp f) = false /\ fails os Getmtime (Path.join rp f) = false) ->
  sync_folders os sp rp lp w = (Done true, w).
Proof.
  intros Hs Ht [ls Hl] Hstep Hstat.
  rewrite sync_folders_run by (unfold monitored_paths_exist; rewrite Hs, Ht, Hl; eauto).
  unfold cycle_diff, compute_diff, deletion, creation, update,
    set_difference, set_intersection.
  rewrite Hs, Ht. simpl.
  rewrite !list_difference_nil
    by (intros x; pose proof (in_step_files s t x Hstep);
        pose proof (in_step_folders s t x Hstep); tauto).
  erewrite bind_Done; [|reflexivity].
  erewrite bind_Done; [|reflexivity].
  erewrite bind_Done; [done|].
  eapply update_files_in_step; eauto.
  intros f Hf. apply list_elem_of_intersection in Hf as [Hf _]. auto.
Qed.

(** X6. A cycle on trees that are in step does nothing: when the source
    and the replica hold the same paths with the same kinds and their files
    have the same modification times, the log file exists, and the
    modification times of the source's files can be read on both sides, the
    cycle returns [True] and leaves the whole world as it was: no entry is
    touched (also when the contents of a file differ), nothing is printed
    and nothing is written to the log file. *)
Theorem in_step_cycle_is_idle os sp rp lp w s t :
  source w = Some s -> replica w = Some t -> (exists ls, log_file w = Some (Some ls)) ->
  in_step s t ->
  (forall f, f ∈ files_of s ->
     fails os Getmtime (Path.join sp f) = false /\ fails os Getmtime (Path.join rp f) = false) ->
  sync_folders os sp rp lp w = (Done true, w).
Proof. apply idle_cycle. Qed.

(** ** What a cycle prints and logs *)

Lemma logged_since_refl w : logged_since w w.
Proof.
  exists []. split_and!; [unfold printed; by rewrite app_nil_r| |constructor].
  destruct (log_file w) as [[old|]|]; simpl; by rewrite ?app_nil_r.
Qed.

Lemma logged_since_logging w : stable_logging cycle_level (logged_since w).
Proof.
  intros w' ty text path Hty Hlog (ls & Hpr & Hfile & Hall).
  exists (ls ++ [(ty, text)]). unfold log_message, printed in *; simpl.
  assert (Forall (fun l : line => cycle_level l.1) (ls ++ [(ty, text)])) as Hall'.
  { apply Forall_app. split; [done|]. by constructor. }
  destruct (log_file w') as [[old'|]|] eqn:Hw'; [| |done]; simpl.
  - split_and!; [by rewrite Hpr, app_assoc| |done].
    destruct (log_file w) as [[old|]|]; simpl in *; [| |done].
    + injection Hfile as ->. by rewrite app_assoc.
    + destruct ls; [done|]. by injection Hfile as ->.
  - split_and!; [by rewrite Hpr, app_assoc| |done].
    destruct (log_file w) as [[old|]|]; simpl in *; [done| |done].
    by destruct ls.
Qed.

Lemma stable_logging_weaken (allowed allowed' : msg_type -> Prop) I :
  (forall ty, allowed' ty -> allowed ty) -> stable_logging allowed I -> stable_logging allowed' I.
Proof. intros Hsub H w ty text path Hty. apply H. by apply Hsub. Qed.

Lemma cycle_logged os sp rp lp w :
  logged_since w (sync_folders os sp rp lp w).2.
Proof.
  destruct (monitored_paths_exist_dec w) as [Hmon|Hno].
  - rewrite (sync_folders_run os sp rp lp w Hmon).
    assert (good (logged_since w) w) as Hstart.
    { split; [|apply logged_since_refl]. destruct Hmon as ([x Hx] & _). by rewrite Hx. }
    cut (good (logged_since w)
           ((deletion os rp lp (cycle_diff w);; creation os sp rp lp (cycle_diff w);;
             update os sp rp lp (cycle_diff w);; mret true) w).2); [by intros [_ H]|].
    apply wp_final, wp_bind.
    eapply wp_mono; [eapply (delete_files_good os (logged_since w)); [| | |done]| |done].
    + eapply stable_logging_weaken; [|apply logged_since_logging].
      unfold deletion_level, cycle_level. tauto.
    + by intros.
    + by intros.
    + intros u1 w1 Hw1. simpl. apply wp_bind.
      eapply wp_mono; [eapply (create_files_good os (logged_since w)); [| | |done]| |done].
      * eapply stable_logging_weaken; [|apply logged_since_logging].
        unfold creation_level, cycle_level. tauto.
      * by intros.
      * by intros.
      * intros u2 w2 Hw2. simpl. apply wp_bind.
        eapply wp_mono; [eapply (update_files_keeps os (logged_since w)); [| |done]| |done].
        -- eapply stable_logging_weaken; [|apply logged_since_logging].
           unfold update_level, cycle_level. tauto.
        -- by intros.
        -- intros u3 w3 Hw3. by apply wp_ret.
  - rewrite (sync_folders_teardown os sp rp lp w Hno). apply logged_since_refl.
Qed.

(** X7. Whatever a cycle prints it also writes to the log file: for every
    oracle and every world, and whether the cycle returns or raises, the
    lines printed during the cycle are the lines appended to the log file,
    in the same order and after what the file held, and each of them has the
    level DELETED, CREATED, UPDATED or ERROR. *)
Theorem cycle_output_is_logged os sp rp lp w :
  let w' := (sync_folders os sp rp lp w).2 in
  exists ls, printed w w' ls /\ log_file w' = log_after (log_file w) ls /\
    Forall (fun l : line => l.1 = DELETED \/ l.1 = CREATED \/ l.1 = UPDATED \/ l.1 = ERROR) ls.
Proof.
  intros w'. pose proof (cycle_logged os sp rp lp w) as H.
  unfold logged_since, cycle_level in H. exact H.
Qed.

(** ** Paths, once more *)

Lemma string_app_assoc (a b c : string) : ((a ++ b) ++ c = a ++ (b ++ c))%string.
Proof.
  induction a as [|x a IH]; [done|].
  change (String x ((a ++ b) ++ c) = String x (a ++ (b ++ c)))%string. by rewrite IH.
Qed.

Lemma string_app_nil_r (a : string) : (a ++ "")%string = a.
Proof.
  induction a as [|x a IH]; [done|].
  change (String x (a ++ "") = String x a)%string. by rewrite IH.
Qed.

Lemma within_refl F : Path.within F F = true.
Proof. unfold Path.within. by rewrite String.eqb_refl. Qed.

(** What lies in a folder has the folder's path in its name. *)
Lemma within_contains F x : Path.within F x = true -> Path.contains F x = true.
Proof.
  unfold Path.within, Path.is_under. intros H. apply orb_true_iff in H as [H|H].
  - apply String.eqb_eq in H as <-. apply contains_spec. exists "", "".
    change (F = F ++ "")%string. by rewrite string_app_nil_r.
  - apply startswith_spec in H as [rest ->]. apply contains_spec.
    exists "", ("/" ++ rest)%string.
    change ((F ++ "/") ++ rest = F ++ "/" ++ rest)%string. by rewrite string_app_assoc.
Qed.

Lemma collision_free_spec folders items F x :
  collision_free folders items = true -> F ∈ folders -> x ∈ items ->
  (Path.contains F x = true <-> Path.within F x = true).
Proof.
  intros H HF Hx. split; [|apply within_contains].
  unfold collision_free in H. rewrite forallb_forall in H.
  specialize (H F (proj1 (list_elem_of_In _ _) HF)). rewrite forallb_forall in H.
  specialize (H x (proj1 (list_elem_of_In _ _) Hx)).
  destruct (Path.contains F x); [|done]. simpl in H. by intros _.
Qed.

(** An ancestor has fewer separators. *)
Lemma ancestors_count_sep a p :
  a ∈ Path.ancestors p -> Path.count_sep a < Path.count_sep p.
Proof.
  revert a. induction p as [|c p IH]; intros a Ha; simpl in Ha; [inversion Ha|].
  apply elem_of_app in Ha as [Ha|Ha].
  - cbn [Path.count_sep]. destruct (Ascii.eqb c Path.sep); [|inversion Ha].
    apply list_elem_of_singleton in Ha as ->. simpl. lia.
  - apply list_elem_of_fmap in Ha as (a' & -> & Ha'). apply IH in Ha'.
    cbn [Path.count_sep]. lia.
Qed.

(** The directory that holds a path, when the path has one, is the
    innermost of its ancestors. *)
Lemma dirname_ancestors p :
  0 < Path.count_sep p -> Path.dirname p ∈ Path.ancestors p.
Proof.
  induction p as [|c p IH]; intros Hp; [simpl in Hp; lia|].
  cbn [Path.dirname Path.ancestors]. cbn [Path.count_sep] in Hp.
  destruct (0 <? Path.count_sep p)%nat eqn:Hc.
  - apply Nat.ltb_lt in Hc. apply elem_of_app. right.
    apply list_elem_of_fmap. exists (Path.dirname p). split; [done|]. by apply IH.
  - apply Nat.ltb_ge in Hc. apply elem_of_app. left.
    destruct (Ascii.eqb c Path.sep); [by left|lia].
Qed.

Lemma dirname_flat p : Path.count_sep p = 0 -> Path.dirname p = "".
Proof.
  destruct p as [|c p]; [done|]. cbn [Path.dirname Path.count_sep]. intros H.
  destruct (0 <? Path.count_sep p)%nat eqn:Hc; [|done].
  apply Nat.ltb_lt in Hc. lia.
Qed.

(** In a directory tree the parent of every entry is a directory. *)
Lemma parent_is_dir_intro (s d : gmap string node) g n :
  well_formed s -> s !! g = Some n ->
  (forall a, s !! a = Some Dir -> d !! a = Some Dir) ->
  parent_is_dir d g = true.
Proof.
  intros Hwf Hg Hd. unfold parent_is_dir. apply orb_true_iff.
  destruct (decide (Path.count_sep g = 0)) as [H0|H0].
  - left. by rewrite dirname_flat.
  - right. apply bool_decide_eq_true. apply Hd.
    specialize (Hwf g n Hg). simpl in Hwf. rewrite Forall_forall in Hwf.
    apply Hwf, dirname_ancestors. lia.
Qed.

Lemma makedirs_present (d : gmap string node) dirs :
  (forall a, a ∈ dirs -> d !! a = Some Dir) -> makedirs d dirs = Some d.
Proof.
  induction dirs as [|a dirs IH]; intros H; simpl; [done|].
  rewrite (H a) by (by left). apply IH. intros b Hb. apply H. by right.
Qed.

(** In a list sorted by depth, the ancestors of an element that are in the
    list come before it. *)
Lemma sorted_ancestor_seen (xs seen rest : list string) F A :
  Sorted shallower xs -> xs = seen ++ F :: rest -> A ∈ xs -> A ∈ Path.ancestors F ->
  A ∈ seen.
Proof.
  intros Hsort -> HA Hanc. apply ancestors_count_sep in Hanc.
  apply Sorted_StronglySorted in Hsort; [|intros x y z; unfold shallower; lia].
  apply elem_of_app in HA as [HA|HA]; [done|]. exfalso.
  assert (StronglySorted shallower (F :: rest)) as Hs.
  { clear -Hsort. induction seen as [|a seen IH]; [done|].
    apply IH. by apply StronglySorted_inv in Hsort as [? _]. }
  apply StronglySorted_inv in Hs as [_ Hall]. rewrite Forall_forall in Hall.
  apply elem_of_cons in HA as [->|HA]; [lia|].
  specialize (Hall A HA). unfold shallower in Hall. lia.
Qed.

(** ** Lookups after a recursive removal and a recursive copy *)

Lemma lookup_rmtree (t : gmap string node) F p :
  filter (fun kv : string * node => Path.within F kv.1 = false) t !! p =
  if Path.within F p then None else t !! p.
Proof.
  destruct (Path.within F p) eqn:Hw.
  - apply map_lookup_filter_None. right. intros n _. simpl. by rewrite Hw.
  - destruct (t !! p) as [n|] eqn:Hp.
    + by apply map_lookup_filter_Some.
    + apply map_lookup_filter_None. by left.
Qed.

Lemma lookup_copytree (s d : gmap string node) F p :
  (filter (fun kv : string * node => Path.within F kv.1 = true) s ∪ d) !! p =
  if Path.within F p then match s !! p with Some n => Some n | None => d !! p end
  else d !! p.
Proof.
  rewrite lookup_union. destruct (Path.within F p) eqn:Hw.
  - destruct (s !! p) as [n|] eqn:Hp.
    + rewrite (proj2 (map_lookup_filter_Some _ s p n)) by done.
      by destruct (d !! p).
    + rewrite (proj2 (map_lookup_filter_None _ s p)) by (by left).
      by destruct (d !! p).
  - rewrite (proj2 (map_lookup_filter_None _ s p)).
    + by destruct (d !! p).
    + right. intros n _. simpl. by rewrite Hw.
Qed.

(** ** The calls that succeed *)

Section Succeeds.

Variable os : os_oracle.
Hypothesis Hok : fault_free os.

Lemma rmtree_ok path rel w t :
  replica w = Some t -> t !! rel = Some Dir ->
  rmtree os path rel w =
    (Done tt, set_replica (filter (fun kv => Path.within rel kv.1 = false) t) w).
Proof. intros Hr Ht. unfold rmtree. by rewrite Hok, Hr, Ht. Qed.

Lemma os_remove_ok path rel w t m c :
  replica w = Some t -> t !! rel = Some (File m c) ->
  os_remove os path rel w = (Done tt, set_replica (delete rel t) w).
Proof. intros Hr Ht. unfold os_remove. by rewrite Hok, Hr, Ht. Qed.

Lemma copytree_ok src dst rel w s d :
  source w = Some s -> replica w = Some d -> s !! rel = Some Dir -> d !! rel = None ->
  (forall a, a ∈ Path.ancestors rel -> d !! a = Some Dir) ->
  copytree os src dst rel w =
    (Done tt, set_replica (filter (fun kv => Path.within rel kv.1 = true) s ∪ d) w).
Proof.
  intros Hs Hd Hrel Hno Hanc. unfold copytree.
  rewrite Hok, Hs, Hd, Hrel, Hno, (makedirs_present d _ Hanc).
  rewrite bool_decide_eq_false_2; [done|]. by intros [? ?].
Qed.

Lemma copy2_ok src dst rel w s d m c :
  source w = Some s -> replica w = Some d -> s !! rel = Some (File m c) ->
  d !! rel = None -> parent_is_dir d rel = true ->
  copy2 os src dst rel w = (Done tt, set_replica (<[rel := File m c]> d) w).
Proof.
  intros Hs Hd Hrel Hno Hpar. unfold copy2. by rewrite Hok, Hs, Hd, Hrel, Hno, Hpar.
Qed.

End Succeeds.

Lemma wp_eq {S A} (m : M S A) (Q : A -> S -> Prop) E s a s' :
  m s = (Done a, s') -> Q a s' -> wp m Q E s.
Proof. intros H HQ. unfold wp. by rewrite H. Qed.

(** ** The appliers on items that do not collide *)

Lemma bool_decide_ext_if {A} (P Q : Prop) `{!Decision P, !Decision Q} (a b : A) :
  (P <-> Q) -> (if bool_decide P then a else b) = (if bool_decide Q then a else b).
Proof. intros H. by rewrite (bool_decide_ext P Q H). Qed.

(** Two ancestors of a path: one is the other, or an ancestor of it. *)
Lemma ancestors_comparable x : forall a b,
  a ∈ Path.ancestors x -> b ∈ Path.ancestors x ->
  a = b \/ a ∈ Path.ancestors b \/ b ∈ Path.ancestors a.
Proof.
  induction x as [|c x IH]; intros a b Ha Hb; [inversion Ha|].
  cbn [Path.ancestors] in Ha, Hb.
  apply elem_of_app in Ha as [Ha|Ha], Hb as [Hb|Hb].
  - destruct (Ascii.eqb c Path.sep); [|inversion Ha].
    apply list_elem_of_singleton in Ha as ->. apply list_elem_of_singleton in Hb as ->.
    by left.
  - destruct (Ascii.eqb c Path.sep) eqn:Hc; [|inversion Ha].
    apply list_elem_of_singleton in Ha as ->.
    apply list_elem_of_fmap in Hb as (b' & -> & Hb').
    right. left. cbn [Path.ancestors]. rewrite Hc. apply elem_of_app. left. by left.
  - destruct (Ascii.eqb c Path.sep) eqn:Hc; [|inversion Hb].
    apply list_elem_of_singleton in Hb as ->.
    apply list_elem_of_fmap in Ha as (a' & -> & Ha').
    right. right. cbn [Path.ancestors]. rewrite Hc. apply elem_of_app. left. by left.
  - apply list_elem_of_fmap in Ha as (a' & -> & Ha').
    apply list_elem_of_fmap in Hb as (b' & -> & Hb').
    destruct (IH a' b' Ha' Hb') as [->|[H|H]]; [by left| |].
    + right. left. cbn [Path.ancestors]. apply elem_of_app. right.
      apply list_elem_of_fmap. by exists a'.
    + right. right. cbn [Path.ancestors]. apply elem_of_app. right.
      apply list_elem_of_fmap. by exists b'.
Qed.

Lemma within_cases d p : Path.within d p = true <-> d = p \/ d ∈ Path.ancestors p.
Proof.
  unfold Path.within. rewrite orb_true_iff, String.eqb_eq, is_under_ancestors. done.
Qed.

(** Two folders that hold the same path: one holds the other. *)
Lemma within_comparable A B x :
  Path.within A x = true -> Path.within B x = true ->
  Path.within A B = true \/ Path.within B A = true.
Proof.
  rewrite !within_cases. intros [->|HA] [->|HB]; auto.
  destruct (ancestors_comparable x A B HA HB) as [->|[H|H]]; auto.
Qed.

(** In a list sorted by depth, what comes before an element is no deeper. *)
Lemma sorted_seen_shallower (xs seen rest : list string) F y :
  Sorted shallower xs -> xs = seen ++ F :: rest -> y ∈ seen -> shallower y F.
Proof.
  intros Hsort -> Hy.
  apply Sorted_StronglySorted in Hsort; [|intros a b c; unfold shallower; lia].
  induction seen as [|a seen IH]; [inversion Hy|].
  simpl in Hsort. apply StronglySorted_inv in Hsort as [Hs Hall].
  apply elem_of_cons in Hy as [->|Hy]; [|by apply IH].
  rewrite Forall_forall in Hall. apply Hall. apply elem_of_app. right. by left.
Qed.

(** A folder whose removal or copy is a root, and an item that an earlier
    root reached: the item does not lie in the folder. *)
Lemma roots_do_not_overlap (xs seen rest : list string) F R x :
  Sorted shallower xs -> xs = seen ++ F :: rest -> R ∈ seen ->
  Path.within R x = true -> Path.within F x = true -> Path.within R F = true.
Proof.
  intros Hsort Hxs HR HRx HFx.
  destruct (within_comparable R F x HRx HFx) as [H|H]; [done|].
  apply within_cases in H as [->|H]; [apply within_refl|].
  apply ancestors_count_sep in H.
  pose proof (sorted_seen_shallower xs seen rest F R Hsort Hxs HR) as Hsh.
  unfold shallower in Hsh. lia.
Qed.

Lemma NoDup_set_add x (l : list string) : NoDup l -> NoDup (set_add x l).
Proof.
  intros H. unfold set_add. case_bool_decide; [done|]. by constructor.
Qed.

Lemma cascade_NoDup ty folder items path lp : forall handled w handled' w',
  cascade ty folder items path lp (handled, w) = (Done tt, (handled', w')) ->
  NoDup handled -> NoDup handled'.
Proof.
  induction items as [|i items IH]; intros handled w handled' w' Hrun Hnd.
  - injection Hrun as <- _. done.
  - unfold cascade in Hrun. cbn [for_each] in Hrun.
    fold (cascade ty folder items path lp) in Hrun.
    destruct (Path.contains folder i).
    + unfold mbind at 1, M_bind at 1, bind at 1 in Hrun.
      unfold mbind at 1, M_bind at 1, bind at 1, modify_local, lift in Hrun. simpl in Hrun.
      destruct (log_message (Path.join path i) ty (Some lp) w) as [[[]|] w1]; [|done].
      eapply IH; [exact Hrun|]. by apply NoDup_set_add.
    + unfold mbind at 1, M_bind at 1, bind at 1 in Hrun. simpl in Hrun.
      by eapply IH.
Qed.

(** The cascade loop, as a rule: it returns, marks the items that have the
    folder's path in their name, prints a line for each, and leaves the
    trees. *)
Lemma cascade_rule ty folder items path lp handled w
    (Q : unit -> list string * world -> Prop) E :
  log_file w <> None -> NoDup handled ->
  (forall handled' w',
     (forall x, x ∈ handled' <-> x ∈ handled \/ x ∈ items /\ Path.contains folder x = true) ->
     NoDup handled' ->
     printed w w' ((fun i => (ty, Path.join path i)) <$>
                   filter (fun i => Path.contains folder i = true) items) ->
     source w' = source w -> replica w' = replica w -> log_file w' <> None ->
     Q tt (handled', w')) ->
  wp (cascade ty folder items path lp) Q E (handled, w).
Proof.
  intros Hlog Hnd HQ.
  destruct (cascade_marks ty folder items path lp handled w Hlog)
    as (h' & w' & Heq & Hin & Hpr & Hs & Hr & Hl).
  eapply wp_eq; [exact Heq|]. apply HQ; try done.
  by eapply cascade_NoDup.
Qed.

Lemma log_message_rule text ty path w (Q : unit -> world -> Prop) E :
  log_file w <> None ->
  (forall w', printed w w' [(ty, text)] -> source w' = source w -> replica w' = replica w ->
     log_file w' <> None -> Q tt w') ->
  wp (log_message text ty (Some path)) Q E w.
Proof.
  intros Hlog HQ. destruct (log_message_eq text ty path w Hlog) as [ls Heq].
  eapply wp_eq; [exact Heq|]. by apply HQ.
Qed.

Lemma printed_app w w1 w2 ls l2 :
  printed w w1 ls -> stdout w2 = stdout w1 ++ l2 -> printed w w2 (ls ++ l2).
Proof. unfold printed. intros H1 H2. by rewrite H2, H1, app_assoc. Qed.

(** The handled items and the files that the file loop still handles are
    the items, each once. *)
Lemma handled_and_rest (folders files h : list string) :
  NoDup folders -> NoDup files -> (forall x, x ∈ folders -> x ∉ files) ->
  NoDup h -> (forall x, x ∈ h -> x ∈ folders \/ x ∈ files) ->
  (forall x, x ∈ folders -> x ∈ h) ->
  h ++ filter (fun g => g ∉ h) files ≡ₚ folders ++ files.
Proof.
  intros Hndf Hndg Hdis Hndh Hsub Hfo. apply NoDup_Permutation.
  - apply NoDup_app. split_and!; [done| |by apply NoDup_filter].
    intros x Hx Hin. by apply list_elem_of_filter in Hin as [Hn _].
  - apply NoDup_app. by split_and!.
  - intros x. rewrite !elem_of_app, list_elem_of_filter. split.
    + intros [Hx|[_ Hx]]; [by apply Hsub|by right].
    + intros [Hx|Hx]; [left; by apply Hfo|].
      destruct (decide (x ∈ h)); [by left|by right].
Qed.


Section Complete.

Variable os : os_oracle.
Hypothesis Hok : fault_free os.

(** When nothing fails and no item collides with a folder to delete, the
    Deletion Applier returns and removes the given items, all of them and
    nothing else, and prints one line for each of them. *)
Lemma delete_files_complete folders files path lp w t :
  replica w = Some t -> log_file w <> None ->
  NoDup folders -> NoDup files -> (forall x, x ∈ folders -> x ∉ files) ->
  (forall F, F ∈ folders -> t !! F = Some Dir) ->
  (forall g, g ∈ files -> exists m c, t !! g = Some (File m c)) ->
  (forall F p, F ∈ folders -> is_Some (t !! p) -> Path.within F p = true ->
     p ∈ folders \/ p ∈ files) ->
  collision_free folders (set_union folders files) = true ->
  exists w' t', delete_files os folders files path lp w = (Done tt, w') /\
    source w' = source w /\ log_file w' <> None /\ replica w' = Some t' /\
    (forall p, t' !! p = if bool_decide (p ∈ folders \/ p ∈ files) then None else t !! p) /\
    exists ls, printed w w' ls /\
      ls ≡ₚ (fun x => (DELETED, Path.join path x)) <$> (folders ++ files).
Proof.
  intros Hr Hlog Hndf Hnd Hdis Hfo Hfi Hclo Hcf.
  set (line := fun x : string => (DELETED, Path.join path x)).
  assert (forall x, x ∈ folders \/ x ∈ files -> is_Some (t !! x)) as Hitems.
  { intros x [Hx|Hx]; [rewrite (Hfo x Hx); eauto|].
    destruct (Hfi x Hx) as (m & c & ->). eauto. }
  pose (Inv1 := fun (seen : list string) (st : list string * world) =>
    source st.2 = source w /\ log_file st.2 <> None /\
    (exists tc, replica st.2 = Some tc /\
      (forall p, tc !! p = None \/ tc !! p = t !! p) /\
      (forall x, x ∈ folders \/ x ∈ files -> (x ∈ st.1 <-> tc !! x = None)) /\
      (forall p, ~ (p ∈ folders \/ p ∈ files) -> tc !! p = t !! p)) /\
    (forall F, F ∈ seen -> F ∈ st.1) /\
    NoDup st.1 /\ (forall x, x ∈ st.1 -> x ∈ folders \/ x ∈ files) /\
    (forall x, x ∈ st.1 -> exists R, R ∈ seen /\ Path.within R x = true /\
       forall y, y ∈ folders \/ y ∈ files -> Path.within R y = true -> y ∈ st.1) /\
    exists ls, printed w st.2 ls /\ ls ≡ₚ line <$> st.1).
  cut (wp (delete_files os folders files path lp)
         (fun _ w' => source w' = source w /\ log_file w' <> None /\
            (exists t', replica w' = Some t' /\
              forall p, t' !! p = if bool_decide (p ∈ folders \/ p ∈ files)
                                  then None else t !! p) /\
            exists ls, printed w w' ls /\ ls ≡ₚ line <$> (folders ++ files))
         (fun _ => False) w).
  { intros H.
    apply wp_returns in H as ([] & w' & Heq & Hs' & Hl' & (t' & Hr' & Hlk) & Hout).
    by exists w', t'. }
  rewrite delete_files_unfold. apply wp_with_local, wp_bind.
  eapply wp_mono; [apply (wp_for_each_seen Inv1 (fun _ => False))| |done].
  - (* before the first folder *)
    unfold Inv1. cbn [fst snd].
    split; [done|]. split; [done|]. split; [|split; [|split; [|split; [|split]]]].
    + exists t. split; [done|]. split; [by right|]. split; [|done].
      intros x Hx. split; [intros H; inversion H|].
      intros H. destruct (Hitems x Hx) as [n Hn]. congruence.
    + intros F H. inversion H.
    + constructor.
    + intros x H. inversion H.
    + intros x H. inversion H.
    + exists []. split; [unfold printed; by rewrite app_nil_r|done].
  - (* one folder *)
    intros seen F rest [h w1] Hxs
      (Hs1 & Hl1 & (tc & Hr1 & Hsub & Ha & Hb) & Hseen & Hndh & Hsubh & Hroots & ls & Hpr & Hperm).
    cbn [fst snd] in *.
    assert (F ∈ folders) as HF.
    { apply sorted_by_depth_elem. rewrite Hxs. apply elem_of_app. right. by left. }
    unfold delete_folder_step. apply wp_bind, wp_get_local. cbn [fst snd].
    case_bool_decide as HFh.
    + apply wp_ret. unfold Inv1. cbn [fst snd].
      split; [done|]. split; [done|]. split; [by exists tc|].
      split; [|split; [done|split; [done|split; [|by exists ls]]]].
      * intros F' HF'. apply elem_of_app in HF' as [HF'|HF']; [by apply Hseen|].
        by apply list_elem_of_singleton in HF' as ->.
      * intros x Hx. destruct (Hroots x Hx) as (R & HR & HRx & Hclosed).
        exists R. split; [apply elem_of_app; by left|by split].
    + assert (tc !! F = Some Dir) as HtF.
      { destruct (Hsub F) as [Hn|Heq]; [|by rewrite Heq, Hfo].
        exfalso. apply HFh. apply Ha; auto. }
      apply wp_try, wp_bind, wp_lift.
      eapply wp_eq; [by apply rmtree_ok|].
      apply cascade_rule; [done|done|].
      intros h' w' Hmarks Hndh' Hpr' Hs' Hr' Hl'. unfold Inv1. cbn [fst snd].
      assert (forall x, x ∈ folders \/ x ∈ files ->
                (Path.contains F x = true <-> Path.within F x = true)) as Hcol.
      { intros x Hx. apply (collision_free_spec _ _ F x Hcf HF).
        by apply list_elem_of_union. }
      assert (forall x, x ∈ h -> Path.within F x = true -> False) as Hfresh.
      { intros x Hx HFx. destruct (Hroots x Hx) as (R & HR & HRx & Hclosed).
        apply HFh, Hclosed; [auto|].
        eapply (roots_do_not_overlap (sorted_by_depth folders)); eauto.
        apply sorted_by_depth_sorted. }
      split; [by rewrite Hs'|]. split; [done|].
      split; [|split; [|split; [done|split; [|split]]]].
      * eexists. split; [by rewrite Hr'|]. split; [|split].
        -- intros p. rewrite lookup_rmtree. destruct (Path.within F p); [by left|apply Hsub].
        -- intros x Hx. rewrite Hmarks, lookup_rmtree.
           destruct (Path.within F x) eqn:Hw.
           ++ split; [done|]. intros _. right.
              split; [by apply list_elem_of_union|]. by apply Hcol.
           ++ rewrite <- (Ha x Hx). split; [|by left].
              intros [H|[_ H]]; [done|]. apply Hcol in H; [congruence|done].
        -- intros p Hp. rewrite lookup_rmtree.
           destruct (Path.within F p) eqn:Hw; [|by apply Hb].
           destruct (t !! p) as [n|] eqn:Htp; [|done].
           exfalso. apply Hp. apply (Hclo F p); eauto.
      * intros F' HF'. apply Hmarks. apply elem_of_app in HF' as [HF'|HF'].
        -- left. by apply Hseen.
        -- apply list_elem_of_singleton in HF' as ->. right.
           split; [apply list_elem_of_union; by left|].
           apply within_contains, within_refl.
      * intros x Hx. apply Hmarks in Hx as [Hx|[Hx _]]; [by apply Hsubh|].
        by apply list_elem_of_union in Hx.
      * intros x Hx. apply Hmarks in Hx as [Hx|[Hx Hc]].
        -- destruct (Hroots x Hx) as (R & HR & HRx & Hclosed).
           exists R. split; [apply elem_of_app; by left|]. split; [done|].
           intros y Hy HRy. apply Hmarks. left. by apply Hclosed.
        -- exists F. apply list_elem_of_union in Hx.
           split; [apply elem_of_app; right; by left|]. split; [by apply Hcol|].
           intros y Hy HFy. apply Hmarks. right.
           split; [by apply list_elem_of_union|by apply Hcol].
      * eexists. split; [eapply printed_app; [exact Hpr|exact Hpr']|].
        fold line. rewrite Hperm, <- fmap_app. apply fmap_Permutation.
        apply NoDup_Permutation; [|done|].
        -- apply NoDup_app. split; [done|]. split.
           ++ intros x Hx Hin. apply list_elem_of_filter in Hin as [Hc Hin].
              apply list_elem_of_union in Hin. apply (Hfresh x Hx). by apply Hcol.
           ++ apply NoDup_filter. by apply NoDup_list_union.
        -- intros x. rewrite elem_of_app, list_elem_of_filter, Hmarks. tauto.
  - (* the files *)
    intros u [h1 w1]
      (Hs1 & Hl1 & (tc1 & Hr1 & Hsub & Ha & Hb) & Hseen & Hndh & Hsubh & Hroots & ls1 & Hpr1 & Hperm1).
    cbn [fst snd] in *.
    pose (Inv2 := fun (seen : list string) (st : list string * world) =>
      st.1 = h1 /\ source st.2 = source w /\ log_file st.2 <> None /\
      (exists tc, replica st.2 = Some tc /\
        forall p, tc !! p = if bool_decide (p ∈ seen) then None else tc1 !! p) /\
      printed w st.2 (ls1 ++ (line <$> filter (fun g => g ∉ h1) seen))).
    eapply wp_mono; [apply (wp_for_each_seen Inv2 (fun _ => False))| |done].
    + unfold Inv2. cbn [fst snd].
      split; [done|]. split; [done|]. split; [done|]. split.
      * exists tc1. split; [done|]. intros p.
        by rewrite bool_decide_eq_false_2 by (intros H; inversion H).
      * by rewrite filter_nil, app_nil_r.
    + intros seen g rest [h w2] Hxs (Hh & Hs2 & Hl2 & (tc & Hr2 & Hlk) & Hpr2).
      cbn [fst snd] in *. subst h.
      assert (g ∈ files) as Hg by (rewrite Hxs; apply elem_of_app; right; by left).
      assert (g ∉ seen) as Hgs.
      { rewrite Hxs in Hnd. apply NoDup_app in Hnd as (_ & Hdis' & _).
        intros H. apply (Hdis' g H). by left. }
      assert (forall p, p ∈ seen ++ [g] <-> p = g \/ p ∈ seen) as Hsnoc.
      { intros p. rewrite elem_of_app, list_elem_of_singleton. tauto. }
      unfold delete_file_step. apply wp_bind, wp_get_local. cbn [fst snd].
      case_bool_decide as Hgh.
      * apply wp_ret. unfold Inv2. cbn [fst snd].
        split; [done|]. split; [done|]. split; [done|]. split.
        -- exists tc. split; [done|]. intros p. rewrite Hlk.
           destruct (decide (p = g)) as [->|Hne].
           ++ rewrite bool_decide_eq_false_2 by done.
              rewrite bool_decide_eq_true_2 by (apply Hsnoc; by left).
              apply Ha; auto.
           ++ apply bool_decide_ext_if. rewrite Hsnoc. tauto.
        -- rewrite filter_app, filter_cons_False, filter_nil, app_nil_r; [done|].
           intros H. by apply H.
      * destruct (Hfi g Hg) as (m & c & Htg).
        assert (tc !! g = Some (File m c)) as Hcg.
        { rewrite Hlk, bool_decide_eq_false_2 by done.
          destruct (Hsub g) as [Hn|Heq]; [|by rewrite Heq].
          exfalso. apply Hgh. apply Ha; auto. }
        apply wp_try, wp_bind, wp_lift.
        eapply wp_eq; [by eapply os_remove_ok|].
        apply wp_lift, log_message_rule; [done|].
        intros w' Hpr' Hs' Hr' Hl'. unfold Inv2. cbn [fst snd].
        split; [done|]. split; [by rewrite Hs'|]. split; [done|]. split.
        -- eexists. split; [by rewrite Hr'|]. intros p.
           destruct (decide (p = g)) as [->|Hne].
           ++ rewrite lookup_delete_eq.
              by rewrite bool_decide_eq_true_2 by (apply Hsnoc; by left).
           ++ rewrite lookup_delete_ne by done. rewrite Hlk.
              apply bool_decide_ext_if. rewrite Hsnoc. tauto.
        -- rewrite filter_app, filter_cons_True, filter_nil by done.
           rewrite fmap_app, app_assoc. eapply printed_app; [exact Hpr2|exact Hpr'].
    + intros u2 [h w3] (Hh & Hs3 & Hl3 & (tc & Hr3 & Hlk) & Hpr3). cbn [fst snd] in *.
      split; [done|]. split; [done|]. split.
      * exists tc. split; [done|]. intros p. rewrite Hlk.
        destruct (decide (p ∈ files)) as [Hp|Hp].
        -- rewrite !bool_decide_eq_true_2; auto.
        -- rewrite (bool_decide_eq_false_2 (p ∈ files)) by done.
           destruct (decide (p ∈ folders)) as [Hpf|Hpf].
           ++ rewrite bool_decide_eq_true_2 by auto. apply Ha; [auto|].
              apply Hseen. by apply sorted_by_depth_elem.
           ++ rewrite bool_decide_eq_false_2 by tauto. apply Hb. tauto.
      * eexists. split; [exact Hpr3|].
        rewrite Hperm1, <- fmap_app. apply fmap_Permutation.
        apply handled_and_rest; try done.
        intros x Hx. apply Hseen. by apply sorted_by_depth_elem.
Qed.

(** When nothing fails and no item collides with a folder to create, the
    Creation Applier returns and brings the given items from the source,
    all of them and nothing else, and prints one line for each of them. *)
Lemma create_files_complete folders files sp dp lp w s d0 :
  source w = Some s -> replica w = Some d0 -> log_file w <> None ->
  NoDup folders -> NoDup files -> (forall x, x ∈ folders -> x ∉ files) ->
  well_formed s ->
  (forall F, F ∈ folders -> s !! F = Some Dir) ->
  (forall g, g ∈ files -> exists m c, s !! g = Some (File m c)) ->
  (forall x, x ∈ folders \/ x ∈ files -> d0 !! x = None) ->
  (forall F p, F ∈ folders -> is_Some (s !! p) -> Path.within F p = true ->
     p ∈ folders \/ p ∈ files) ->
  (forall a, s !! a = Some Dir -> a ∉ folders -> d0 !! a = Some Dir) ->
  collision_free folders (set_union folders files) = true ->
  exists w' d', create_files os folders files sp dp lp w = (Done tt, w') /\
    source w' = Some s /\ log_file w' <> None /\ replica w' = Some d' /\
    (forall p, d' !! p = if bool_decide (p ∈ folders \/ p ∈ files)
                         then s !! p else d0 !! p) /\
    exists ls, printed w w' ls /\
      ls ≡ₚ (fun x => (CREATED, Path.join dp x)) <$> (folders ++ files).
Proof.
  intros Hs Hr Hlog Hndf Hnd Hdis Hwf Hfo Hfi Hnew Hclo Hdirs Hcf.
  set (line := fun x : string => (CREATED, Path.join dp x)).
  assert (forall x, x ∈ folders \/ x ∈ files -> is_Some (s !! x)) as Hitems.
  { intros x [Hx|Hx]; [rewrite (Hfo x Hx); eauto|].
    destruct (Hfi x Hx) as (m & c & ->). eauto. }
  assert (forall a, s !! a = Some Dir -> a ∉ files) as Hdirfile.
  { intros a Ha Hin. destruct (Hfi a Hin) as (m & c & H). congruence. }
  pose (Inv1 := fun (seen : list string) (st : list string * world) =>
    source st.2 = Some s /\ log_file st.2 <> None /\
    (exists dc, replica st.2 = Some dc /\
      (forall x, x ∈ folders \/ x ∈ files ->
         dc !! x = if bool_decide (x ∈ st.1) then s !! x else None) /\
      (forall p, ~ (p ∈ folders \/ p ∈ files) -> dc !! p = d0 !! p)) /\
    (forall F, F ∈ seen -> F ∈ st.1) /\
    NoDup st.1 /\ (forall x, x ∈ st.1 -> x ∈ folders \/ x ∈ files) /\
    (forall x, x ∈ st.1 -> exists R, R ∈ seen /\ Path.within R x = true /\
       forall y, y ∈ folders \/ y ∈ files -> Path.within R y = true -> y ∈ st.1) /\
    exists ls, printed w st.2 ls /\ ls ≡ₚ line <$> st.1).
  cut (wp (create_files os folders files sp dp lp)
         (fun _ w' => source w' = Some s /\ log_file w' <> None /\
            (exists d', replica w' = Some d' /\
              forall p, d' !! p = if bool_decide (p ∈ folders \/ p ∈ files)
                                  then s !! p else d0 !! p) /\
            exists ls, printed w w' ls /\ ls ≡ₚ line <$> (folders ++ files))
         (fun _ => False) w).
  { intros H.
    apply wp_returns in H as ([] & w' & Heq & Hs' & Hl' & (d' & Hr' & Hlk) & Hout).
    by exists w', d'. }
  rewrite create_files_unfold. apply wp_with_local, wp_bind.
  eapply wp_mono; [apply (wp_for_each_seen Inv1 (fun _ => False))| |done].
  - (* before the first folder *)
    unfold Inv1. cbn [fst snd].
    split; [done|]. split; [done|]. split; [|split; [|split; [|split; [|split]]]].
    + exists d0. split; [done|]. split; [|done].
      intros x Hx. rewrite bool_decide_eq_false_2 by (intros H; inversion H). auto.
    + intros F H. inversion H.
    + constructor.
    + intros x H. inversion H.
    + intros x H. inversion H.
    + exists []. split; [unfold printed; by rewrite app_nil_r|done].
  - (* one folder *)
    intros seen F rest [h w1] Hxs
      (Hs1 & Hl1 & (dc & Hr1 & Ha & Hb) & Hseen & Hndh & Hsubh & Hroots & ls & Hpr & Hperm).
    cbn [fst snd] in *.
    assert (F ∈ folders) as HF.
    { apply sorted_by_depth_elem. rewrite Hxs. apply elem_of_app. right. by left. }
    unfold create_folder_step. apply wp_bind, wp_get_local. cbn [fst snd].
    case_bool_decide as HFh.
    + apply wp_ret. unfold Inv1. cbn [fst snd].
      split; [done|]. split; [done|]. split; [by exists dc|].
      split; [|split; [done|split; [done|split; [|by exists ls]]]].
      * intros F' HF'. apply elem_of_app in HF' as [HF'|HF']; [by apply Hseen|].
        by apply list_elem_of_singleton in HF' as ->.
      * intros x Hx. destruct (Hroots x Hx) as (R & HR & HRx & Hclosed).
        exists R. split; [apply elem_of_app; by left|by split].
    + assert (dc !! F = None) as HdF.
      { rewrite Ha by auto. by rewrite bool_decide_eq_false_2. }
      assert (forall a, a ∈ Path.ancestors F -> dc !! a = Some Dir) as Hanc.
      { intros a Ha'.
        assert (s !! a = Some Dir) as Hsa.
        { pose proof (Hwf F Dir (Hfo F HF)) as H. simpl in H.
          rewrite Forall_forall in H. by apply H. }
        destruct (decide (a ∈ folders)) as [Hin|Hin].
        - rewrite Ha by auto. rewrite bool_decide_eq_true_2; [done|].
          apply Hseen.
          apply (sorted_ancestor_seen (sorted_by_depth folders) seen rest F a);
            [apply sorted_by_depth_sorted | done | by apply sorted_by_depth_elem | done].
        - rewrite Hb; [by apply Hdirs|]. intros [H|H]; [done|]. by apply (Hdirfile a). }
      apply wp_try, wp_bind, wp_lift.
      eapply wp_eq; [apply copytree_ok; eauto|].
      apply cascade_rule; [done|done|].
      intros h' w' Hmarks Hndh' Hpr' Hs' Hr' Hl'. unfold Inv1. cbn [fst snd].
      assert (forall x, x ∈ folders \/ x ∈ files ->
                (Path.contains F x = true <-> Path.within F x = true)) as Hcol.
      { intros x Hx. apply (collision_free_spec _ _ F x Hcf HF).
        by apply list_elem_of_union. }
      assert (forall x, x ∈ h -> Path.within F x = true -> False) as Hfresh.
      { intros x Hx HFx. destruct (Hroots x Hx) as (R & HR & HRx & Hclosed).
        apply HFh, Hclosed; [auto|].
        eapply (roots_do_not_overlap (sorted_by_depth folders)); eauto.
        apply sorted_by_depth_sorted. }
      split; [by rewrite Hs'|]. split; [done|].
      split; [|split; [|split; [done|split; [|split]]]].
      * eexists. split; [by rewrite Hr'|]. split.
        -- intros x Hx. rewrite lookup_copytree.
           destruct (Path.within F x) eqn:Hw.
           ++ rewrite bool_decide_eq_true_2.
              ** by destruct (Hitems x Hx) as [n ->].
              ** apply Hmarks. right. split; [by apply list_elem_of_union|by apply Hcol].
           ++ rewrite Ha by done. apply bool_decide_ext_if. rewrite Hmarks.
              split; [by left|].
              intros [H|[_ H]]; [done|]. apply Hcol in H; [congruence|done].
        -- intros p Hp. rewrite lookup_copytree.
           destruct (Path.within F p) eqn:Hw; [|by apply Hb].
           destruct (s !! p) as [n|] eqn:Hsp; [|by apply Hb].
           exfalso. apply Hp. apply (Hclo F p); eauto.
      * intros F' HF'. apply Hmarks. apply elem_of_app in HF' as [HF'|HF'].
        -- left. by apply Hseen.
        -- apply list_elem_of_singleton in HF' as ->. right.
           split; [apply list_elem_of_union; by left|].
           apply within_contains, within_refl.
      * intros x Hx. apply Hmarks in Hx as [Hx|[Hx _]]; [by apply Hsubh|].
        by apply list_elem_of_union in Hx.
      * intros x Hx. apply Hmarks in Hx as [Hx|[Hx Hc]].
        -- destruct (Hroots x Hx) as (R & HR & HRx & Hclosed).
           exists R. split; [apply elem_of_app; by left|]. split; [done|].
           intros y Hy HRy. apply Hmarks. left. by apply Hclosed.
        -- exists F. apply list_elem_of_union in Hx.
           split; [apply elem_of_app; right; by left|]. split; [by apply Hcol|].
           intros y Hy HFy. apply Hmarks. right.
           split; [by apply list_elem_of_union|by apply Hcol].
      * eexists. split; [eapply printed_app; [exact Hpr|exact Hpr']|].
        fold line. rewrite Hperm, <- fmap_app. apply fmap_Permutation.
        apply NoDup_Permutation; [|done|].
        -- apply NoDup_app. split; [done|]. split.
           ++ intros x Hx Hin. apply list_elem_of_filter in Hin as [Hc Hin].
              apply list_elem_of_union in Hin. apply (Hfresh x Hx). by apply Hcol.
           ++ apply NoDup_filter. by apply NoDup_list_union.
        -- intros x. rewrite elem_of_app, list_elem_of_filter, Hmarks. tauto.
  - (* the files *)
    intros u [h1 w1]
      (Hs1 & Hl1 & (dc1 & Hr1 & Ha & Hb) & Hseen & Hndh & Hsubh & Hroots & ls1 & Hpr1 & Hperm1).
    cbn [fst snd] in *.
    assert (forall a, s !! a = Some Dir -> dc1 !! a = Some Dir) as Hdc1.
    { intros a Hsa. destruct (decide (a ∈ folders)) as [Hin|Hin].
      - rewrite Ha by auto. rewrite bool_decide_eq_true_2; [done|].
        apply Hseen. by apply sorted_by_depth_elem.
      - rewrite Hb; [by apply Hdirs|]. intros [H|H]; [done|]. by apply (Hdirfile a). }
    pose (Inv2 := fun (seen : list string) (st : list string * world) =>
      st.1 = h1 /\ source st.2 = Some s /\ log_file st.2 <> None /\
      (exists dc, replica st.2 = Some dc /\
        forall p, dc !! p = if bool_decide (p ∈ seen) then s !! p else dc1 !! p) /\
      printed w st.2 (ls1 ++ (line <$> filter (fun g => g ∉ h1) seen))).
    eapply wp_mono; [apply (wp_for_each_seen Inv2 (fun _ => False))| |done].
    + unfold Inv2. cbn [fst snd].
      split; [done|]. split; [done|]. split; [done|]. split.
      * exists dc1. split; [done|].
        intros p. by rewrite bool_decide_eq_false_2 by (intros H; inversion H).
      * by rewrite filter_nil, app_nil_r.
    + intros seen g rest [h w2] Hxs (Hh & Hs2 & Hl2 & (dc & Hr2 & Hlk) & Hpr2).
      cbn [fst snd] in *. subst h.
      assert (g ∈ files) as Hg by (rewrite Hxs; apply elem_of_app; right; by left).
      assert (g ∉ seen) as Hgs.
      { rewrite Hxs in Hnd. apply NoDup_app in Hnd as (_ & Hdis' & _).
        intros H. apply (Hdis' g H). by left. }
      assert (forall p, p ∈ seen ++ [g] <-> p = g \/ p ∈ seen) as Hsnoc.
      { intros p. rewrite elem_of_app, list_elem_of_singleton. tauto. }
      unfold create_file_step. apply wp_bind, wp_get_local. cbn [fst snd].
      case_bool_decide as Hgh.
      * apply wp_ret. unfold Inv2. cbn [fst snd].
        split; [done|]. split; [done|]. split; [done|]. split.
        -- exists dc. split; [done|]. intros p. rewrite Hlk.
           destruct (decide (p = g)) as [->|Hne].
           ++ rewrite bool_decide_eq_false_2 by done.
              rewrite bool_decide_eq_true_2 by (apply Hsnoc; by left).
              rewrite Ha by auto. by rewrite bool_decide_eq_true_2.
           ++ apply bool_decide_ext_if. rewrite Hsnoc. tauto.
        -- rewrite filter_app, filter_cons_False, filter_nil, app_nil_r; [done|].
           intros H. by apply H.
      * destruct (Hfi g Hg) as (m & c & Hsg).
        assert (dc !! g = None) as Hcg.
        { rewrite Hlk, bool_decide_eq_false_2 by done.
          rewrite Ha by auto. by rewrite bool_decide_eq_false_2. }
        assert (parent_is_dir dc g = true) as Hpar.
        { eapply parent_is_dir_intro; eauto. intros a Hsa. rewrite Hlk.
          case_bool_decide; [done|]. by apply Hdc1. }
        apply wp_try, wp_bind, wp_lift.
        eapply wp_eq; [by eapply copy2_ok|].
        apply wp_lift, log_message_rule; [done|].
        intros w' Hpr' Hs' Hr' Hl'. unfold Inv2. cbn [fst snd].
        split; [done|]. split; [by rewrite Hs'|]. split; [done|]. split.
        -- eexists. split; [by rewrite Hr'|]. intros p.
           destruct (decide (p = g)) as [->|Hne].
           ++ rewrite lookup_insert_eq.
              by rewrite bool_decide_eq_true_2 by (apply Hsnoc; by left).
           ++ rewrite lookup_insert_ne by done. rewrite Hlk.
              apply bool_decide_ext_if. rewrite Hsnoc. tauto.
        -- rewrite filter_app, filter_cons_True, filter_nil by done.
           rewrite fmap_app, app_assoc. eapply printed_app; [exact Hpr2|exact Hpr'].
    + intros u2 [h w3] (Hh & Hs3 & Hl3 & (dc & Hr3 & Hlk) & Hpr3). cbn [fst snd] in *.
      split; [done|]. split; [done|]. split.
      * exists dc. split; [done|]. intros p. rewrite Hlk.
        destruct (decide (p ∈ files)) as [Hp|Hp].
        -- rewrite !bool_decide_eq_true_2; auto.
        -- rewrite (bool_decide_eq_false_2 (p ∈ files)) by done.
           destruct (decide (p ∈ folders)) as [Hpf|Hpf].
           ++ rewrite bool_decide_eq_true_2 by auto. rewrite Ha by auto.
              rewrite bool_decide_eq_true_2; [done|].
              apply Hseen. by apply sorted_by_depth_elem.
           ++ rewrite bool_decide_eq_false_2 by tauto. apply Hb. tauto.
      * eexists. split; [exact Hpr3|].
        rewrite Hperm1, <- fmap_app. apply fmap_Permutation.
        apply handled_and_rest; try done.
        intros x Hx. apply Hseen. by apply sorted_by_depth_elem.
Qed.

End Complete.

(** ** A cycle on trees whose items do not collide *)

(** The five sets of a cycle, path by path. *)
Lemma cycle_diff_spec w s t x :
  source w = Some s -> replica w = Some t ->
  let d := cycle_diff w in
  (x ∈ deleted_folders d <-> t !! x = Some Dir /\ s !! x <> Some Dir) /\
  (x ∈ deleted_files d <->
     (exists m c, t !! x = Some (File m c)) /\ ~ (exists m c, s !! x = Some (File m c))) /\
  (x ∈ created_folders d <-> s !! x = Some Dir /\ t !! x <> Some Dir) /\
  (x ∈ created_files d <->
     (exists m c, s !! x = Some (File m c)) /\ ~ (exists m c, t !! x = Some (File m c))) /\
  (x ∈ common_files d <->
     (exists m c, s !! x = Some (File m c)) /\ (exists m c, t !! x = Some (File m c))).
Proof.
  intros Hs Ht d. unfold d, cycle_diff, compute_diff, set_difference, set_intersection.
  rewrite Hs, Ht. simpl.
  by rewrite !list_elem_of_difference, !list_elem_of_intersection,
    !elem_of_files_of, !elem_of_folders_of.
Qed.

Lemma cycle_diff_NoDup w :
  let d := cycle_diff w in
  NoDup (deleted_files d) /\ NoDup (created_files d) /\ NoDup (common_files d) /\
  NoDup (deleted_folders d) /\ NoDup (created_folders d).
Proof.
  unfold cycle_diff, compute_diff, set_difference, set_intersection; simpl.
  assert (NoDup (snapshot (source w)).1 /\ NoDup (snapshot (replica w)).1) as [H1 H2].
  { split; [destruct (source w)|destruct (replica w)]; simpl;
      try apply NoDup_files_of; constructor. }
  assert (NoDup (snapshot (source w)).2 /\ NoDup (snapshot (replica w)).2) as [H3 H4].
  { split; [destruct (source w)|destruct (replica w)]; simpl;
      try apply NoDup_folders_of; constructor. }
  split_and!; [by apply NoDup_list_difference | by apply NoDup_list_difference |
               by apply NoDup_list_intersection | by apply NoDup_list_difference |
               by apply NoDup_list_difference].
Qed.

Section Converges.

Variable os : os_oracle.
Variables sp rp lp : string.
Hypothesis Hok : fault_free os.

(** The Deletion Applier of a cycle, when nothing fails and no item to
    delete collides with a folder to delete. *)
Lemma deletion_phase w s t :
  source w = Some s -> replica w = Some t -> log_file w <> None -> well_formed s ->
  let d := cycle_diff w in
  collision_free (deleted_folders d) (set_union (deleted_folders d) (deleted_files d)) = true ->
  exists w1 t1, deletion os rp lp d w = (Done tt, w1) /\
    source w1 = Some s /\ log_file w1 <> None /\ replica w1 = Some t1 /\
    (forall p, t1 !! p = if bool_decide (p ∈ deleted_folders d \/ p ∈ deleted_files d)
                         then None else t !! p) /\
    exists ls, printed w w1 ls /\
      ls ≡ₚ (fun x => (DELETED, Path.join rp x)) <$> (deleted_folders d ++ deleted_files d).
Proof.
  intros Hs Ht Hlog Hwf d Hcf. unfold deletion.
  destruct (delete_files_complete os Hok (deleted_folders d) (deleted_files d) rp lp w t)
    as (w1 & t1 & Heq & Hs1 & Hl1 & Hr1 & Hlk & Hout); try done.
  - apply cycle_diff_NoDup.
  - apply cycle_diff_NoDup.
  - intros x Hx Hx'. apply (cycle_diff_spec w s t x Hs Ht) in Hx as [Hx _].
    apply (cycle_diff_spec w s t x Hs Ht) in Hx' as [(m & c & Hx') _]. congruence.
  - intros F HF. by apply (cycle_diff_spec w s t F Hs Ht) in HF as [? _].
  - intros g Hg. by apply (cycle_diff_spec w s t g Hs Ht) in Hg as [? _].
  - intros F p HF [n Hp] Hw.
    apply (cycle_diff_spec w s t F Hs Ht) in HF as [HtF HsF].
    assert (p = F \/ Path.is_under F p = true) as [->|Hu].
    { unfold Path.within in Hw. apply orb_true_iff in Hw as [Hw|Hw]; [|by right].
      left. symmetry. by apply String.eqb_eq. }
    { left. by apply (cycle_diff_spec w s t F Hs Ht). }
    assert (forall k, s !! p <> Some k) as Hnot.
    { intros k Hk. apply HsF. by eapply well_formed_ancestor. }
    destruct n as [m c|].
    + right. apply (cycle_diff_spec w s t p Hs Ht). split; [eauto|].
      intros (m' & c' & H). by apply (Hnot (File m' c')).
    + left. apply (cycle_diff_spec w s t p Hs Ht). split; [done|]. apply Hnot.
  - exists w1, t1. split_and!; try done. by rewrite Hs1.
Qed.

(** The tree that a cycle leaves in the replica. *)
Lemma cycle_converges_to w s t :
  source w = Some s -> replica w = Some t -> (exists ls, log_file w = Some (Some ls)) ->
  well_formed s -> well_formed t ->
  let d := cycle_diff w in
  collision_free (deleted_folders d) (set_union (deleted_folders d) (deleted_files d)) = true ->
  collision_free (created_folders d) (set_union (created_folders d) (created_files d)) = true ->
  exists w', sync_folders os sp rp lp w = (Done true, w') /\
    source w' = Some s /\ replica w' = Some (synced s t) /\ log_file w' <> None /\
    exists lsD lsC,
      printed w w' (lsD ++ lsC ++
                    ((fun f => (UPDATED, Path.join rp f)) <$>
                     filter (fun f => needs_update s t f = true) (common_files d))) /\
      lsD ≡ₚ (fun x => (DELETED, Path.join rp x)) <$> (deleted_folders d ++ deleted_files d) /\
      lsC ≡ₚ (fun x => (CREATED, Path.join rp x)) <$> (created_folders d ++ created_files d).
Proof.
  intros Hs Ht [ls Hl] Hwfs Hwft d Hcd Hcc.
  assert (log_file w <> None) as Hlog by (by rewrite Hl).
  destruct (deletion_phase w s t Hs Ht Hlog Hwfs Hcd)
    as (w1 & t1 & Heq1 & Hs1 & Hl1 & Hr1 & Hlk1 & lsD & HprD & HpermD).
  fold d in Heq1, Hlk1, HpermD.
  assert (forall x, (x ∈ deleted_folders d <-> t !! x = Some Dir /\ s !! x <> Some Dir) /\
    (x ∈ deleted_files d <->
       (exists m c, t !! x = Some (File m c)) /\ ~ (exists m c, s !! x = Some (File m c))) /\
    (x ∈ created_folders d <-> s !! x = Some Dir /\ t !! x <> Some Dir) /\
    (x ∈ created_files d <->
       (exists m c, s !! x = Some (File m c)) /\ ~ (exists m c, t !! x = Some (File m c))) /\
    (x ∈ common_files d <->
       (exists m c, s !! x = Some (File m c)) /\ (exists m c, t !! x = Some (File m c))))
    as Hd by (intros x; by apply cycle_diff_spec).
  (* what deletion leaves, by the entries of the two trees *)
  assert (forall p, t1 !! p = match s !! p, t !! p with
                              | Some (File _ _), Some (File _ _) | Some Dir, Some Dir => t !! p
                              | _, _ => None
                              end) as Ht1.
  { intros p. rewrite Hlk1. destruct (Hd p) as (H1 & H2 & _).
    destruct (s !! p) as [[ms cs|]|] eqn:Hsp, (t !! p) as [[mt ct|]|] eqn:Htp;
      case_bool_decide as Hin; try done; exfalso; try (apply Hin); rewrite ?H1, ?H2 in *;
      try (destruct Hin as [[? ?]|[? Hn]]; [congruence|apply Hn; eauto]).
    all: try (left; split; congruence).
    all: try (right; split; [eauto|]; intros (? & ? & ?); congruence). }
  destruct (create_files_complete os Hok (created_folders d) (created_files d) sp rp lp w1 s t1)
    as (w2 & t2 & Heq2 & Hs2 & Hl2 & Hr2 & Hlk2 & lsC & HprC & HpermC); try done.
  { apply cycle_diff_NoDup. }
  { apply cycle_diff_NoDup. }
  { intros x Hx Hx'. apply Hd in Hx as [Hx _]. apply Hd in Hx' as [(m & c & Hx') _].
    congruence. }
  { intros F HF. by apply Hd in HF as [? _]. }
  { intros g Hg. by apply Hd in Hg as [? _]. }
  { intros x Hx. rewrite Ht1. destruct (Hd x) as (_ & _ & H3 & H4 & _).
    rewrite H3, H4 in Hx.
    destruct (s !! x) as [[ms cs|]|], (t !! x) as [[mt ct|]|]; try done; exfalso;
      destruct Hx as [[? ?]|[? Hn]]; try congruence; try (apply Hn; eauto);
      by destruct H as (? & ? & ?). }
  { intros F p HF [n Hp] Hw.
    apply Hd in HF as [HsF HtF].
    assert (p = F \/ Path.is_under F p = true) as [->|Hu].
    { unfold Path.within in Hw. apply orb_true_iff in Hw as [Hw|Hw]; [|by right].
      left. symmetry. by apply String.eqb_eq. }
    { left. by apply Hd. }
    assert (forall k, t !! p <> Some k) as Hnot.
    { intros k Hk. apply HtF. by eapply well_formed_ancestor. }
    destruct n as [m c|].
    + right. apply Hd. split; [eauto|].
      intros (m' & c' & H). by apply (Hnot (File m' c')).
    + left. apply Hd. split; [done|]. apply Hnot. }
  { intros a Hsa Hno. rewrite Ht1, Hsa.
    destruct (t !! a) as [[mt ct|]|] eqn:Hta; try done; exfalso; apply Hno, Hd;
      split; congruence. }
  (* what creation leaves *)
  assert (forall p, t2 !! p = match s !! p, t !! p with
                              | Some (File _ _), Some (File _ _) => t !! p
                              | _, _ => s !! p
                              end) as Ht2.
  { intros p. rewrite Hlk2, Ht1. destruct (Hd p) as (_ & _ & H3 & H4 & _).
    destruct (s !! p) as [[ms cs|]|] eqn:Hsp, (t !! p) as [[mt ct|]|] eqn:Htp;
      case_bool_decide as Hin; try done; exfalso; try (apply Hin); rewrite ?H3, ?H4 in *;
      try (destruct Hin as [[? ?]|[? Hn]]; [congruence|apply Hn; eauto]).
    all: try (left; split; congruence).
    all: try (right; split; [eauto|]; intros (? & ? & ?); congruence).
    all: try (destruct Hin as [[? ?]|[(? & ? & ?) ?]]; congruence). }
  destruct (update_files_eq os sp rp lp s (common_files d) w2 t2 Hs2 Hr2 Hl2)
    as (w3 & t3 & Heq3 & Hs3 & Hr3 & Hl3 & HprU & Hlk3).
  { apply cycle_diff_NoDup. }
  { intros f Hf. apply Hd in Hf as [(ms & cs & Hsf) (mt & ct & Htf)].
    unfold readable. rewrite Ht2, Hsf, Htf, !Hok. split_and!; eauto. }
  exists w3. split_and!; try done.
  - rewrite sync_folders_run by (unfold monitored_paths_exist; rewrite Hs, Ht, Hl; eauto).
    fold d. erewrite bind_Done; [|exact Heq1].
    erewrite bind_Done; [|exact Heq2].
    erewrite bind_Done; [done|exact Heq3].
  - rewrite Hr3. f_equal. apply map_eq. intros p.
    unfold synced. rewrite lookup_merge, Hlk3.
    unfold updated_entry, needs_update. rewrite Ht2, Hok.
    destruct (Hd p) as (_ & _ & _ & _ & H5).
    destruct (s !! p) as [[ms cs|]|] eqn:Hsp, (t !! p) as [[mt ct|]|] eqn:Htp; simpl;
      case_bool_decide as Hin; try done; try (by destruct (bool_decide (ms <> ms))).
    + case_bool_decide as Hne; simpl.
      * by rewrite bool_decide_eq_false_2 by done.
      * rewrite bool_decide_eq_true_2; [done|]. by destruct (decide (mt = ms)).
    + exfalso. apply Hin, H5. split; eauto.
  - exists lsD, lsC. split_and!; try done.
    unfold printed in *. rewrite HprU, HprC, HprD, <- !app_assoc. do 3 f_equal.
    clear -Ht2 Hok. induction (common_files d) as [|f l IH]; [done|].
    rewrite bind_cons, IH. unfold update_lines at 1.
    assert (needs_update s t2 f = needs_update s t f) as ->.
    { unfold needs_update. rewrite Ht2.
      destruct (s !! f) as [[ms cs|]|], (t !! f) as [[mt ct|]|]; try done;
        by rewrite bool_decide_eq_false_2 by (intros H; by apply H). }
    rewrite Hok, filter_cons. destruct (needs_update s t f) eqn:Hn.
    + by rewrite decide_True by done.
    + by rewrite decide_False by done.
Qed.

Lemma synced_in_step (s t : gmap string node) : in_step s (synced s t).
Proof.
  intros p. unfold synced. rewrite lookup_merge.
  destruct (s !! p) as [[ms cs|]|], (t !! p) as [[mt ct|]|]; simpl; try done.
  by case_bool_decide.
Qed.

End Converges.

(** ** Trees in step *)

Lemma in_step_decide (s t : gmap string node) :
  bool_decide (map_relation (fun _ => same_stamp) (fun _ _ => False) (fun _ _ => False) s t)
    = true ->
  in_step s t.
Proof.
  intros H p. apply bool_decide_eq_true in H. specialize (H p).
  unfold option_relation, same_stamp in H.
  by destruct (s !! p) as [[m c|]|], (t !! p) as [[m' c'|]|].
Defined.

Lemma in_step_well_formed (s r : gmap string node) :
  in_step s r -> well_formed s -> well_formed r.
Proof.
  intros Hstep Hwf p n Hp. simpl. apply Forall_forall. intros a Ha.
  assert (exists n', s !! p = Some n') as [n' Hsp].
  { pose proof (Hstep p) as H. rewrite Hp in H.
    destruct (s !! p) as [n'|]; [eauto|]. by destruct n. }
  pose proof (Hwf p n' Hsp) as Hanc. simpl in Hanc. rewrite Forall_forall in Hanc.
  specialize (Hanc a Ha). pose proof (Hstep a) as H. rewrite Hanc in H.
  by destruct (r !! a) as [[m c|]|].
Qed.


Section ConvergesTheorems.

Variable os : os_oracle.
Variables sp rp lp : string.

(** X8. The Deletion Applier of a cycle removes what is to delete, all of
    it and nothing else, when no call fails, the source is a directory tree
    and no item to delete has the path of a folder to delete in its name
    without lying in that folder: it returns, the source is as it was, every
    folder and file of the diff's deletion sets is gone from the replica,
    every other entry of the replica is as it was, and the lines printed
    are one DELETED line for each item of the deletion sets. *)
Theorem deletion_removes_what_is_to_delete w s t :
  fault_free os ->
  source w = Some s -> replica w = Some t -> log_file w <> None -> well_formed s ->
  let d := cycle_diff w in
  collision_free (deleted_folders d) (set_union (deleted_folders d) (deleted_files d)) = true ->
  exists w1 t1, deletion os rp lp d w = (Done tt, w1) /\
    source w1 = Some s /\ replica w1 = Some t1 /\
    (forall p, p ∈ deleted_folders d \/ p ∈ deleted_files d -> t1 !! p = None) /\
    (forall p, ~ (p ∈ deleted_folders d \/ p ∈ deleted_files d) -> t1 !! p = t !! p) /\
    exists ls, printed w w1 ls /\
      ls ≡ₚ (fun x => (DELETED, Path.join rp x)) <$> (deleted_folders d ++ deleted_files d).
Proof.
  intros Hok Hs Ht Hlog Hwf d Hcf.
  destruct (deletion_phase os rp lp Hok w s t Hs Ht Hlog Hwf Hcf)
    as (w1 & t1 & Heq & Hs1 & _ & Hr1 & Hlk & Hout).
  exists w1, t1. split; [done|]. split; [done|]. split; [done|]. split; [|split; [|done]].
  - intros p Hp. by rewrite Hlk, bool_decide_eq_true_2.
  - intros p Hp. by rewrite Hlk, bool_decide_eq_false_2.
Qed.

(** X9. A cycle brings the replica in step with the source.  When no
    call fails, both trees are directory trees, the log file exists, and no
    item to delete (to create) has the path of a folder to delete (to
    create) in its name without lying in that folder, the cycle returns
    [True], leaves the source as it was, and the replica then holds a
    directory exactly where the source does, nothing where the source holds
    nothing, and for every file of the source a file with the same
    modification time: the source's file itself, or the replica's old file
    when it already had that modification time. *)
Theorem cycle_brings_replica_in_step w s t :
  fault_free os ->
  source w = Some s -> replica w = Some t -> (exists ls, log_file w = Some (Some ls)) ->
  well_formed s -> well_formed t ->
  let d := cycle_diff w in
  collision_free (deleted_folders d) (set_union (deleted_folders d) (deleted_files d)) = true ->
  collision_free (created_folders d) (set_union (created_folders d) (created_files d)) = true ->
  exists w' r, sync_folders os sp rp lp w = (Done true, w') /\
    source w' = Some s /\ replica w' = Some r /\ in_step s r /\ well_formed r /\
    (forall p, s !! p = Some Dir <-> r !! p = Some Dir) /\
    (forall p, s !! p = None <-> r !! p = None) /\
    (forall p m c, s !! p = Some (File m c) ->
       r !! p = Some (File m c) \/
       exists c', t !! p = Some (File m c') /\ r !! p = Some (File m c')).
Proof.
  intros Hok Hs Ht Hl Hwfs Hwft d Hcd Hcc.
  destruct (cycle_converges_to os sp rp lp Hok w s t Hs Ht Hl Hwfs Hwft Hcd Hcc)
    as (w' & Heq & Hs' & Hr' & _ & _).
  exists w', (synced s t). split_and!; try done.
  - apply synced_in_step.
  - eapply in_step_well_formed; [apply synced_in_step|done].
  - intros p. unfold synced. rewrite lookup_merge.
    destruct (s !! p) as [[ms cs|]|], (t !! p) as [[mt ct|]|]; simpl; try done.
    by case_bool_decide.
  - intros p. unfold synced. rewrite lookup_merge.
    destruct (s !! p) as [[ms cs|]|], (t !! p) as [[mt ct|]|]; simpl; try done.
    by case_bool_decide.
  - intros p m c Hp. unfold synced. rewrite lookup_merge, Hp.
    destruct (t !! p) as [[mt ct|]|]; simpl; auto.
    case_bool_decide as Hm; [|by left]. subst mt. right. by exists ct.
Qed.

(** X22. A cycle logs every change once.  Under the same conditions the
    lines that the cycle prints are, in this order: one DELETED line for
    each folder and file to delete, one CREATED line for each folder and
    file to create, and one UPDATED line for each common file whose
    modification times differ, in the order of [common_files]; no ERROR
    line is printed, and the same lines are appended to the log file. *)
Theorem cycle_logs_every_change_once w s t :
  fault_free os ->
  source w = Some s -> replica w = Some t -> (exists ls, log_file w = Some (Some ls)) ->
  well_formed s -> well_formed t ->
  let d := cycle_diff w in
  collision_free (deleted_folders d) (set_union (deleted_folders d) (deleted_files d)) = true ->
  collision_free (created_folders d) (set_union (created_folders d) (created_files d)) = true ->
  exists w' lsD lsC,
    let lsU := (fun f => (UPDATED, Path.join rp f)) <$>
               filter (fun f => needs_update s t f = true) (common_files d) in
    sync_folders os sp rp lp w = (Done true, w') /\
    stdout w' = stdout w ++ lsD ++ lsC ++ lsU /\
    log_file w' = log_after (log_file w) (lsD ++ lsC ++ lsU) /\
    lsD ≡ₚ (fun x => (DELETED, Path.join rp x)) <$> (deleted_folders d ++ deleted_files d) /\
    lsC ≡ₚ (fun x => (CREATED, Path.join rp x)) <$> (created_folders d ++ created_files d).
Proof.
  intros Hok Hs Ht Hl Hwfs Hwft d Hcd Hcc.
  destruct (cycle_converges_to os sp rp lp Hok w s t Hs Ht Hl Hwfs Hwft Hcd Hcc)
    as (w' & Heq & _ & _ & _ & lsD & lsC & Hpr & HpD & HpC).
  exists w', lsD, lsC. intros lsU. split; [done|]. split; [exact Hpr|]. split; [|by split].
  destruct (cycle_logged os sp rp lp w) as (ls' & Hpr' & Hfile & _).
  rewrite Heq in Hpr', Hfile. cbn [snd] in Hpr', Hfile.
  unfold printed in Hpr, Hpr'. rewrite Hpr in Hpr'.
  apply app_inv_head in Hpr'. rewrite Hfile, <- Hpr'. reflexivity.
Qed.

(** X10. After such a cycle the next one finds nothing to do: run on the
    world that the first cycle left, the second cycle returns [True] and
    leaves that world as it is, printing and logging nothing. *)
Theorem second_cycle_is_idle w s t :
  fault_free os ->
  source w = Some s -> replica w = Some t -> (exists ls, log_file w = Some (Some ls)) ->
  well_formed s -> well_formed t ->
  let d := cycle_diff w in
  collision_free (deleted_folders d) (set_union (deleted_folders d) (deleted_files d)) = true ->
  collision_free (created_folders d) (set_union (created_folders d) (created_files d)) = true ->
  exists w', sync_folders os sp rp lp w = (Done true, w') /\
    sync_folders os sp rp lp w' = (Done true, w').
Proof.
  intros Hok Hs Ht Hl Hwfs Hwft d Hcd Hcc.
  destruct (cycle_converges_to os sp rp lp Hok w s t Hs Ht Hl Hwfs Hwft Hcd Hcc)
    as (w' & Heq & Hs' & Hr' & Hl' & _).
  exists w'. split; [done|].
  apply (idle_cycle os sp rp lp w' s (synced s t)); try done.
  - destruct Hl as [ls Hl].
    destruct (cycle_logged os sp rp lp w) as (ls' & _ & Hfile & _).
    rewrite Heq, Hl in Hfile. simpl in Hfile. eauto.
  - apply synced_in_step.
Qed.

End ConvergesTheorems.

(** ** Start-up *)

Lemma os_path_exists_folder f w :
  os_path_exists (location_of f) w = (Done (folder_exists f w), w).
Proof. by destruct f. Qed.

Lemma check_folder_eq user f path w :
  exists err created,
    check_folder user f path w = (Done (err, created), checked user f path w) /\
    created = negb (folder_exists f w) && folder_passes user f path w /\
    (err = None <-> folder_passes user f path w = true) /\
    (forall e, err = Some e -> [(ERROR, e)] = check_lines user f path w).
Proof.
  unfold check_folder, checked, folder_passes, check_lines, says_yes.
  erewrite bind_Done; [|apply os_path_exists_folder].
  destruct (folder_exists f w) eqn:Hex; simpl.
  - erewrite bind_Done; [|reflexivity].
    destruct (access user path); simpl; eexists _, _; (split; [reflexivity|]);
      split_and!; try done. by intros e [= <-].
  - erewrite bind_Done; [|reflexivity].
    destruct (String.eqb _ "y"); simpl.
    + unfold try_except, os_makedirs, mbind, M_bind, bind.
      rewrite os_path_exists_folder, Hex.
      destruct (makedirs_fails user path) eqn:Hmk; simpl;
        eexists _, _; (split; [reflexivity|]); split_and!; try done.
      by intros e [= <-].
    + eexists _, _; (split; [reflexivity|]); split_and!; try done. by intros e [= <-].
Qed.

Lemma log_after_app x (l1 l2 : list line) :
  log_after (log_after x l1) l2 = log_after x (l1 ++ l2).
Proof.
  destruct x as [[old|]|]; simpl; [by rewrite app_assoc| |done].
  destruct l1; simpl; [done|]. done.
Qed.

Lemma logged_app lp l1 l2 w : logged lp l2 (logged lp l1 w) = logged lp (l1 ++ l2) w.
Proof.
  unfold logged; simpl. rewrite app_assoc. by destruct lp; rewrite ?log_after_app.
Qed.

Lemma logged_nil lp w : logged lp [] w = w.
Proof.
  unfold logged. rewrite app_nil_r. destruct w as [so re lf out]; simpl.
  destruct lp; [|done]. by destruct lf as [[old|]|]; simpl; rewrite ?app_nil_r.
Qed.

(** [log_message] returns unless it is to write into a folder that is
    missing. *)
Lemma log_message_logged text ty lp w :
  match lp with None => True | Some _ => log_file w <> None end ->
  log_message text ty lp w = (Done tt, logged lp [(ty, text)] w).
Proof.
  unfold log_message, logged, print, set_log_file. destruct lp as [path|]; simpl; [|done].
  by destruct (log_file w) as [[old|]|].
Qed.

Lemma check_folders_and_log_eq user f path lp w :
  match lp with None => True | Some _ => log_file (checked user f path w) <> None end ->
  check_folders_and_log user f path lp w =
    (Done (folder_passes user f path w),
     logged lp (check_lines user f path w) (checked user f path w)).
Proof.
  intros Hlog. unfold check_folders_and_log.
  destruct (check_folder_eq user f path w) as (err & created & Heq & Hc & Herr & Hlines).
  erewrite bind_Done; [|exact Heq]. simpl.
  destruct err as [e|].
  - assert (folder_passes user f path w = false) as Hno.
    { destruct (folder_passes user f path w); [|done]. by destruct Herr as [_ H]; discriminate H. }
    rewrite Hno. erewrite bind_Done; [|by apply log_message_logged].
    by rewrite <- (Hlines e).
  - assert (folder_passes user f path w = true) as Hyes by (by apply Herr).
    rewrite Hyes in *. rewrite andb_true_r in Hc.
    unfold check_lines. unfold folder_passes in Hyes.
    destruct (folder_exists f w) eqn:Hex; simpl in Hc; subst created.
    + rewrite Hyes. erewrite bind_Done; [|reflexivity].
      erewrite bind_Done; [|by apply log_message_logged]. done.
    + apply andb_true_iff in Hyes as [Hy Hm]. apply negb_true_iff in Hm. rewrite Hy, Hm.
      erewrite bind_Done; [|by apply log_message_logged].
      erewrite bind_Done; [|apply log_message_logged].
      * by rewrite logged_app.
      * destruct lp; [|done]. simpl. destruct (log_file (checked user f path w)) as [[?|]|]; try done.
Qed.

Lemma checked_log_folder user path w :
  folder_passes user Log path w = true -> log_file (checked user Log path w) <> None.
Proof.
  unfold checked, folder_passes, folder_exists. intros H.
  case_bool_decide as Hex; simpl.
  - intros Hn. rewrite Hn in Hex. by destruct Hex.
  - by rewrite H.
Qed.

Lemma checked_fails user f path w :
  folder_passes user f path w = false -> checked user f path w = w.
Proof. unfold checked. intros ->. by rewrite andb_false_r. Qed.

Lemma create_log_file_eq user path w :
  create_log_file user path w =
    if folder_passes user Log path w then
      if open_fails user (log_file_path_of user path) then
        (Raised, logged None (check_lines user Log path w) (checked user Log path w))
      else
        (Done (Some (log_file_path_of user path)),
         World (source w) (replica w) (Some (Some [log_file_created user path]))
           (stdout w ++ check_lines user Log path w ++ [log_file_created user path]))
    else (Done None, logged None (check_lines user Log path w) w).
Proof.
  unfold create_log_file.
  erewrite bind_Done; [|by apply check_folders_and_log_eq].
  destruct (folder_passes user Log path w) eqn:Hp.
  - pose proof (checked_log_folder user path w Hp) as Hlog.
    assert (source (checked user Log path w) = source w /\
            replica (checked user Log path w) = replica w /\
            stdout (checked user Log path w) = stdout w) as (Hs & Hr & Ho).
    { unfold checked. by destruct (_ && _). }
    unfold open_w, log_file_path_of, mbind, M_bind, bind, logged; simpl.
    destruct (open_fails user _); [done|].
    destruct (log_file (checked user Log path w)) as [x|] eqn:Hl; [|done].
    rewrite log_message_logged by done.
    unfold logged, log_file_created, log_file_path_of; simpl.
    by rewrite Hs, Hr, Ho, <- app_assoc.
  - by rewrite (checked_fails _ _ _ _ Hp).
Qed.

Lemma check_lines_fail user f path w :
  folder_passes user f path w = false -> exists e, check_lines user f path w = [(ERROR, e)].
Proof.
  unfold folder_passes, check_lines.
  destruct (folder_exists f w); [intros ->; eauto|].
  destruct (says_yes user path); simpl; [|eauto].
  destruct (makedirs_fails user path); [eauto|done].
Qed.

Lemma checked_exists user f path w :
  folder_passes user f path w = true -> folder_exists f (checked user f path w) = true.
Proof.
  unfold checked, folder_passes. intros H. destruct (folder_exists f w) eqn:Hex; simpl.
  - done.
  - rewrite H. by destruct f.
Qed.

(** The check of one folder does not touch the other stores. *)
Lemma checked_others user f path w :
  (f <> Log -> log_file (checked user f path w) = log_file w) /\
  (f <> Source -> source (checked user f path w) = source w) /\
  (f <> Replica -> replica (checked user f path w) = replica w) /\
  stdout (checked user f path w) = stdout w /\
  (forall t, source w = Some t -> source (checked user f path w) = Some t) /\
  (forall t, replica w = Some t -> replica (checked user f path w) = Some t) /\
  (source w = None -> source (checked user f path w) = None \/
                      source (checked user f path w) = Some ∅) /\
  (replica w = None -> replica (checked user f path w) = None \/
                       replica (checked user f path w) = Some ∅).
Proof.
  unfold checked.
  destruct (negb (folder_exists f w) && folder_passes user f path w) eqn:Hc.
  - apply andb_true_iff in Hc as [Hex _]. apply negb_true_iff in Hex.
    unfold folder_exists in Hex.
    destruct f; simpl; apply bool_decide_eq_false in Hex;
      split_and!; auto; try done; intros t Ht; destruct Hex; by rewrite Ht.
  - split_and!; auto.
Qed.

Lemma folder_passes_ext user f path w w' :
  folder_exists f w' = folder_exists f w ->
  folder_passes user f path w' = folder_passes user f path w /\
  check_lines user f path w' = check_lines user f path w.
Proof. unfold folder_passes, check_lines. by intros ->. Qed.

Section MainStart.

Variable os : os_oracle.
Variable user : user_oracle.

(** X11. [check_folder] never raises and changes the world in one case
    only: a folder is created, empty, exactly when it does not exist, the
    answer of the user is [y] once stripped and put in lower case, and
    [os.makedirs] does not fail.  No error is returned exactly when the
    folder passes: it exists and can be read and written, or it was
    created (a folder just created is not checked for access).  When no
    error is returned the folder exists afterwards. *)
Theorem check_folder_result f path w :
  exists err created w',
    check_folder user f path w = (Done (err, created), w') /\
    created = negb (folder_exists f w) && says_yes user path
              && negb (makedirs_fails user path) /\
    w' = (if created then create_folder f w else w) /\
    (err = None <->
       if folder_exists f w then access user path = true else created = true) /\
    (err = None -> folder_exists f w' = true).
Proof.
  destruct (check_folder_eq user f path w) as (err & created & Heq & Hc & Herr & _).
  exists err, created, (checked user f path w).
  assert (created = negb (folder_exists f w) && says_yes user path
                    && negb (makedirs_fails user path)) as Hc'.
  { rewrite Hc. unfold folder_passes. by destruct (folder_exists f w). }
  split_and!; try done.
  - unfold checked. by rewrite <- Hc.
  - rewrite Herr. unfold folder_passes in *.
    destruct (folder_exists f w); simpl in *; [done|]. rewrite Hc. done.
  - intros He. by apply checked_exists, Herr.
Qed.

(** X12. [create_log_file] raises in one case only: the log folder passes
    the check and [open] refuses the log file, as it does when the path of
    the log folder is that of a regular file; then no log file was made and
    only the lines of the check were printed.  When the log folder passes
    and the file can be opened, it returns the path of the log file, made of
    the folder and the time stamp, and the log file then holds one line,
    which says that it was created: what the check of the log folder
    printed is not in the file, and what a file of that name held before is
    lost.  When the log folder does not pass it returns [None], prints one
    ERROR line, and leaves the log folder as it was.  In all cases the
    source and the replica are as they were. *)
Theorem create_log_file_result path w :
  exists r w', create_log_file user path w = (r, w') /\
    source w' = source w /\ replica w' = replica w /\
    (r = Raised <->
       folder_passes user Log path w = true /\
       open_fails user (log_file_path_of user path) = true) /\
    (r = Raised ->
       log_file w' = log_file (checked user Log path w) /\
       stdout w' = stdout w ++ check_lines user Log path w) /\
    (folder_passes user Log path w = true ->
     open_fails user (log_file_path_of user path) = false ->
       r = Done (Some (log_file_path_of user path)) /\
       log_file w' = Some (Some [log_file_created user path]) /\
       stdout w' = stdout w ++ check_lines user Log path w ++ [log_file_created user path]) /\
    (folder_passes user Log path w = false ->
       r = Done None /\ log_file w' = log_file w /\
       exists e, stdout w' = stdout w ++ [(ERROR, e)]).
Proof.
  rewrite create_log_file_eq. destruct (folder_passes user Log path w) eqn:Hp.
  - assert (source (checked user Log path w) = source w /\
            replica (checked user Log path w) = replica w /\
            stdout (checked user Log path w) = stdout w) as (Hs & Hr & Ho).
    { unfold checked. by destruct (_ && _). }
    destruct (open_fails user (log_file_path_of user path)) eqn:Hopen.
    + eexists _, _. split; [reflexivity|]. simpl. rewrite Ho.
      split; [done|]. split; [done|]. split; [done|]. split; [done|].
      split; [done|]. intros H. discriminate H.
    + eexists _, _. split; [reflexivity|]. simpl.
      split; [done|]. split; [done|].
      split; [split; [intros H; discriminate H|intros [_ H]; discriminate H]|].
      split; [intros H; discriminate H|]. split; [done|].
      intros H. discriminate H.
  - eexists _, _. split; [reflexivity|]. simpl.
    split; [done|]. split; [done|].
    split; [split; [intros H; discriminate H|intros [H _]; discriminate H]|].
    split; [intros H; discriminate H|].
    split; [intros H; discriminate H|].
    intros _. destruct (check_lines_fail user Log path w Hp) as [e He].
    split; [done|]. split; [done|]. exists e. by rewrite He.
Qed.

(** X13. The start of [main].  The three folders are checked in the order
    log, source, replica.  The start-up raises in one case only: the log
    folder passes and [open] refuses the log file, as it does when the path
    of the log folder is that of a regular file; then only the lines of the
    check of the log folder were printed and the other folders were not
    looked at.  Otherwise the loop is entered exactly when all three
    folders pass; then the four monitored paths exist and the log file
    begins with the line that says that it was created.  When a folder does
    not pass, [main] returns without running a cycle, and the last line it
    printed is an ERROR line.  In all cases a tree that existed is left as
    it was, and a tree that did not exist is still missing or is empty. *)
Theorem main_enters_the_loop rounds a w :
  let lp := log_file_path_of user (log_folder a) in
  let refused := folder_passes user Log (log_folder a) w && open_fails user lp in
  let all_pass := folder_passes user Log (log_folder a) w
                  && folder_passes user Source (source_folder a) w
                  && folder_passes user Replica (replica_folder a) w in
  exists w0,
    main os user rounds a w =
      (if refused then (Raised, w0)
       else if all_pass then main_loop os rounds a lp w0 else (Done true, w0)) /\
    (refused = true -> stdout w0 = stdout w ++ check_lines user Log (log_folder a) w) /\
    (refused = false -> all_pass = true ->
       monitored_paths_exist w0 /\
       exists ls, log_file w0 = Some (Some (log_file_created user (log_folder a) :: ls))) /\
    (refused = false -> all_pass = false ->
       exists text, last (stdout w0) = Some (ERROR, text)) /\
    (forall t, source w = Some t -> source w0 = Some t) /\
    (forall t, replica w = Some t -> replica w0 = Some t) /\
    (source w = None -> source w0 = None \/ source w0 = Some ∅) /\
    (replica w = None -> replica w0 = None \/ replica w0 = Some ∅).
Proof.
  intros lp refused all_pass. unfold main.
  pose proof (create_log_file_eq user (log_folder a) w) as HeqL.
  subst refused all_pass lp. destruct (folder_passes user Log (log_folder a) w) eqn:HL.
  2:{ erewrite bind_Done; [|exact HeqL]. simpl.
      eexists. split; [reflexivity|]. split_and!; simpl; auto; try done.
      intros _ _. destruct (check_lines_fail user Log _ w HL) as [e He].
      exists e. rewrite He. apply last_snoc. }
  destruct (open_fails user (log_file_path_of user (log_folder a))) eqn:Hopen.
  { erewrite bind_Raised; [|exact HeqL]. simpl.
    pose proof (checked_others user Log (log_folder a) w)
      as (_ & HLs & HLr & HLo & _); [].
    specialize (HLs ltac:(done)). specialize (HLr ltac:(done)).
    eexists. split; [reflexivity|]. simpl. rewrite HLs, HLr, HLo.
    split_and!; auto; try done. }
  erewrite bind_Done; [|exact HeqL]. simpl.
  set (w1 := World (source w) (replica w) _ _).
  destruct (folder_passes_ext user Source (source_folder a) w w1 eq_refl) as [HpS HlS].
  pose proof (checked_others user Source (source_folder a) w1)
    as (HSl & _ & HSr & HSo & HSs & _ & HSn & _).
  simpl in HSs, HSn, HSr. specialize (HSl ltac:(done)). specialize (HSr ltac:(done)).
  erewrite bind_Done; [|apply check_folders_and_log_eq; by rewrite HSl].
  rewrite HpS. destruct (folder_passes user Source (source_folder a) w) eqn:HS; simpl.
  2:{ eexists. split; [reflexivity|]. split_and!; simpl; auto; try done;
        try (rewrite HSr; auto; fail).
      intros _ _. destruct (check_lines_fail user Source _ w HS) as [e He].
      exists e. rewrite HlS, He. apply last_snoc. }
  remember (logged (Some (log_file_path_of user (log_folder a))) (check_lines user Source (source_folder a) w1)
              (checked user Source (source_folder a) w1)) as w2 eqn:Ew2.
  assert (replica w2 = replica w) as Hr2 by (rewrite Ew2; simpl; by rewrite HSr).
  assert (source w2 = source (checked user Source (source_folder a) w1)) as Hs2
    by (by rewrite Ew2).
  assert (folder_exists Replica w2 = folder_exists Replica w) as HexR
    by (unfold folder_exists; by rewrite Hr2).
  destruct (folder_passes_ext user Replica (replica_folder a) w w2 HexR) as [HpR HlR].
  pose proof (checked_others user Replica (replica_folder a) w2)
    as (HRl & HRs & _ & HRo & _ & HRr & _ & HRn).
  specialize (HRl ltac:(done)). specialize (HRs ltac:(done)).
  rewrite Hr2 in HRr, HRn.
  assert (source (checked user Replica (replica_folder a) w2)
          = source (checked user Source (source_folder a) w1)) as HRs'
    by (by rewrite HRs, Hs2).
  assert (exists ls, log_file w2 = Some (Some (log_file_created user (log_folder a) :: ls)))
    as [ls2 Hl2].
  { rewrite Ew2. simpl. rewrite HSl. simpl. eauto. }
  assert (log_file (checked user Replica (replica_folder a) w2) <> None) as HlogR
    by (by rewrite HRl, Hl2).
  erewrite bind_Done; [|apply check_folders_and_log_eq; exact HlogR].
  rewrite HpR. destruct (folder_passes user Replica (replica_folder a) w) eqn:HR; simpl.
  2:{ eexists. split; [reflexivity|]. split_and!; simpl; auto; try done;
        try (rewrite HRs'; auto; fail).
      intros _ _. destruct (check_lines_fail user Replica _ w HR) as [e He].
      exists e. rewrite HlR, He. apply last_snoc. }
  remember (logged (Some (log_file_path_of user (log_folder a))) (check_lines user Replica (replica_folder a) w2)
              (checked user Replica (replica_folder a) w2)) as w3 eqn:Ew3.
  assert (source w3 = source (checked user Source (source_folder a) w1) /\
          replica w3 = replica (checked user Replica (replica_folder a) w2)) as [Hs3 Hr3]
    by (by rewrite Ew3).
  assert (exists ls, log_file w3 = Some (Some (log_file_created user (log_folder a) :: ls)))
    as [ls3 Hl3].
  { rewrite Ew3. simpl. rewrite HRl, Hl2. simpl. eauto. }
  erewrite bind_Done; [|apply log_message_logged; by rewrite Hl3].
  erewrite bind_Done; [|apply log_message_logged; simpl; by rewrite Hl3].
  eexists. split; [reflexivity|]. split_and!; simpl; rewrite ?Hs3, ?Hr3; auto; try done.
  intros _ _. rewrite Hl3. simpl. split; [|eauto].
  unfold monitored_paths_exist. simpl. rewrite Hl3, Hs3, Hr3. simpl.
  pose proof (checked_exists user Source (source_folder a) w1) as HeS.
  rewrite HpS in HeS. specialize (HeS eq_refl).
  pose proof (checked_exists user Replica (replica_folder a) w2) as HeR.
  rewrite HpR in HeR. specialize (HeR eq_refl).
  unfold folder_exists in HeS, HeR.
  apply bool_decide_eq_true in HeS, HeR.
  split_and!; eauto.
Qed.

End MainStart.

(** ** The loop of [main] *)

Lemma bind_never {S A B} (m : M S A) (k : A -> M S B) (v : B) s :
  (forall a s', (k a s').1 <> Done v) -> ((m ≫= k) s).1 <> Done v.
Proof.
  intros Hk. unfold mbind, M_bind, bind. destruct (m s) as [[a|] s']; [apply Hk|done].
Qed.

Section MainLoop.

Variable os : os_oracle.
Variable a : args.
Variable lp : string.

Local Abbreviation started := (INFO, "Started synchronization").
Local Abbreviation exiting := (ERROR, "Folders or log file were deleted. Exiting...").

Lemma started_monitored w :
  log_file w <> None ->
  (monitored_paths_exist (logged (Some lp) [started] w) <->
   is_Some (source w) /\ is_Some (replica w)).
Proof.
  intros Hlog. unfold monitored_paths_exist, logged; simpl.
  destruct (log_file w) as [[old|]|]; [| |done]; simpl; split.
  all: try (intros (_ & _ & ? & ?); by split).
  all: intros [? ?]; split_and!; eauto.
Qed.

Lemma main_step_without_folder w :
  log_file w <> None -> ~ (is_Some (source w) /\ is_Some (replica w)) ->
  main_step os a lp w = (Done false, logged None [exiting] (logged (Some lp) [started] w)).
Proof.
  intros Hlog Hno. unfold main_step.
  erewrite bind_Done; [|by apply log_message_logged].
  erewrite bind_Done;
    [|apply sync_folders_teardown; intros H; by apply (started_monitored w Hlog) in H].
  simpl. erewrite bind_Done; [|by apply log_message_logged]. done.
Qed.

Lemma main_step_with_folders w :
  log_file w <> None -> is_Some (source w) -> is_Some (replica w) ->
  (main_step os a lp w).1 <> Done false.
Proof.
  intros Hlog Hs Hr. unfold main_step.
  erewrite bind_Done; [|by apply log_message_logged].
  assert (monitored_paths_exist (logged (Some lp) [started] w)) as Hmon
    by (by apply started_monitored).
  unfold mbind at 1, M_bind at 1, bind at 1.
  destruct (sync_folders os (source_folder a) (replica_folder a) lp
              (logged (Some lp) [started] w)) as [[ok|] w2] eqn:Hsync; [|done].
  destruct ok; simpl.
  - repeat (apply bind_never; intros ? ?). done.
  - exfalso. rewrite (sync_folders_run os _ _ lp _ Hmon) in Hsync.
    assert (((deletion os (replica_folder a) lp (cycle_diff (logged (Some lp) [started] w));;
              creation os (source_folder a) (replica_folder a) lp
                (cycle_diff (logged (Some lp) [started] w));;
              update os (source_folder a) (replica_folder a) lp
                (cycle_diff (logged (Some lp) [started] w));; mret true)
               (logged (Some lp) [started] w)).1 <> Done false) as H.
    { repeat (apply bind_never; intros ? ?). done. }
    apply H. by rewrite Hsync.
Qed.

(** X14. One round of the loop of [main].  The round first logs that the
    synchronization started, and this creates the log file again when it
    was deleted; so a deleted log file never ends the program: with the log
    folder in place, the round ends the loop exactly when the source or the
    replica folder is missing.  It then has printed the line that says that
    it started and an ERROR line, of which only the first is in the log
    file, and has touched no tree.  When the log folder is missing the round
    raises as soon as it has printed the first line. *)
Theorem main_step_result w :
  (log_file w = None -> main_step os a lp w = (Raised, print started w)) /\
  (log_file w <> None ->
     ((main_step os a lp w).1 = Done false <-> source w = None \/ replica w = None) /\
     (source w = None \/ replica w = None ->
        main_step os a lp w =
          (Done false,
           World (source w) (replica w) (log_after (log_file w) [started])
             (stdout w ++ [started; exiting])))).
Proof.
  split.
  - intros Hlog. unfold main_step, log_message, mbind, M_bind, bind. simpl. by rewrite Hlog.
  - intros Hlog.
    assert (source w = None \/ replica w = None <->
            ~ (is_Some (source w) /\ is_Some (replica w))) as Hiff.
    { split.
      - intros [H|H] [[? Hs] [? Hr]]; congruence.
      - intros H. destruct (source w) eqn:Hs; [|by left].
        destruct (replica w) eqn:Hr; [|by right]. exfalso. apply H; eauto. }
    split.
    + split.
      * intros Hf. apply Hiff. intros [Hs Hr]. by apply (main_step_with_folders w).
      * intros H. rewrite main_step_without_folder by (by try apply Hiff). done.
    + intros H. rewrite main_step_without_folder by (by try apply Hiff).
      unfold logged. simpl. by rewrite <- app_assoc.
Qed.

(** X15. The loop of [main] ends by returning only when the source or the
    replica folder is missing: in the world in which [main] returned from
    its loop one of the two does not exist, and the last line printed is
    the ERROR line of the exit. *)
Theorem main_loop_returns_without_a_folder rounds w w' :
  main_loop os rounds a lp w = (Done true, w') ->
  (source w' = None \/ replica w' = None) /\ last (stdout w') = Some exiting.
Proof.
  revert w. induction rounds as [|n IH]; intros w Hrun; [done|].
  cbn [main_loop] in Hrun. unfold mbind, M_bind, bind in Hrun.
  destruct (main_step os a lp w) as [[go|] w1] eqn:Hstep; [|done].
  destruct go; [by apply (IH w1)|].
  injection Hrun as <-.
  destruct (main_step_result w) as [Hnone Hsome].
  destruct (log_file w) as [x|] eqn:Hlog.
  - destruct Hsome as [Hiff Heq]; [done|].
    assert (source w = None \/ replica w = None) as Hno by (apply Hiff; by rewrite Hstep).
    rewrite (Heq Hno) in Hstep. injection Hstep as <-. simpl. split; [done|].
    change [started; exiting] with ([started] ++ [exiting]).
    rewrite app_assoc. apply last_snoc.
  - rewrite Hnone in Hstep by done. discriminate.
Qed.

(** X16. A negative interval stops the program after one cycle:
    [time.sleep] raises on a negative length, and nothing in [main] catches
    it.  So no round of the loop is followed by another one: a round ends
    the loop or raises, and when its cycle returned [True] it raises after
    logging that the synchronization finished. *)
Theorem negative_interval_stops w :
  (sync_interval a < 0)%Z ->
  (main_step os a lp w).1 <> Done true /\
  (forall rounds, (main_loop os (S rounds) a lp w).1 <> Done false) /\
  (forall w1 w2 w3,
     log_message "Started synchronization" INFO (Some lp) w = (Done tt, w1) ->
     sync_folders os (source_folder a) (replica_folder a) lp w1 = (Done true, w2) ->
     log_message "Finished synchronization" INFO (Some lp) w2 = (Done tt, w3) ->
     main_step os a lp w = (Raised, w3)).
Proof.
  intros Hneg.
  assert (forall w0, time_sleep os (sync_interval a) w0 = (Raised, w0)) as Hsleep.
  { intros w0. unfold time_sleep. by rewrite (proj2 (Z.ltb_lt _ _) Hneg). }
  assert ((main_step os a lp w).1 <> Done true) as Hstep.
  { unfold main_step. apply bind_never. intros _ w1. apply bind_never. intros ok w2.
    destruct ok; cbn [negb].
    - apply bind_never. intros _ w3. erewrite bind_Raised; [done|apply Hsleep].
    - apply bind_never. by intros _ w3. }
  split_and!; [done| |].
  - intros rounds. cbn [main_loop]. unfold mbind, M_bind, bind.
    destruct (main_step os a lp w) as [[go|] w1]; [|done].
    by destruct go.
  - intros w1 w2 w3 H1 H2 H3. unfold main_step.
    erewrite bind_Done; [|exact H1]. erewrite bind_Done; [|exact H2]. simpl.
    erewrite bind_Done; [|exact H3]. erewrite bind_Raised; [done|apply Hsleep].
Qed.

End MainLoop.

(** ** Failures stay inside the Deletion and the Creation Applier *)

(** X17. Whatever call fails, the Deletion and the Creation Applier return:
    for every oracle, all arguments and every world in which the folder of
    the log file exists, they do not raise, the folder of the log file still
    exists afterwards, and every line they print has the level DELETED or
    ERROR (CREATED or ERROR for the Creation Applier). *)
Theorem appliers_contain_failures os w :
  log_file w <> None ->
  (forall folders files path lp,
     exists w', delete_files os folders files path lp w = (Done tt, w') /\
       log_file w' <> None /\ printed_only deletion_level w w') /\
  (forall folders files sp dp lp,
     exists w', create_files os folders files sp dp lp w = (Done tt, w') /\
       log_file w' <> None /\ printed_only creation_level w w').
Proof.
  intros Hlog. split.
  - intros folders files path lp.
    destruct (wp_returns (delete_files os folders files path lp)
                (fun _ => good (printed_only deletion_level w)) w)
      as ([] & w1 & Heq & Hlog1 & Hpr).
    + apply delete_files_good.
      * apply printed_only_logging.
      * intros; by apply printed_only_replica.
      * intros; by apply printed_only_replica.
      * split; [done|apply printed_only_refl].
    + by exists w1.
  - intros folders files sp dp lp.
    destruct (wp_returns (create_files os folders files sp dp lp)
                (fun _ => good (printed_only creation_level w)) w)
      as ([] & w1 & Heq & Hlog1 & Hpr).
    + apply create_files_good.
      * apply printed_only_logging.
      * intros; by apply printed_only_replica.
      * intros; by apply printed_only_replica.
      * split; [done|apply printed_only_refl].
    + by exists w1.
Qed.

(** ** The check of a folder, logged *)

(** X18. [check_folders_and_log] returns whether the folder passes, and
    prints what the check found: [OKAY] for a folder that passes, after
    [CREATED] when it was made, and one [ERROR] line for a folder that does
    not pass.  With a log file path the same lines are appended to the log
    file, and without one the log file is not touched.  The only change to
    the folders is the one of [check_folder].  The call does not raise,
    unless it is to write into a log folder that is missing. *)
Theorem check_folders_and_log_result user f path lp w :
  match lp with None => True | Some _ => log_file (checked user f path w) <> None end ->
  exists w', check_folders_and_log user f path lp w = (Done (folder_passes user f path w), w') /\
    source w' = source (checked user f path w) /\
    replica w' = replica (checked user f path w) /\
    stdout w' = stdout w ++ check_lines user f path w /\
    log_file w' = match lp with
                  | None => log_file (checked user f path w)
                  | Some _ => log_after (log_file (checked user f path w))
                                (check_lines user f path w)
                  end /\
    (folder_passes user f path w = true ->
       folder_exists f w' = true /\
       Forall (fun l : line => l.1 = CREATED \/ l.1 = OKAY) (check_lines user f path w)) /\
    (folder_passes user f path w = false ->
       checked user f path w = w /\ exists e, check_lines user f path w = [(ERROR, e)]).
Proof.
  intros Hlog. rewrite (check_folders_and_log_eq user f path lp w Hlog).
  eexists. split; [reflexivity|].
  destruct (checked_others user f path w) as (_ & _ & _ & Ho & _).
  split_and!; try done.
  - simpl. by rewrite Ho.
  - intros Hp. split.
    + pose proof (checked_exists user f path w Hp) as Hex.
      unfold folder_exists in *. destruct f; simpl; try done.
      apply bool_decide_eq_true in Hex. apply bool_decide_eq_true.
      destruct lp; [|done]. destruct Hex as [[old|] ->]; simpl; [eauto|].
      by destruct (check_lines user Log path w).
    + unfold check_lines. unfold folder_passes in Hp.
      destruct (folder_exists f w).
      * rewrite Hp. constructor; [by right|constructor].
      * apply andb_true_iff in Hp as [-> Hm]. apply negb_true_iff in Hm as ->.
        constructor; [by left|]. constructor; [by right|constructor].
  - intros Hp. split; [by apply checked_fails|by apply check_lines_fail].
Qed.

(** ** The Update Applier stops at a file it cannot read *)

Lemma for_each_app {S X} (xs ys : list X) (body : X -> M S unit) s :
  for_each (xs ++ ys) body s = (for_each xs body;; for_each ys body) s.
Proof.
  revert s. induction xs as [|x xs IH]; intros s; simpl.
  - reflexivity.
  - unfold mbind, M_bind, bind. destruct (body x s) as [[[]|] s']; [|done].
    rewrite IH. reflexivity.
Qed.

(** X19. The Update Applier stops at the first file whose modification
    time cannot be read, on either side: the files before it are handled
    as if they were the whole list, then the error leaves [update_files];
    nothing is logged for the file, and the files after it are not looked
    at. *)
Theorem update_stops_at_unreadable os before f rest sp dp lp w w1 :
  update_files os before sp dp lp w = (Done tt, w1) ->
  getmtime os Src (Path.join sp f) f w1 = (Raised, w1) \/
  getmtime os Rep (Path.join dp f) f w1 = (Raised, w1) ->
  update_files os (before ++ f :: rest) sp dp lp w = (Raised, w1).
Proof.
  intros Hrun Hfail. rewrite update_files_unfold in *.
  rewrite for_each_app. erewrite bind_Done; [|exact Hrun].
  cbn [for_each]. erewrite bind_Raised; [done|].
  unfold update_step.
  destruct (getmtime_cases os Src (Path.join sp f) f w1) as [Hs|(t & n & _ & _ & Hs)].
  - by erewrite bind_Raised.
  - destruct Hfail as [Hf|Hf]; [congruence|].
    erewrite bind_Done; [|exact Hs]. by erewrite bind_Raised.
Qed.

(** ** The loop of [main] on trees in step *)

Section SteadyState.

Variable os : os_oracle.
Variable a : args.
Variable lp : string.
Hypothesis Hok : fault_free os.
Hypothesis Hinterval : (0 <= sync_interval a)%Z.
Hypothesis Hsleep : sleep_refused os (sync_interval a) = false.

Local Abbreviation started := (INFO, "Started synchronization").
Local Abbreviation finished := (INFO, "Finished synchronization").

Lemma main_step_idle w s t :
  source w = Some s -> replica w = Some t -> log_file w <> None -> in_step s t ->
  main_step os a lp w = (Done true, logged (Some lp) [started; finished] w).
Proof.
  intros Hs Ht Hlog Hstep. unfold main_step.
  erewrite bind_Done; [|by apply log_message_logged].
  assert (exists ls, log_file (logged (Some lp) [started] w) = Some (Some ls)) as Hl.
  { simpl. destruct (log_file w) as [[old|]|]; [| |done]; simpl; eauto. }
  erewrite bind_Done;
    [|apply (idle_cycle os _ _ lp (logged (Some lp) [started] w) s t); try done;
      intros f _; by rewrite !Hok].
  cbn [negb]. erewrite bind_Done; [|apply log_message_logged; by destruct Hl as [ls ->]].
  unfold time_sleep. rewrite (proj2 (Z.ltb_ge _ _) Hinterval), Hsleep.
  by rewrite logged_app.
Qed.

Lemma main_loop_idle rounds : forall w s t,
  source w = Some s -> replica w = Some t -> log_file w <> None -> in_step s t ->
  main_loop os rounds a lp w =
    (Done false, logged (Some lp) (mjoin (replicate rounds [started; finished])) w).
Proof.
  induction rounds as [|n IH]; intros w s t Hs Ht Hlog Hstep.
  - simpl. by rewrite logged_nil.
  - cbn [main_loop]. erewrite bind_Done; [|by eapply main_step_idle].
    rewrite (IH _ s t); try done.
    + by rewrite logged_app.
    + simpl. by destruct (log_file w) as [[old|]|].
Qed.

(** X20. The steady state of [main].  On trees that are in step, with no
    call failing, the log folder in place and an interval that is not
    negative and that the system accepts as the length of a sleep, the loop
    keeps running: after any number of rounds the program has not returned
    and has not raised, the two trees are as they were, and each round has
    printed and logged two lines, that the synchronization started and that
    it finished. *)
Theorem main_loop_steady_state rounds w s t :
  source w = Some s -> replica w = Some t -> log_file w <> None -> in_step s t ->
  exists w', main_loop os rounds a lp w = (Done false, w') /\
    source w' = Some s /\ replica w' = Some t /\
    stdout w' = stdout w ++ mjoin (replicate rounds [started; finished]) /\
    log_file w' = log_after (log_file w) (mjoin (replicate rounds [started; finished])).
Proof.
  intros Hs Ht Hlog Hstep. eexists. split; [by eapply main_loop_idle|]. by split_and!.
Qed.

(** X21. [main] keeps the replica in step.  Started in its loop on
    directory trees whose items do not collide with a folder to delete or
    to create, with no call failing, the log folder in place and an
    interval that is not negative and that the system accepts as the length
    of a sleep, the program is still running after any number of rounds,
    the source is as it was, and from the first round on the replica is the
    tree that the first cycle made, in step with the source. *)
Theorem main_loop_keeps_replica_in_step rounds w s t :
  source w = Some s -> replica w = Some t -> log_file w <> None ->
  well_formed s -> well_formed t ->
  let d := cycle_diff w in
  collision_free (deleted_folders d) (set_union (deleted_folders d) (deleted_files d)) = true ->
  collision_free (created_folders d) (set_union (created_folders d) (created_files d)) = true ->
  exists w' r, main_loop os (S rounds) a lp w = (Done false, w') /\
    source w' = Some s /\ replica w' = Some r /\ in_step s r.
Proof.
  intros Hs Ht Hlog Hwfs Hwft d Hcd Hcc.
  set (w0 := logged (Some lp) [started] w).
  assert (exists ls, log_file w0 = Some (Some ls)) as Hl0.
  { simpl. destruct (log_file w) as [[old|]|]; [| |done]; simpl; eauto. }
  destruct (cycle_converges_to os (source_folder a) (replica_folder a) lp Hok w0 s t)
    as (w1 & Heq & Hs1 & Hr1 & Hl1 & _); try done.
  assert (log_file (logged (Some lp) [finished] w1) <> None) as Hl2.
  { simpl. by destruct (log_file w1) as [[old|]|]. }
  assert (main_step os a lp w = (Done true, logged (Some lp) [finished] w1)) as Hstep.
  { unfold main_step. erewrite bind_Done; [|by apply log_message_logged].
    erewrite bind_Done; [|exact Heq]. cbn [negb].
    erewrite bind_Done; [|by apply log_message_logged].
    unfold time_sleep. by rewrite (proj2 (Z.ltb_ge _ _) Hinterval), Hsleep. }
  exists (logged (Some lp) (mjoin (replicate rounds [started; finished]))
            (logged (Some lp) [finished] w1)), (synced s t).
  split_and!; try done.
  - cbn [main_loop]. erewrite bind_Done; [|exact Hstep].
    apply (main_loop_idle rounds _ s (synced s t)); try done. apply synced_in_step.
  - apply synced_in_step.
Qed.

End SteadyState.

(** ** The answer at the prompt *)

Lemma lower_char_y c :
  Text.lower_char c = "y"%char <-> c = "y"%char \/ c = "Y"%char.
Proof.
  split.
  - destruct c as [[] [] [] [] [] [] [] []]; vm_compute; intros H;
      first [discriminate H | by left | by right].
  - by intros [->| ->].
Qed.

Lemma lower_is_y s : Text.lower s = "y" <-> s = "y" \/ s = "Y".
Proof.
  destruct s as [|c [|c' s]]; simpl.
  - split; [done|]. by intros [?|?].
  - split.
    + intros [= H]. apply lower_char_y in H as [->| ->]; auto.
    + intros [[= ->]|[= ->]]; reflexivity.
  - split; [done|]. by intros [?|?].
Qed.

Lemma lstrip_split s : exists a, s = (a ++ Text.lstrip s)%string /\ blank a.
Proof.
  induction s as [|c s (a & Heq & Ha)]; simpl.
  - exists "". split; [done|constructor].
  - destruct (Text.is_space c) eqn:Hc.
    + exists (String c a). split; [|by constructor].
      change (String c s = String c (a ++ Text.lstrip s)%string). by f_equal.
    + exists "". split; [done|constructor].
Qed.

Lemma rstrip_split s : exists b, s = (Text.rstrip s ++ b)%string /\ blank b.
Proof.
  induction s as [|c s (b & Heq & Hb)]; simpl.
  - exists "". split; [done|constructor].
  - destruct (Text.is_space c && String.eqb (Text.rstrip s) "") eqn:Hc.
    + apply andb_true_iff in Hc as [Hc He]. apply String.eqb_eq in He.
      rewrite He in Heq. exists (String c b).
      split; [|by constructor].
      change (String c s = String c ("" ++ b)%string). by f_equal.
    + exists b. split; [|done].
      change (String c s = String c (Text.rstrip s ++ b)%string). by f_equal.
Qed.

Lemma lstrip_blank a c s :
  blank a -> Text.is_space c = false ->
  Text.lstrip (a ++ String c s) = String c s.
Proof.
  intros Ha Hc. induction a as [|x a IH].
  - change (Text.lstrip (String c s) = String c s). simpl. by rewrite Hc.
  - change (Text.lstrip (String x (a ++ String c s)) = String c s). simpl.
    inversion Ha as [|? ? Hx Ha']; subst. rewrite Hx. by apply IH.
Qed.

Lemma rstrip_blank b : blank b -> Text.rstrip b = "".
Proof.
  induction b as [|x b IH]; intros Hb; simpl; [done|].
  inversion Hb as [|? ? Hx Hb']; subst. by rewrite Hx, (IH Hb').
Qed.

(** X23. The answers that create a folder.  An ASCII answer at the prompt
    of [check_folder] counts as a yes exactly when it is the letter [y] or
    [Y] with nothing but white space before and after it. *)
Theorem accepted_answers user path :
  says_yes user path = true <->
  exists a b c, response user path = (a ++ String c b)%string /\
    (c = "y"%char \/ c = "Y"%char) /\ blank a /\ blank b.
Proof.
  unfold says_yes, Text.strip. rewrite String.eqb_eq, lower_is_y.
  generalize (response user path). intros r. split.
  - intros H. destruct (lstrip_split r) as (a & Hr & Ha).
    destruct (rstrip_split (Text.lstrip r)) as (b & Hl & Hb).
    destruct H as [H|H]; rewrite H in Hl; rewrite Hl in Hr.
    + exists a, b, "y"%char. auto.
    + exists a, b, "Y"%char. auto.
  - intros (a & b & c & -> & Hc & Ha & Hb).
    assert (Text.is_space c = false) as Hsp by (by destruct Hc as [->| ->]).
    rewrite (lstrip_blank a c b Ha Hsp). simpl.
    rewrite (rstrip_blank b Hb), Hsp. simpl.
    destruct Hc as [->| ->]; auto.
Qed.

(** ** The further theorems at concrete worlds *)

Lemma fault_free_no_faults : fault_free no_faults.
Proof. intros c p. reflexivity. Defined.

Lemma replica_frozen_refuses : writes_refused_under replica_frozen "replica".
Proof.
  intros c x Hc. unfold Path.join. destruct (Path.startswith "/" x) eqn:Hx.
  - destruct c; try done;
      change (Path.startswith "replica/" x || Path.startswith "/" x = true);
      rewrite Hx; apply orb_true_r.
  - destruct c; try done; reflexivity.
Defined.

(** X1 on [world_mixed], where nothing can be written below [replica]
    while removals and copies elsewhere go through. *)
Lemma cycle_writes_below_replica_path_witness :
  writes_refused_under replica_frozen "replica" /\
  fails replica_frozen Rmtree "source/a" = false /\
  printed_only error_level world_mixed
    (sync_folders replica_frozen "source" "replica" "log/sync.txt" world_mixed).2.
Proof.
  split; [exact replica_frozen_refuses|]. split; [reflexivity|].
  exact (cycle_writes_below_replica_path replica_frozen "replica" replica_frozen_refuses
           "source" "log/sync.txt" world_mixed).
Defined.

(** X2 on [world_common]. *)
Lemma delete_files_only_removes_witness :
  exists t', replica (delete_files no_faults ["old"] [] "replica" "log/sync.txt"
                        world_common).2 = Some t' /\
    t' ⊆ list_to_map [("c.txt", File 6 "old"); ("old", Dir)].
Proof.
  apply (delete_files_only_removes no_faults ["old"] [] "replica" "log/sync.txt" world_common).
  reflexivity.
Defined.

(** X3 on [world_sibling_new]. *)
Lemma create_and_update_only_add_witness :
  exists t', replica (create_files no_faults ["folder1"] ["folder10/x"] "source" "replica"
                        "log/sync.txt" world_sibling_new).2 = Some t' /\
    (forall p, is_Some ((list_to_map [("folder10", Dir)] : gmap string node) !! p) ->
       is_Some (t' !! p)) /\
    accounted (source world_sibling_new) (list_to_map [("folder10", Dir)]) t'.
Proof.
  destruct (create_and_update_only_add no_faults world_sibling_new
              (list_to_map [("folder10", Dir)])) as [H _].
  - reflexivity.
  - destruct (H ["folder1"] ["folder10/x"] "source" "replica" "log/sync.txt")
      as (t' & Hr & Hdom & Hacc).
    exists t'. split; [exact Hr|]. split; [exact Hdom|].
    apply Hacc. intros p. split; reflexivity.
Defined.

(** X5 on [c.txt] of [world_common]. *)
Lemma diff_sorts_the_snapshots_witness :
  let d := cycle_diff world_common in
  "c.txt" ∈ created_files d /\ "c.txt" ∉ common_files d \/
  "c.txt" ∈ common_files d /\ "c.txt" ∉ created_files d.
Proof.
  destruct (diff_sorts_the_snapshots world_common
              (list_to_map [("c.txt", File 7 "new")])
              (list_to_map [("c.txt", File 6 "old"); ("old", Dir)])
              eq_refl eq_refl "c.txt") as [[H _] _].
  apply H. exists 7%Z, "new". reflexivity.
Defined.

(** X6 on [world_in_step]. *)
Lemma in_step_cycle_is_idle_witness :
  sync_folders no_faults "source" "replica" "log/sync.txt" world_in_step
  = (Done true, world_in_step).
Proof.
  apply (in_step_cycle_is_idle no_faults "source" "replica" "log/sync.txt" world_in_step
           (list_to_map [("c.txt", File 7 "new"); ("d", Dir)])
           (list_to_map [("c.txt", File 7 "other"); ("d", Dir)])).
  - reflexivity.
  - reflexivity.
  - by exists [].
  - apply in_step_decide. by vm_compute.
  - intros f _. by split.
Defined.

(** X8 on [world_mixed]. *)
Lemma deletion_removes_what_is_to_delete_witness :
  exists w1 t1,
    deletion no_faults "replica" "log/sync.txt" (cycle_diff world_mixed) world_mixed
      = (Done tt, w1) /\
    replica w1 = Some t1 /\ t1 !! "old" = None /\ t1 !! "old/o" = None /\
    t1 !! "keep/k" = Some (File 1 "other").
Proof.
  destruct (deletion_removes_what_is_to_delete no_faults "replica" "log/sync.txt" world_mixed
              (list_to_map [("a", Dir); ("a/f", File 3 "f"); ("b.txt", File 7 "new");
                            ("keep", Dir); ("keep/k", File 1 "k")])
              (list_to_map [("old", Dir); ("old/o", File 2 "o"); ("b.txt", File 6 "old");
                            ("keep", Dir); ("keep/k", File 1 "other")]))
    as (w1 & t1 & Heq & _ & Hr & Hgone & Hkept & _).
  - apply fault_free_no_faults.
  - reflexivity.
  - reflexivity.
  - done.
  - apply well_formed_decide. by vm_compute.
  - by vm_compute.
  - exists w1, t1. split; [exact Heq|]. split; [exact Hr|]. split; [|split].
    + apply Hgone. apply (bool_decide_unpack _). vm_compute. exact I.
    + apply Hgone. apply (bool_decide_unpack _). vm_compute. exact I.
    + rewrite Hkept; [vm_compute; reflexivity|].
      apply (bool_decide_unpack _). vm_compute. exact I.
Defined.

(** X9 on [world_mixed]. *)
Lemma cycle_brings_replica_in_step_witness :
  exists w' r,
    sync_folders no_faults "source" "replica" "log/sync.txt" world_mixed = (Done true, w') /\
    replica w' = Some r /\
    in_step (list_to_map [("a", Dir); ("a/f", File 3 "f"); ("b.txt", File 7 "new");
                          ("keep", Dir); ("keep/k", File 1 "k")]) r.
Proof.
  destruct (cycle_brings_replica_in_step no_faults "source" "replica" "log/sync.txt"
              world_mixed
              (list_to_map [("a", Dir); ("a/f", File 3 "f"); ("b.txt", File 7 "new");
                            ("keep", Dir); ("keep/k", File 1 "k")])
              (list_to_map [("old", Dir); ("old/o", File 2 "o"); ("b.txt", File 6 "old");
                            ("keep", Dir); ("keep/k", File 1 "other")]))
    as (w' & r & Heq & _ & Hr & Hstep & _).
  - apply fault_free_no_faults.
  - reflexivity.
  - reflexivity.
  - by exists [].
  - apply well_formed_decide. by vm_compute.
  - apply well_formed_decide. by vm_compute.
  - by vm_compute.
  - by vm_compute.
  - exists w', r. split; [exact Heq|]. split; [exact Hr|exact Hstep].
Defined.

(** X10 on [world_mixed]. *)
Lemma second_cycle_is_idle_witness :
  exists w',
    sync_folders no_faults "source" "replica" "log/sync.txt" world_mixed = (Done true, w') /\
    sync_folders no_faults "source" "replica" "log/sync.txt" w' = (Done true, w').
Proof.
  apply (second_cycle_is_idle no_faults "source" "replica" "log/sync.txt" world_mixed
           (list_to_map [("a", Dir); ("a/f", File 3 "f"); ("b.txt", File 7 "new");
                         ("keep", Dir); ("keep/k", File 1 "k")])
           (list_to_map [("old", Dir); ("old/o", File 2 "o"); ("b.txt", File 6 "old");
                         ("keep", Dir); ("keep/k", File 1 "other")])).
  - apply fault_free_no_faults.
  - reflexivity.
  - reflexivity.
  - by exists [].
  - apply well_formed_decide. by vm_compute.
  - apply well_formed_decide. by vm_compute.
  - by vm_compute.
  - by vm_compute.
Defined.

(** X22 on [world_mixed]. *)
Lemma cycle_logs_every_change_once_witness :
  exists w' lsD lsC,
    sync_folders no_faults "source" "replica" "log/sync.txt" world_mixed = (Done true, w') /\
    stdout w' = lsD ++ lsC ++ [(UPDATED, "replica/b.txt")] /\
    length lsD = 2 /\ length lsC = 2.
Proof.
  destruct (cycle_logs_every_change_once no_faults "source" "replica" "log/sync.txt"
              world_mixed
              (list_to_map [("a", Dir); ("a/f", File 3 "f"); ("b.txt", File 7 "new");
                            ("keep", Dir); ("keep/k", File 1 "k")])
              (list_to_map [("old", Dir); ("old/o", File 2 "o"); ("b.txt", File 6 "old");
                            ("keep", Dir); ("keep/k", File 1 "other")]))
    as (w' & lsD & lsC & Heq & Ho & _ & HD & HC).
  - apply fault_free_no_faults.
  - reflexivity.
  - reflexivity.
  - by exists [].
  - apply well_formed_decide. vm_compute. reflexivity.
  - apply well_formed_decide. vm_compute. reflexivity.
  - vm_compute. reflexivity.
  - vm_compute. reflexivity.
  - exists w', lsD, lsC. split; [exact Heq|]. split; [exact Ho|]. split.
    + apply Permutation_length in HD. etrans; [exact HD|]. vm_compute. reflexivity.
    + apply Permutation_length in HC. etrans; [exact HC|]. vm_compute. reflexivity.
Defined.

(** X15 on [world_no_source]. *)
Lemma main_loop_returns_without_a_folder_witness :
  let w' := (main_loop no_faults 1 default_args "./log_folder/log.txt" world_no_source).2 in
  (source w' = None \/ replica w' = None) /\
  last (stdout w') = Some (ERROR, "Folders or log file were deleted. Exiting...").
Proof.
  apply (main_loop_returns_without_a_folder no_faults default_args "./log_folder/log.txt" 1
           world_no_source).
  by vm_compute.
Defined.

(** X16 on [world_common], with an interval of -1. *)
Lemma negative_interval_stops_witness :
  (main_step no_faults hasty_args "./log_folder/log.txt" world_common).1 <> Done true.
Proof.
  apply (negative_interval_stops no_faults hasty_args "./log_folder/log.txt" world_common).
  reflexivity.
Defined.

(** X17 on [world_common], where nothing can be removed. *)
Lemma appliers_contain_failures_witness :
  exists w', delete_files read_only ["old"] [] "replica" "log/sync.txt" world_common
             = (Done tt, w') /\
    log_file w' <> None /\ printed_only deletion_level world_common w'.
Proof.
  destruct (appliers_contain_failures read_only world_common) as [H _].
  - done.
  - apply H.
Defined.

(** X18 on the source folder of [world_fresh], which the user has made. *)
Lemma check_folders_and_log_result_witness :
  exists w', check_folders_and_log agreeing_user Source "./source_folder" None world_fresh
             = (Done true, w') /\
    source w' = Some ∅ /\
    stdout w' = [(CREATED, "Source folder was created: ./source_folder");
                 (OKAY, "Source folder exists and has necessary permissions: ./source_folder")].
Proof.
  destruct (check_folders_and_log_result agreeing_user Source "./source_folder" None
              world_fresh) as (w' & Heq & Hs & _ & Ho & _).
  - done.
  - exists w'. by split_and!.
Defined.

(** X11 on the log folder of [world_fresh]. *)
Lemma check_folder_result_witness :
  exists w', check_folder agreeing_user Log "./log_folder" world_fresh
             = (Done (None, true), w') /\
    log_file w' = Some None.
Proof.
  destruct (check_folder_result agreeing_user Log "./log_folder" world_fresh)
    as (err & created & w' & Heq & Hc & Hw & Herr & _).
  assert (created = true) as -> by (rewrite Hc; reflexivity).
  assert (err = None) as -> by (apply Herr; reflexivity).
  exists w'. split; [done|]. by rewrite Hw.
Defined.

(** X12 on [world_fresh], and on a path of the log folder that is taken
    by a file. *)
Lemma create_log_file_result_witness :
  (exists w', create_log_file agreeing_user "./log_folder" world_fresh
              = (Done (Some "./log_folder/2024-01-01_00-00-00_sync_folders_log.txt"), w') /\
     log_file w' =
       Some (Some [(CREATED, "Log file was created: ./log_folder/2024-01-01_00-00-00_sync_folders_log.txt")])) /\
  (exists w', create_log_file path_taken "./notes.txt" world_path_taken = (Raised, w') /\
     stdout w' = [(OKAY, "Log folder exists and has necessary permissions: ./notes.txt")]).
Proof.
  split.
  - destruct (create_log_file_result agreeing_user "./log_folder" world_fresh)
      as (r & w' & Heq & _ & _ & _ & _ & Hpass & _).
    destruct Hpass as (-> & Hl & _); [reflexivity|reflexivity|].
    exists w'. split; [exact Heq|exact Hl].
  - destruct (create_log_file_result path_taken "./notes.txt" world_path_taken)
      as (r & w' & Heq & _ & _ & Hiff & Hraised & _).
    assert (r = Raised) as -> by (apply Hiff; split; reflexivity).
    destruct (Hraised eq_refl) as [_ Ho].
    exists w'. split; [exact Heq|exact Ho].
Defined.

(** X13 on [world_fresh]: the three folders are made and the loop is
    entered; and on a path of the log folder that is taken by a file: the
    start-up raises. *)
Lemma main_enters_the_loop_witness :
  (exists w0, main no_faults agreeing_user 0 default_args world_fresh = (Done false, w0) /\
     monitored_paths_exist w0) /\
  (exists w0, main no_faults path_taken 0 notes_args world_path_taken = (Raised, w0) /\
     stdout w0 = [(OKAY, "Log folder exists and has necessary permissions: ./notes.txt")]).
Proof.
  split.
  - destruct (main_enters_the_loop no_faults agreeing_user 0 default_args world_fresh)
      as (w0 & Heq & _ & Hmon & _).
    exists w0. split; [exact Heq|]. apply Hmon; reflexivity.
  - destruct (main_enters_the_loop no_faults path_taken 0 notes_args world_path_taken)
      as (w0 & Heq & Ho & _).
    exists w0. split; [exact Heq|]. apply Ho. reflexivity.
Defined.

(** X14 on [world_no_log]: the log file was deleted, and the round does
    not end the loop. *)
Lemma main_step_result_witness :
  (main_step no_faults default_args "./log_folder/log.txt" world_no_log).1 <> Done false.
Proof.
  destruct (main_step_result no_faults default_args "./log_folder/log.txt" world_no_log)
    as [_ H].
  destruct H as [Hiff _]; [done|].
  intros Hf. apply Hiff in Hf as [Hf|Hf]; discriminate.
Defined.

(** X19 on [world_common], where the time of [c.txt] cannot be read. *)
Lemma update_stops_at_unreadable_witness :
  update_files stat_fails ["c.txt"; "d.txt"] "source" "replica" "log/sync.txt" world_common
  = (Raised, world_common).
Proof.
  apply (update_stops_at_unreadable stat_fails [] "c.txt" ["d.txt"] "source" "replica"
           "log/sync.txt" world_common world_common).
  - reflexivity.
  - right. vm_compute. reflexivity.
Defined.

(** X20 on [world_in_step], for three rounds. *)
Lemma main_loop_steady_state_witness :
  exists w', main_loop no_faults 3 default_args "./log_folder/log.txt" world_in_step
             = (Done false, w') /\
    replica w' = replica world_in_step /\ length (stdout w') = 6.
Proof.
  destruct (main_loop_steady_state no_faults default_args "./log_folder/log.txt"
              fault_free_no_faults ltac:(vm_compute; discriminate) eq_refl 3 world_in_step
              (list_to_map [("c.txt", File 7 "new"); ("d", Dir)])
              (list_to_map [("c.txt", File 7 "other"); ("d", Dir)]))
    as (w' & Heq & _ & Hr & Ho & _).
  - reflexivity.
  - reflexivity.
  - discriminate.
  - apply in_step_decide. vm_compute. reflexivity.
  - exists w'. split; [exact Heq|]. split; [exact Hr|]. rewrite Ho. reflexivity.
Defined.

(** X21 on [world_mixed], for two rounds. *)
Lemma main_loop_keeps_replica_in_step_witness :
  exists w' r, main_loop no_faults 2 default_args "./log_folder/log.txt" world_mixed
               = (Done false, w') /\
    replica w' = Some r /\
    in_step (list_to_map [("a", Dir); ("a/f", File 3 "f"); ("b.txt", File 7 "new");
                          ("keep", Dir); ("keep/k", File 1 "k")]) r.
Proof.
  destruct (main_loop_keeps_replica_in_step no_faults default_args "./log_folder/log.txt"
              fault_free_no_faults ltac:(vm_compute; discriminate) eq_refl 1 world_mixed
              (list_to_map [("a", Dir); ("a/f", File 3 "f"); ("b.txt", File 7 "new");
                            ("keep", Dir); ("keep/k", File 1 "k")])
              (list_to_map [("old", Dir); ("old/o", File 2 "o"); ("b.txt", File 6 "old");
                            ("keep", Dir); ("keep/k", File 1 "other")]))
    as (w' & r & Heq & _ & Hr & Hstep).
  - reflexivity.
  - reflexivity.
  - discriminate.
  - apply well_formed_decide. vm_compute. reflexivity.
  - apply well_formed_decide. vm_compute. reflexivity.
  - vm_compute. reflexivity.
  - vm_compute. reflexivity.
  - exists w', r. split; [exact Heq|]. split; [exact Hr|exact Hstep].
Defined.
